(** * A shallow embedding of the Redux store engine

    Sources embedded here:
    - [src/utils/isPlainObject.js]   ([isPlainObject])
    - [src/utils/actionTypes.js]     ([randomString], [ActionTypes])
    - [src/compose.js]               ([compose])
    - [src/createStore.js]           ([createStore] and the closures it returns)
    - [src/applyMiddleware.js]       ([applyMiddleware])

    JavaScript values are a small inductive type; arrays live in a heap and are
    referred to by address, so that [nextListeners === currentListeners] is a
    comparison of references and [push]/[splice] are updates in place.
    User callbacks (reducers, listeners, middleware bodies) are programs over
    the store's public operations, run by a fuel-indexed interpreter: a
    listener may subscribe, unsubscribe or dispatch again while it runs, and
    a reducer may try to.

    Boundaries of the model.
    - One store per machine; user code reaches it through [op].
    - Objects have data properties only (no getters, no proxies).
    - The functions given to [compose], and the outer two layers of a
      middleware ([api => next => ...]), are pure; effects happen when an
      action is dispatched.
    - The observable interop ([store[$$observable]]) is not modelled.
    - [Math.random().toString(36)] is a parameter of [randomString].
    - The record fields [trace] and [dispatchCount] are instrumentation:
      no operation reads them. *)

From Stdlib Require Import ZArith String Ascii Bool Lia.
From stdpp Require Import base option list strings.

Set Warnings "-register-all".
Open Scope string_scope.
Open Scope list_scope.

(** ** JavaScript values *)

(** Function values: user functions, named by their identity, and the
    [unsubscribe] closures that [subscribe] returns. *)
Inductive func : Type :=
| FUser (f : nat)
| FUnsub (h : nat).

Global Instance func_eq_dec : EqDecision func.
Proof. solve_decision. Defined.

(** Objects carry an identity ([===] on objects compares references), their
    prototype ([None] is [null]) and their own data properties. *)
Inductive value : Type :=
| VUndefined
| VNull
| VBool (b : bool)
| VNum (z : Z)
| VStr (s : string)
| VFun (f : func)
| VObj (o : object)
with object : Type :=
| Obj (ident : nat) (proto : option object) (props : list (string * value)).

Inductive typeTag : Type :=
| TyUndefined | TyObject | TyBoolean | TyNumber | TyString | TyFunction.

Global Instance typeTag_eq_dec : EqDecision typeTag.
Proof. solve_decision. Defined.

Definition typeof (v : value) : typeTag :=
  match v with
  | VUndefined => TyUndefined
  | VNull => TyObject
  | VBool _ => TyBoolean
  | VNum _ => TyNumber
  | VStr _ => TyString
  | VFun _ => TyFunction
  | VObj _ => TyObject
  end.

Definition ident (o : object) : nat := match o with Obj i _ _ => i end.

(** [Object.getPrototypeOf] *)
Definition getPrototypeOf (o : object) : option object :=
  match o with Obj _ p _ => p end.

Definition ownProps (o : object) : list (string * value) :=
  match o with Obj _ _ ps => ps end.

Fixpoint assoc (k : string) (ps : list (string * value)) : option value :=
  match ps with
  | [] => None
  | (k', v) :: rest => if String.eqb k k' then Some v else assoc k rest
  end.

(** Property read [o.k]: own properties first, then along the prototype
    chain; a missing property reads as [undefined]. *)
Fixpoint getProp (o : object) (k : string) : value :=
  match o with
  | Obj _ p ps =>
      match assoc k ps with
      | Some v => v
      | None => match p with
                | Some parent => getProp parent k
                | None => VUndefined
                end
      end
  end.

(** ** isPlainObject *)

(** The [while] loop: walk up until the object whose prototype is [null]. *)
Fixpoint protoTop (o : object) : object :=
  match o with
  | Obj _ None _ => o
  | Obj _ (Some p) _ => protoTop p
  end.

Definition isPlainObject (obj : value) : bool :=
  match obj with
  | VObj o =>
      let proto := protoTop o in
      match getPrototypeOf o with
      | Some p => Nat.eqb (ident p) (ident proto)
      | None => false
      end
  | _ => false
  end.

(** The prototype chain of an object: its prototype, the prototype of that,
    and so on up to [null]. *)
Fixpoint protoChain (o : object) : list object :=
  match o with
  | Obj _ None _ => []
  | Obj _ (Some p) _ => p :: protoChain p
  end.

(** [Object.prototype]: top of every ordinary chain. *)
Definition ObjectPrototype : object := Obj 0 None [].

(** An object literal [{ k1: v1, ... }]. *)
Definition literal (i : nat) (ps : list (string * value)) : value :=
  VObj (Obj i (Some ObjectPrototype) ps).

(** ** Reserved action types *)

Fixpoint join_dot (cs : list ascii) : string :=
  match cs with
  | [] => EmptyString
  | [c] => String c EmptyString
  | c :: rest => String c (String.append "." (join_dot rest))
  end.

(** [randomString], given the base-36 rendering [r36] of [Math.random()]:
    [.substring(7).split('').join('.')]. *)
Definition randomString (r36 : string) : string :=
  join_dot (list_ascii_of_string (String.substring 7 (String.length r36 - 7) r36)).

Record ActionTypesT : Type := {
  INIT : string;
  REPLACE : string
}.

Definition ActionTypes (r1 r2 : string) : ActionTypesT :=
  {| INIT := String.append "@@redux/INIT" (randomString r1);
     REPLACE := String.append "@@redux/REPLACE" (randomString r2) |}.

(** ** compose *)

Section Compose.
Context {V : Type} (undef : V).

(** A JavaScript function takes its argument list. *)
Definition jsfun : Type := list V -> V.

(** A one-parameter function reads its first argument ([undefined] when
    called with none). *)
Definition unary (f : V -> V) : jsfun := fun args => f (hd undef args).

Definition compose (funcs : list jsfun) : jsfun :=
  match funcs with
  | [] => unary (fun arg => arg)
  | [f] => f
  | f :: rest => fold_left (fun a b => fun args => a [b args]) rest f
  end.

(** [f1(f2(...fn(...args)))] written out. *)
Fixpoint nested (funcs : list jsfun) (args : list V) : V :=
  match funcs with
  | [] => hd undef args
  | [f] => f args
  | f :: rest => f [nested rest args]
  end.
End Compose.

(** ** Errors, completions, programs *)

Inductive error : Type :=
| SeveralEnhancers            (* "It looks like you are passing several store enhancers ..." *)
| EnhancerNotFunction         (* "Expected the enhancer to be a function." *)
| ReducerNotFunction          (* "Expected the reducer to be a function." *)
| GetStateWhileDispatching    (* "You may not call store.getState() while the reducer is executing. ..." *)
| ListenerNotFunction         (* "Expected the listener to be a function." *)
| SubscribeWhileDispatching   (* "You may not call store.subscribe() while the reducer is executing. ..." *)
| UnsubscribeWhileDispatching (* "You may not unsubscribe from a store listener while the reducer is executing. ..." *)
| ActionNotPlainObject        (* "Actions must be plain objects. ..." *)
| ActionTypeUndefined         (* "Actions may not have an undefined type property. ..." *)
| ReducersMayNotDispatch      (* "Reducers may not dispatch actions." *)
| NextReducerNotFunction      (* "Expected the nextReducer to be a function." *)
| DispatchWhileConstructing   (* "Dispatching while constructing your middleware is not allowed. ..." *)
| NotCallable                 (* TypeError: the callee is not a function *)
| UserError (v : value).      (* [throw v] in user code *)

(** How a call ends: [return v] or [throw e]. *)
Inductive completion : Type :=
| Normal (v : value)
| Thrown (e : error).

(** What user code can do to the store, and to the outside world. *)
Inductive op : Type :=
| OGetState                                  (* store.getState() *)
| OSubscribe (listener : value)              (* store.subscribe(listener) *)
| ODispatch (action : value)                 (* the store's own dispatch(action) *)
| OReplaceReducer (nextReducer : value)      (* store.replaceReducer(nextReducer) *)
| OCall (f : value) (args : list value)      (* f(...args), e.g. an unsubscribe function *)
| OApiDispatch (action : value)              (* middlewareAPI.dispatch(action) *)
| OLog (v : value).                          (* an effect visible outside the store *)

(** The body of a user function. Every call hands its completion to the
    continuation, which may rethrow ([rethrow]) or recover ([try]/[catch]). *)
Inductive prog : Type :=
| Ret (v : value)
| Throw (e : error)
| Call (o : op) (k : completion -> prog).

Definition rethrow (c : completion) : prog :=
  match c with
  | Normal v => Ret v
  | Thrown e => Throw e
  end.

(** Sequencing without [catch]: an error in [p] skips [k]. *)
Fixpoint bind (p : prog) (k : value -> prog) : prog :=
  match p with
  | Ret v => k v
  | Throw e => Throw e
  | Call o k' => Call o (fun c => bind (k' c) k)
  end.

(** ** The store *)

(** Instrumentation: what happened, in order. [d] numbers the dispatch that
    called the reducer or ran the notification pass. *)
Inductive event : Type :=
| EvReducer (d : nat) (state action : value)
| EvListener (d : nat) (listener : func) (args : list value)
| EvLog (v : value).

(** The variables closed over by the store's operations, the array heap, the
    [isSubscribed]/[listener] pair of every [subscribe] call, and the
    [dispatch] variable of [applyMiddleware] ([None] while it still holds the
    placeholder that throws). *)
Record machine : Type := Machine {
  currentReducer : func;
  currentState : value;
  currentListeners : nat;
  nextListeners : nat;
  isDispatching : bool;
  arrays : list (list func);
  subscriptions : list (bool * func);
  enhancedDispatch : option (value -> prog);
  trace : list event;
  dispatchCount : nat
}.

Definition set_currentReducer (r : func) (m : machine) : machine :=
  Machine r (currentState m) (currentListeners m) (nextListeners m)
    (isDispatching m) (arrays m) (subscriptions m) (enhancedDispatch m)
    (trace m) (dispatchCount m).

Definition set_currentState (s : value) (m : machine) : machine :=
  Machine (currentReducer m) s (currentListeners m) (nextListeners m)
    (isDispatching m) (arrays m) (subscriptions m) (enhancedDispatch m)
    (trace m) (dispatchCount m).

Definition set_currentListeners (a : nat) (m : machine) : machine :=
  Machine (currentReducer m) (currentState m) a (nextListeners m)
    (isDispatching m) (arrays m) (subscriptions m) (enhancedDispatch m)
    (trace m) (dispatchCount m).

Definition set_nextListeners (a : nat) (m : machine) : machine :=
  Machine (currentReducer m) (currentState m) (currentListeners m) a
    (isDispatching m) (arrays m) (subscriptions m) (enhancedDispatch m)
    (trace m) (dispatchCount m).

Definition set_isDispatching (b : bool) (m : machine) : machine :=
  Machine (currentReducer m) (currentState m) (currentListeners m)
    (nextListeners m) b (arrays m) (subscriptions m) (enhancedDispatch m)
    (trace m) (dispatchCount m).

Definition set_arrays (h : list (list func)) (m : machine) : machine :=
  Machine (currentReducer m) (currentState m) (currentListeners m)
    (nextListeners m) (isDispatching m) h (subscriptions m)
    (enhancedDispatch m) (trace m) (dispatchCount m).

Definition set_subscriptions (s : list (bool * func)) (m : machine) : machine :=
  Machine (currentReducer m) (currentState m) (currentListeners m)
    (nextListeners m) (isDispatching m) (arrays m) s (enhancedDispatch m)
    (trace m) (dispatchCount m).

Definition set_enhancedDispatch (d : option (value -> prog)) (m : machine) : machine :=
  Machine (currentReducer m) (currentState m) (currentListeners m)
    (nextListeners m) (isDispatching m) (arrays m) (subscriptions m) d
    (trace m) (dispatchCount m).

Definition record (ev : event) (m : machine) : machine :=
  Machine (currentReducer m) (currentState m) (currentListeners m)
    (nextListeners m) (isDispatching m) (arrays m) (subscriptions m)
    (enhancedDispatch m) (trace m ++ [ev]) (dispatchCount m).

Definition count_dispatch (m : machine) : machine :=
  Machine (currentReducer m) (currentState m) (currentListeners m)
    (nextListeners m) (isDispatching m) (arrays m) (subscriptions m)
    (enhancedDispatch m) (trace m) (S (dispatchCount m)).

(** The array behind a reference. *)
Definition deref (m : machine) (a : nat) : list func :=
  default [] (arrays m !! a).

(** [Array.prototype.indexOf]: first index holding [x], or [-1]. *)
Fixpoint indexOf (x : func) (l : list func) : Z :=
  match l with
  | [] => (-1)%Z
  | y :: rest =>
      if decide (y = x) then 0%Z
      else match indexOf x rest with
           | Zneg _ => (-1)%Z
           | i => Z.succ i
           end
  end.

(** [Array.prototype.splice(start, 1)]: a negative [start] counts from the
    end, and at most one element is removed. *)
Definition splice1 (start : Z) (l : list func) : list func :=
  let len := Z.of_nat (length l) in
  let from := if (start <? 0)%Z then Z.max (len + start) 0 else Z.min start len in
  delete (Z.to_nat from) l.

(** ** The operations of createStore *)

Section Engine.
(** The body of each user function, applied to its argument list. *)
Variable code : nat -> list value -> prog.
(** [ActionTypes], as drawn when the module was loaded. *)
Variable actionTypes : ActionTypesT.

Section Operations.
(** Running a callee's body (one level deeper on the call stack), and the
    number of loop iterations still allowed. *)
Variable call : prog -> machine -> option (completion * machine).
Variable bound : nat.

Definition ensureCanMutateNextListeners (m : machine) : machine :=
  if Nat.eqb (nextListeners m) (currentListeners m)
  then (* nextListeners = currentListeners.slice() *)
    set_nextListeners (length (arrays m))
      (set_arrays (arrays m ++ [deref m (currentListeners m)]) m)
  else m.

Definition getState (m : machine) : completion * machine :=
  if isDispatching m then (Thrown GetStateWhileDispatching, m)
  else (Normal (currentState m), m).

(** [nextListeners.push(listener)] *)
Definition push (listener : func) (m : machine) : machine :=
  set_arrays (alter (fun l => l ++ [listener]) (nextListeners m) (arrays m)) m.

(** [subscribe] returns the closure [FUnsub h], whose variables
    [isSubscribed] and [listener] are entry [h] of [subscriptions]. *)
Definition subscribe (listener : value) (m : machine) : completion * machine :=
  match listener with
  | VFun f =>
      if isDispatching m then (Thrown SubscribeWhileDispatching, m)
      else
        let h := length (subscriptions m) in
        let m1 := set_subscriptions (subscriptions m ++ [(true, f)]) m in
        let m2 := ensureCanMutateNextListeners m1 in
        let m3 := push f m2 in
        (Normal (VFun (FUnsub h)), m3)
  | _ => (Thrown ListenerNotFunction, m)
  end.

Definition unsubscribe (h : nat) (m : machine) : completion * machine :=
  match subscriptions m !! h with
  | None => (Thrown NotCallable, m)    (* no such closure *)
  | Some (isSubscribed, listener) =>
      if negb isSubscribed then (Normal VUndefined, m)
      else if isDispatching m then (Thrown UnsubscribeWhileDispatching, m)
      else
        let m1 := set_subscriptions (<[h := (false, listener)]> (subscriptions m)) m in
        let m2 := ensureCanMutateNextListeners m1 in
        let index := indexOf listener (deref m2 (nextListeners m2)) in
        let m3 := set_arrays (alter (splice1 index) (nextListeners m2) (arrays m2)) m2 in
        (Normal VUndefined, m3)
  end.

(** Calling a function value. *)
Definition callFn (f : func) (args : list value) (m : machine)
  : option (completion * machine) :=
  match f with
  | FUser i => call (code i args) m
  | FUnsub h => Some (unsubscribe h m)
  end.

Definition callValue (f : value) (args : list value) (m : machine)
  : option (completion * machine) :=
  match f with
  | VFun g => callFn g args m
  | _ => Some (Thrown NotCallable, m)
  end.

(** The loop [for (let i = 0; i < listeners.length; i++) listeners[i]()],
    from index [i]; [listeners] is a reference, read afresh at every
    iteration. *)
Fixpoint notify (fuel : nat) (d : nat) (listeners : nat) (i : nat) (m : machine)
  : option (completion * machine) :=
  match deref m listeners !! i with
  | None => Some (Normal VUndefined, m)     (* i >= listeners.length *)
  | Some listener =>
      match fuel with
      | 0 => None
      | S fuel' =>
          match callFn listener [] (record (EvListener d listener []) m) with
          | Some (Normal _, m') => notify fuel' d listeners (S i) m'
          | other => other
          end
      end
  end.

Definition actionType (action : value) : value :=
  match action with
  | VObj o => getProp o "type"
  | _ => VUndefined
  end.

Definition dispatch (action : value) (m : machine) : option (completion * machine) :=
  if negb (isPlainObject action) then Some (Thrown ActionNotPlainObject, m)
  else if decide (typeof (actionType action) = TyUndefined)
  then Some (Thrown ActionTypeUndefined, m)
  else if isDispatching m then Some (Thrown ReducersMayNotDispatch, m)
  else
    let d := dispatchCount m in
    let m0 := set_isDispatching true m in
    match callFn (currentReducer m0) [currentState m0; action]
            (record (EvReducer d (currentState m0) action) (count_dispatch m0)) with
    | None => None
    | Some (Thrown e, m1) =>
        (* finally: isDispatching = false; the error goes on *)
        Some (Thrown e, set_isDispatching false m1)
    | Some (Normal s, m1) =>
        let m2 := set_isDispatching false (set_currentState s m1) in
        (* const listeners = (currentListeners = nextListeners) *)
        let m3 := set_currentListeners (nextListeners m2) m2 in
        let listeners := currentListeners m3 in
        match notify bound d listeners 0 m3 with
        | Some (Normal _, m4) => Some (Normal action, m4)
        | other => other
        end
    end.

Definition replaceReducer (nextReducer : value) (m : machine)
  : option (completion * machine) :=
  match nextReducer with
  | VFun f =>
      let m1 := set_currentReducer f m in
      match dispatch (literal 2 [("type", VStr (REPLACE actionTypes))]) m1 with
      | Some (Normal _, m2) => Some (Normal VUndefined, m2)
      | other => other
      end
  | _ => Some (Thrown NextReducerNotFunction, m)
  end.

Definition perform (o : op) (m : machine) : option (completion * machine) :=
  match o with
  | OGetState => Some (getState m)
  | OSubscribe listener => Some (subscribe listener m)
  | ODispatch action => dispatch action m
  | OReplaceReducer nextReducer => replaceReducer nextReducer m
  | OCall f args => callValue f args m
  | OApiDispatch action =>
      match enhancedDispatch m with
      | Some dispatch' => call (dispatch' action) m
      | None => Some (Thrown DispatchWhileConstructing, m)
      end
  | OLog v => Some (Normal VUndefined, record (EvLog v) m)
  end.

Fixpoint run (p : prog) (m : machine) : option (completion * machine) :=
  match p with
  | Ret v => Some (Normal v, m)
  | Throw e => Some (Thrown e, m)
  | Call o k =>
      match perform o m with
      | Some (c, m') => run (k c) m'
      | None => None
      end
  end.
End Operations.

(** [exec n p m]: run [p] from [m] with call depth and loop length bounded
    by [n]; [None] when the bound is hit. *)
Fixpoint exec (n : nat) (p : prog) (m : machine) : option (completion * machine) :=
  match n with
  | 0 => None
  | S n' => run (exec n') n' p m
  end.
End Engine.

(** ** createStore and applyMiddleware *)

(** The object [createStore] returns: each method is the program that
    performs the operation on the store. *)
Record StoreAPI : Type := {
  api_dispatch : value -> prog;
  api_subscribe : value -> prog;
  api_getState : prog;
  api_replaceReducer : value -> prog
}.

Definition rawStore : StoreAPI :=
  {| api_dispatch := fun action => Call (ODispatch action) rethrow;
     api_subscribe := fun listener => Call (OSubscribe listener) rethrow;
     api_getState := Call OGetState rethrow;
     api_replaceReducer := fun r => Call (OReplaceReducer r) rethrow |}.

Inductive creation : Type :=
| Created (store : StoreAPI) (m : machine)
| Failed (e : error).

(** [createStore] as an enhancer sees it, called with [(reducer,
    preloadedState)]; an enhancer maps one such constructor to another. *)
Definition createStoreFn : Type := value -> value -> option creation.
Definition enhancerFn : Type := createStoreFn -> createStoreFn.

Definition isFunction (v : value) : bool := bool_decide (typeof v = TyFunction).
Definition isUndefined (v : value) : bool := bool_decide (typeof v = TyUndefined).

Section Construction.
Variable code : nat -> list value -> prog.
Variable actionTypes : ActionTypesT.
(** What a function value does when it is called as a store enhancer. *)
Variable enhancers : func -> enhancerFn.

Definition initial (reducer : func) (preloadedState : value) : machine :=
  {| currentReducer := reducer;
     currentState := preloadedState;
     currentListeners := 0;
     nextListeners := 0;
     isDispatching := false;
     arrays := [[]];
     subscriptions := [];
     enhancedDispatch := None;
     trace := [];
     dispatchCount := 0 |}.

Fixpoint createStore (fuel : nat) (reducer preloadedState enhancer arg3 : value)
  : option creation :=
  match fuel with
  | 0 => None
  | S n =>
      if (isFunction preloadedState && isFunction enhancer)
         || (isFunction enhancer && isFunction arg3)
      then Some (Failed SeveralEnhancers)
      else
        let '(enhancer, preloadedState) :=
          if isFunction preloadedState && isUndefined enhancer
          then (preloadedState, VUndefined)
          else (enhancer, preloadedState) in
        if negb (isUndefined enhancer) then
          match enhancer with
          | VFun e =>
              enhancers e
                (fun r p => createStore n r p VUndefined VUndefined)
                reducer preloadedState
          | _ => Some (Failed EnhancerNotFunction)
          end
        else
          match reducer with
          | VFun r =>
              match dispatch code (exec code actionTypes n) n
                      (literal 1 [("type", VStr (INIT actionTypes))])
                      (initial r preloadedState) with
              | Some (Normal _, m) => Some (Created rawStore m)
              | Some (Thrown e, _) => Some (Failed e)
              | None => None
              end
          | _ => Some (Failed ReducerNotFunction)
          end
  end.
End Construction.

(** A dispatch function, and the three layers of a middleware:
    [api => next => action => ...]. *)
Definition dispatchFn : Type := value -> prog.

Record middlewareAPI : Type := {
  mw_getState : prog;
  mw_dispatch : dispatchFn
}.

Definition middlewareFn : Type := middlewareAPI -> dispatchFn -> dispatchFn.

(** Calling [undefined] as a dispatch function. *)
Definition undefinedDispatch : dispatchFn := fun _ => Throw NotCallable.

Definition applyMiddleware (middlewares : list middlewareFn) : enhancerFn :=
  fun createStore reducer preloadedState =>
    match createStore reducer preloadedState with
    | Some (Created store m) =>
        let middlewareAPI :=
          {| mw_getState := api_getState store;
             mw_dispatch := fun action => Call (OApiDispatch action) rethrow |} in
        let chain :=
          map (fun middleware => unary undefinedDispatch (middleware middlewareAPI))
            middlewares in
        let dispatch := compose undefinedDispatch chain [api_dispatch store] in
        Some (Created
                {| api_dispatch := dispatch;
                   api_subscribe := api_subscribe store;
                   api_getState := api_getState store;
                   api_replaceReducer := api_replaceReducer store |}
                (set_enhancedDispatch (Some dispatch) m))
    | other => other
    end.

(** ** Vocabulary of the specification *)

(** The list behind [nextListeners]. *)
Definition nextList (m : machine) : list func := deref m (nextListeners m).

(** The listeners of the subscriptions that are still subscribed, and of
    all subscriptions ever made, in registration order. *)
Definition active (m : machine) : list func :=
  (filter (fun s : bool * func => s.1 = true) (subscriptions m)).*2.

Definition registered (m : machine) : list func := (subscriptions m).*2.

(** The store is well formed: [nextListeners] is a live reference, the list
    behind it holds one entry per live subscription (in some order), and it
    is a subsequence of the list of all registrations. *)
Definition WF (m : machine) : Prop :=
  nextListeners m < length (arrays m) /\
  nextList m ≡ₚ active m /\
  nextList m `sublist_of` registered m.

(** Array [a] cannot be written by the next [push] or [splice]: the
    copy-on-write check will move [nextListeners] away from it first. *)
Definition frozen (a : nat) (m : machine) : Prop :=
  a < length (arrays m) /\
  (a <> nextListeners m \/ nextListeners m = currentListeners m).

(** A notification pass over a fixed list of listeners (the snapshot),
    as opposed to [notify], which reads the array at every step. *)
Fixpoint notifyAll (code : nat -> list value -> prog)
    (call : prog -> machine -> option (completion * machine))
    (d : nat) (snapshot : list func) (m : machine)
  : option (completion * machine) :=
  match snapshot with
  | [] => Some (Normal VUndefined, m)
  | listener :: rest =>
      match callFn code call listener [] (record (EvListener d listener []) m) with
      | Some (Normal _, m') => notifyAll code call d rest m'
      | other => other
      end
  end.

(** The machine in which [dispatch] calls the reducer. *)
Definition entering (action : value) (m : machine) : machine :=
  record (EvReducer (dispatchCount m) (currentState m) action)
    (count_dispatch (set_isDispatching true m)).

(** The machine at the snapshot point, after the reducer returned [s] in [m1]. *)
Definition committed (s : value) (m1 : machine) : machine :=
  let m2 := set_isDispatching false (set_currentState s m1) in
  set_currentListeners (nextListeners m2) m2.

(** Reading the trace: the listener calls of pass [d], and the reducer calls. *)
Definition notifiedIn (d : nat) (evs : list event) : list (func * list value) :=
  omap (fun ev => match ev with
                  | EvListener d' f args => if decide (d' = d) then Some (f, args) else None
                  | _ => None
                  end) evs.

Definition listenerCalls (evs : list event) : list (func * list value) :=
  omap (fun ev => match ev with
                  | EvListener _ f args => Some (f, args)
                  | _ => None
                  end) evs.

Definition reducerCalls (evs : list event) : list (value * value) :=
  omap (fun ev => match ev with
                  | EvReducer _ s a => Some (s, a)
                  | _ => None
                  end) evs.

Definition isLog (ev : event) : Prop :=
  match ev with EvLog _ => True | _ => False end.

(** Event [ev] belongs to dispatch number [c] or a later one. *)
Definition since (c : nat) (ev : event) : Prop :=
  match ev with
  | EvReducer d _ _ | EvListener d _ _ => c <= d
  | EvLog _ => True
  end.

(** An action that passes the two shape checks of [dispatch]. *)
Definition validAction (action : value) : Prop :=
  isPlainObject action = true /\ typeof (actionType action) <> TyUndefined.

(** A middleware that marks its way in and its way out:
    [api => next => action => { log(pre); const r = next(action); log(post); return r }]. *)
Definition tagger (tags : value * value) : middlewareFn :=
  fun _ next action =>
    Call (OLog tags.1) (fun _ =>
      bind (next action) (fun r =>
        Call (OLog tags.2) (fun _ => Ret r))).

(** A middleware with code on the way in and on the way out:
    [api => next => action =>
       { wayIn(api, action); const r = next(action); return wayOut(api, action, r) }]. *)
Record layer : Type := {
  wayIn : middlewareAPI -> value -> prog;
  wayOut : middlewareAPI -> value -> value -> prog
}.

Definition layered (l : layer) : middlewareFn :=
  fun api next action =>
    bind (wayIn l api action) (fun _ =>
      bind (next action) (fun r => wayOut l api action r)).

(** The way-in code of all layers, in list order. *)
Fixpoint allIn (api : middlewareAPI) (ls : list layer) (action : value) : prog :=
  match ls with
  | [] => Ret VUndefined
  | l :: rest => bind (wayIn l api action) (fun _ => allIn api rest action)
  end.

(** The way-out code of all layers, in reverse list order, each receiving
    what the layer inside it returned. *)
Fixpoint allOut (api : middlewareAPI) (ls : list layer) (action r : value) : prog :=
  match ls with
  | [] => Ret r
  | l :: rest => bind (allOut api rest action r) (fun r' => wayOut l api action r')
  end.

Definition records (evs : list event) (m : machine) : machine :=
  fold_left (fun m ev => record ev m) evs m.

(** Object identities along a chain are pairwise distinct. *)
Definition distinctChain (o : object) : Prop :=
  NoDup (ident <$> (o :: protoChain o)).

(** What [subscribe] and [unsubscribe] do to the listener list: the
    copy-on-write check, then an update in place of the array behind
    [nextListeners]. *)
Definition mutateNext (g : list func -> list func) (m : machine) : machine :=
  let m2 := ensureCanMutateNextListeners m in
  set_arrays (alter g (nextListeners m2) (arrays m2)) m2.

(** What user code can change while the reducer is running: nothing but
    the reducer variable (through [replaceReducer]) and the outside world. *)
Definition quietly (m m' : machine) : Prop :=
  isDispatching m' = isDispatching m /\ currentState m' = currentState m /\
  currentListeners m' = currentListeners m /\ nextListeners m' = nextListeners m /\
  arrays m' = arrays m /\ subscriptions m' = subscriptions m /\
  enhancedDispatch m' = enhancedDispatch m /\ dispatchCount m' = dispatchCount m /\
  exists evs, trace m' = trace m ++ evs /\ Forall isLog evs.

(** The trace only grows, by events of the dispatches that start from now on. *)
Definition extends (m m' : machine) : Prop :=
  dispatchCount m <= dispatchCount m' /\
  exists evs, trace m' = trace m ++ evs /\ Forall (since (dispatchCount m)) evs.

(** Execution from [m] to [m'] keeps a frozen array frozen and unwritten. *)
Definition keeps (a : nat) (m m' : machine) : Prop :=
  frozen a m -> frozen a m' /\ arrays m' !! a = arrays m !! a.

Definition whileDispatching (m m' : machine) : Prop :=
  isDispatching m = true -> quietly m m'.

Definition extendsFrom (c0 : nat) (m m' : machine) : Prop :=
  c0 <= dispatchCount m ->
  c0 <= dispatchCount m' /\ dispatchCount m <= dispatchCount m' /\
  exists evs, trace m' = trace m ++ evs /\ Forall (since c0) evs.


(** Subscriptions that have been removed in [m] are still removed in [m']. *)
Definition staysRemoved (m m' : machine) : Prop :=
  forall h l, subscriptions m !! h = Some (false, l) ->
              subscriptions m' !! h = Some (false, l).

(** The action [{ type: ActionTypes.INIT }] that [createStore] dispatches. *)
Definition initAction (actionTypes : ActionTypesT) : value :=
  literal 1 [("type", VStr (INIT actionTypes))].

(** The middleware API object that [applyMiddleware] builds for [store]. *)
Definition apiOf (store : StoreAPI) : middlewareAPI :=
  {| mw_getState := api_getState store;
     mw_dispatch := fun action => Call (OApiDispatch action) rethrow |}.

(** The onion: the first middleware outermost, the store's dispatch innermost. *)
Definition onion (api : middlewareAPI) (middlewares : list middlewareFn)
    (inner : dispatchFn) : dispatchFn :=
  fold_right (fun middleware next => middleware api next) inner middlewares.

(** ** A small application, for concrete runs *)

Module Demo.
Definition types : ActionTypesT := ActionTypes "0.4fzyo82mvyr" "0.1q8xk3jt9fh".

Definition INC : value := literal 10 [("type", VStr "INC")].

(** [(state = 0, action) => action.type === 'INC' ? state + 1 : state] *)
Definition counter (args : list value) : prog :=
  match args with
  | [state; action] =>
      let state := match state with VUndefined => VNum 0 | _ => state end in
      match actionType action, state with
      | VStr "INC", VNum z => Ret (VNum (z + 1))
      | _, _ => Ret state
      end
  | _ => Ret VUndefined
  end.

(** Function 0 is the counter reducer; 1 is a listener that logs and
    subscribes listener 2; 2 is a listener that logs; 3 is a reducer that
    calls the unsubscribe function of subscription 0 and returns 7 if that
    call returns; 4 is a reducer that throws. *)
Definition code (f : nat) (args : list value) : prog :=
  match f with
  | 0 => counter args
  | 1 => Call (OLog (VStr "L1")) (fun _ =>
         Call (OSubscribe (VFun (FUser 2))) (fun _ => Ret VUndefined))
  | 2 => Call (OLog (VStr "L2")) (fun _ => Ret VUndefined)
  | 3 => Call (OCall (VFun (FUnsub 0)) []) (fun c =>
         match c with
         | Normal _ => Ret (VNum 7)
         | Thrown e => Throw e
         end)
  | 4 => Throw (UserError (VStr "boom"))
  | _ => Ret VUndefined
  end.

(** No function of this application is a store enhancer. *)
Definition enhancers : func -> enhancerFn := fun _ createStore => createStore.

Definition run (p : prog) (m : machine) : option (completion * machine) :=
  exec code types 8 p m.

Definition after (p : prog) (m : machine) : machine :=
  match run p m with
  | Some (_, m') => m'
  | None => m
  end.

(** [createStore(counter)] *)
Definition created : machine :=
  Eval vm_compute in
    match createStore code types enhancers 8 (VFun (FUser 0)) VUndefined VUndefined VUndefined with
    | Some (Created _ m) => m
    | _ => initial (FUser 0) VUndefined
    end.

(** ... then [store.subscribe(L1)] *)
Definition withL1 : machine :=
  Eval vm_compute in after (Call (OSubscribe (VFun (FUser 1))) rethrow) created.

(** [createStore(counter)]; [u = store.subscribe(L2)]; [u()] *)
Definition unsubscribed : machine :=
  Eval vm_compute in
    after (Call (OSubscribe (VFun (FUser 2))) (fun c =>
           match c with
           | Normal u => Call (OCall u []) rethrow
           | Thrown e => Throw e
           end)) created.

(** ... [u = store.subscribe(L2)] only *)
Definition withL2 : machine :=
  Eval vm_compute in after (Call (OSubscribe (VFun (FUser 2))) rethrow) created.

(** [withL1], then [store.dispatch(INC)] *)
Definition afterL1 : machine :=
  Eval vm_compute in after (Call (ODispatch INC) rethrow) withL1.

Definition replaceAction : value := literal 2 [("type", VStr (REPLACE types))].

(** The machine in which [dispatch] calls reducer 3, after
    [store.replaceReducer(reducer3)] on [unsubscribed]. *)
Definition reducing : machine :=
  Eval vm_compute in entering replaceAction (set_currentReducer (FUser 3) unsubscribed).

Definition tags : list (value * value) :=
  [(VStr "m1 in", VStr "m1 out"); (VStr "m2 in", VStr "m2 out")].
End Demo.


(** ** Further vocabulary *)

(** [ActionTypes.PROBE_UNKNOWN_ACTION()], given the base-36 rendering of its
    own draw of [Math.random()]. *)
Definition PROBE_UNKNOWN_ACTION (r36 : string) : string :=
  String.append "@@redux/PROBE_UNKNOWN_ACTION" (randomString r36).

(** Every second character of a string, starting with the first: what
    [join('.')] put between the characters is dropped. *)
Fixpoint undot (s : string) : string :=
  match s with
  | EmptyString => EmptyString
  | String c EmptyString => String c EmptyString
  | String c (String _ rest) => String c (undot rest)
  end.

(** The action [{ type: ActionTypes.REPLACE }] that [replaceReducer] dispatches. *)
Definition replaceAction (actionTypes : ActionTypesT) : value :=
  literal 2 [("type", VStr (REPLACE actionTypes))].


(** ** More concrete stores *)

Module Scenes.
(** [createStore(counter)], then [subscribe(L2)], [subscribe(thrower)],
    [subscribe(L2)]: function 4 of [Demo.code] throws whenever it is called. *)
Definition withThrower : machine :=
  Eval vm_compute in
    Demo.after
      (Call (OSubscribe (VFun (FUser 2))) (fun _ =>
       Call (OSubscribe (VFun (FUser 4))) (fun _ =>
       Call (OSubscribe (VFun (FUser 2))) rethrow))) Demo.created.

(** The machine in which the thrower is called by [dispatch(INC)] on
    [withThrower], and the one it leaves. *)
Definition beforeThrow : machine :=
  Eval vm_compute in
    match notifyAll Demo.code (exec Demo.code Demo.types 4) 1 [FUser 2]
            (committed (VNum 1) (entering Demo.INC withThrower)) with
    | Some (_, m) => m
    | None => withThrower
    end.

Definition afterThrow : machine :=
  Eval vm_compute in record (EvListener 1 (FUser 4) []) beforeThrow.

(** [createStore(counter)], [subscribe(L2)], [dispatch(INC)]: the dispatch
    has made [currentListeners] the array of [nextListeners]. *)
Definition afterL2 : machine :=
  Eval vm_compute in Demo.after (Call (ODispatch Demo.INC) rethrow) Demo.withL2.
End Scenes.

(** ** Code that only looks on *)

(** Operations by which user code cannot change the state or the reducer:
    reading the state, subscribing, calling an unsubscribe function, and
    effects outside the store. *)
Inductive passiveOp : op -> Prop :=
| passive_getState : passiveOp OGetState
| passive_subscribe listener : passiveOp (OSubscribe listener)
| passive_unsubscribe h args : passiveOp (OCall (VFun (FUnsub h)) args)
| passive_log v : passiveOp (OLog v).

(** A function body that performs such operations only. *)
Inductive passive : prog -> Prop :=
| passive_Ret v : passive (Ret v)
| passive_Throw e : passive (Throw e)
| passive_Call o k : passiveOp o -> (forall c, passive (k c)) -> passive (Call o k).

(** [for (const a of actions) store.dispatch(a); return store.getState()] *)
Fixpoint dispatchAll (actions : list value) : prog :=
  match actions with
  | [] => Call OGetState rethrow
  | a :: rest =>
      Call (ODispatch a) (fun c =>
        match c with
        | Normal _ => dispatchAll rest
        | Thrown e => Throw e
        end)
  end.

Module Tally.
(** [(state, action) => (typeof state === 'number' ? state : 0) + 1]: a
    reducer that counts the actions it is given. *)
Definition step (state action : value) : value :=
  match state with
  | VNum z => VNum (z + 1)
  | _ => VNum 1
  end.

(** Function 0 is that reducer; function 1 is a listener that logs the
    state it reads; every other function does nothing. *)
Definition code (f : nat) (args : list value) : prog :=
  match f with
  | 0 => match args with
         | [state; action] => Ret (step state action)
         | _ => Ret VUndefined
         end
  | 1 => Call OGetState (fun c =>
           match c with
           | Normal s => Call (OLog s) (fun _ => Ret VUndefined)
           | Thrown e => Throw e
           end)
  | _ => Ret VUndefined
  end.

(** [createStore(tally, 0)], then [subscribe(listener 1)]. *)
Definition store : machine :=
  Eval vm_compute in
    match createStore code Demo.types Demo.enhancers 8 (VFun (FUser 0)) (VNum 0)
            VUndefined VUndefined with
    | Some (Created _ m) =>
        match exec code Demo.types 8 (Call (OSubscribe (VFun (FUser 1))) rethrow) m with
        | Some (_, m') => m'
        | None => m
        end
    | _ => initial (FUser 0) (VNum 0)
    end.

Definition A (k : Z) : value := literal 20 [("type", VStr "TICK"); ("n", VNum k)].
End Tally.

(** Execution from [m] to [m'] has left the state and the reducer alone. *)
Definition unmoved (m m' : machine) : Prop :=
  currentState m' = currentState m /\ currentReducer m' = currentReducer m.

(** ** The observable view of the store *)

(** JavaScript's truthiness, on the values of the model. *)
Definition toBoolean (v : value) : bool :=
  match v with
  | VUndefined | VNull => false
  | VBool b => b
  | VNum z => negb (Z.eqb z 0)
  | VStr s => negb (String.eqb s EmptyString)
  | VFun _ | VObj _ => true
  end.

(** [v === null] *)
Definition isNull (v : value) : bool :=
  match v with VNull => true | _ => false end.

(** [new TypeError('Expected the observer to be an object.')] *)
Definition ObserverNotObject : error :=
  UserError (VStr "Expected the observer to be an object.").

(** The body of the closure [observeState]:
    [if (observer.next) { observer.next(getState()) }]. The closure exists
    only for an observer that is an object. *)
Definition observeState (observer : value) : prog :=
  match observer with
  | VObj o =>
      let next := getProp o "next" in
      if toBoolean next then
        Call OGetState (fun c =>
          match c with
          | Normal state =>
              Call (OCall next [state]) (fun c' =>
                match c' with
                | Normal _ => Ret VUndefined
                | Thrown e => Throw e
                end)
          | Thrown e => Throw e
          end)
      else Ret VUndefined
  | _ => Ret VUndefined
  end.

(** [store[$$observable]().subscribe(observer)]. The closure [observeState]
    it creates is function [self] of the program (whose body must then be
    [observeState observer]); [result] is the identity of the object it
    returns. *)
Definition observableSubscribe (self result : nat) (observer : value) : prog :=
  if negb (bool_decide (typeof observer = TyObject)) || isNull observer
  then Throw ObserverNotObject
  else
    bind (observeState observer) (fun _ =>
      Call (OSubscribe (VFun (FUser self))) (fun c =>
        match c with
        | Normal unsubscribe =>
            Ret (VObj (Obj result (Some ObjectPrototype) [("unsubscribe", unsubscribe)]))
        | Thrown e => Throw e
        end)).

Module Watch.
(** [{ next: state => log(state) }], with [next] function 1 of the program. *)
Definition observer : value := literal 30 [("next", VFun (FUser 1))].

(** Function 0 is the counter reducer of [Demo]; function 1 logs its
    argument; function 2 is the [observeState] closure for [observer]. *)
Definition code (f : nat) (args : list value) : prog :=
  match f with
  | 0 => Demo.counter args
  | 1 => Call (OLog (hd VUndefined args)) (fun _ => Ret VUndefined)
  | 2 => observeState observer
  | _ => Ret VUndefined
  end.

(** [createStore(counter)] *)
Definition store : machine :=
  Eval vm_compute in
    match createStore code Demo.types Demo.enhancers 8 (VFun (FUser 0)) VUndefined
            VUndefined VUndefined with
    | Some (Created _ m) => m
    | _ => initial (FUser 0) VUndefined
    end.
End Watch.

(** ** A listener that dispatches, a listener subscribed twice, a stale
    unsubscribe function *)

Module Echo.
(** Function 0 is the counter reducer of [Demo]; function 1 is the listener
    [() => { if (store.getState() < 2) store.dispatch(INC) }]. *)
Definition code (f : nat) (args : list value) : prog :=
  match f with
  | 0 => Demo.counter args
  | 1 => Call OGetState (fun c =>
           match c with
           | Normal (VNum z) =>
               if (z <? 2)%Z then Call (ODispatch Demo.INC) (fun c' =>
                                    match c' with
                                    | Normal _ => Ret VUndefined
                                    | Thrown e => Throw e
                                    end)
               else Ret VUndefined
           | Normal _ => Ret VUndefined
           | Thrown e => Throw e
           end)
  | _ => Ret VUndefined
  end.

(** [createStore(counter)] *)
Definition created : machine :=
  Eval vm_compute in
    match createStore code Demo.types Demo.enhancers 8 (VFun (FUser 0)) VUndefined
            VUndefined VUndefined with
    | Some (Created _ m) => m
    | _ => initial (FUser 0) VUndefined
    end.

(** ... then [store.subscribe(listener1)] *)
Definition store : machine :=
  Eval vm_compute in
    match exec code Demo.types 8 (Call (OSubscribe (VFun (FUser 1))) rethrow) created with
    | Some (_, m) => m
    | None => created
    end.

(** ... then [store.dispatch(INC)] *)
Definition afterINC : machine :=
  Eval vm_compute in
    match exec code Demo.types 8 (Call (ODispatch Demo.INC) rethrow) store with
    | Some (_, m) => m
    | None => store
    end.
End Echo.

Module Twice.
(** [subscribe(L2)]; [subscribe(L7)]; [u = subscribe(L2)]; [u()], on the
    store of [Demo]: the second subscription to [L2] is removed, and with it
    the first entry [L2] of the array. Function 7 of [Demo.code] does
    nothing. *)
Definition edits : prog :=
  Call (OSubscribe (VFun (FUser 2))) (fun _ =>
  Call (OSubscribe (VFun (FUser 7))) (fun _ =>
  Call (OSubscribe (VFun (FUser 2))) (fun c =>
    match c with
    | Normal u => Call (OCall u []) rethrow
    | Thrown e => Throw e
    end))).

Definition store : machine := Eval vm_compute in Demo.after edits Demo.created.

(** ... then [store.dispatch(INC)] *)
Definition afterINC : machine :=
  Eval vm_compute in Demo.after (Call (ODispatch Demo.INC) rethrow) store.
End Twice.

Module Stale.
(** [u = subscribe(L2)]; [u()]; [replaceReducer(reducer3)], on the store of
    [Demo]: reducer 3 calls [u] whenever it runs. *)
Definition replaced : machine :=
  Eval vm_compute in
    Demo.after (Call (OReplaceReducer (VFun (FUser 3))) rethrow) Demo.unsubscribed.

(** The machine in which [dispatch(INC)] then calls reducer 3. *)
Definition reducing : machine := Eval vm_compute in entering Demo.INC replaced.
End Stale.
(** * Properties *)

(** ** compose *)

Section ComposeFacts.
Context {V : Type} (undef : V).

Lemma reduce_nested (rest : list (@jsfun V)) : forall (acc : jsfun) (args : list V),
  fold_left (fun a b => fun args => a [b args]) rest acc args =
  match rest with
  | [] => acc args
  | _ => acc [nested undef rest args]
  end.
Proof.
  induction rest as [|b rest IH]; intros acc args; [reflexivity|].
  cbn [fold_left]. rewrite IH. destruct rest; reflexivity.
Qed.

Lemma compose_nested (funcs : list (@jsfun V)) (args : list V) :
  compose undef funcs args = nested undef funcs args.
Proof.
  destruct funcs as [|f [|g rest]]; try reflexivity.
  unfold compose. rewrite reduce_nested. reflexivity.
Qed.

(** Composing one-parameter functions and applying the result to [x] is
    the right fold of application. *)
Lemma compose_unary (fs : list (V -> V)) (x : V) :
  compose undef (map (unary undef) fs) [x] = fold_right (fun f acc => f acc) x fs.
Proof.
  rewrite compose_nested.
  induction fs as [|f fs IH]; [reflexivity|].
  destruct fs as [|g fs]; [reflexivity|].
  change (map (unary undef) (f :: g :: fs))
    with (unary undef f :: map (unary undef) (g :: fs)).
  change (nested undef (unary undef f :: map (unary undef) (g :: fs)) [x])
    with (f (nested undef (map (unary undef) (g :: fs)) [x])).
  rewrite IH. reflexivity.
Qed.
End ComposeFacts.

(** C6. [compose()] is the identity on its argument; [compose(f)] is [f]
    itself; for two or more functions [compose(f1, ..., fn)(...args)] is
    [f1(f2(...fn(...args)))], and in particular
    [compose(f, g, h)(x, y) = f(g(h(x, y)))]. *)
Theorem compose_semantics {V : Type} (undef : V) :
  (forall (x : V) (more : list V), compose undef [] (x :: more) = x) /\
  (forall f : jsfun, compose undef [f] = f) /\
  (forall (f g : jsfun) (fs : list jsfun) (args : list V),
      compose undef (f :: g :: fs) args = f [nested undef (g :: fs) args]) /\
  (forall (f g h : jsfun) (x y : V),
      compose undef [f; g; h] [x; y] = f [g [h [x; y]]]).
Proof.
  repeat split; try reflexivity.
  intros f g fs args. rewrite compose_nested. reflexivity.
Qed.

(** ** Arrays: indexOf, splice, the copy-on-write check *)

Lemma indexOf_spec (x : func) (l : list func) :
  (indexOf x l = (-1)%Z /\ x ∉ l) \/
  (exists i : nat, indexOf x l = Z.of_nat i /\ l !! i = Some x /\
                   forall j, j < i -> l !! j <> Some x).
Proof.
  induction l as [|y l IH]; cbn [indexOf].
  - left. split; [reflexivity|]. apply not_elem_of_nil.
  - destruct (decide (y = x)) as [->|Hne].
    + right. exists 0. split; [reflexivity|]. split; [reflexivity|].
      intros j Hj; lia.
    + destruct IH as [[-> Hnot]|(i & -> & Hi & Hfirst)].
      * left. split; [reflexivity|]. rewrite not_elem_of_cons. split; congruence.
      * right. exists (S i). split; [|split].
        -- rewrite Nat2Z.inj_succ. destruct (Z.of_nat i) eqn:E; try reflexivity. lia.
        -- exact Hi.
        -- intros [|j] Hj; cbn; [congruence|]. apply Hfirst. lia.
Qed.

Lemma splice1_found (l : list func) (i : nat) (x : func) :
  l !! i = Some x -> splice1 (Z.of_nat i) l = delete i l.
Proof.
  intros Hi. apply lookup_lt_Some in Hi. unfold splice1.
  replace (Z.of_nat i <? 0)%Z with false by (symmetry; apply Z.ltb_ge; lia).
  rewrite Z.min_l by lia. rewrite Nat2Z.id. reflexivity.
Qed.

(** A listener that is present is removed at its first index. *)
Lemma splice_indexOf (x : func) (l : list func) :
  x ∈ l ->
  exists i, l !! i = Some x /\ (forall j, j < i -> l !! j <> Some x) /\
            splice1 (indexOf x l) l = delete i l.
Proof.
  intros Hin. destruct (indexOf_spec x l) as [[_ Hnot]|(i & Hidx & Hi & Hfirst)];
    [contradiction|].
  exists i. rewrite Hidx. eauto using splice1_found.
Qed.

Lemma deref_lookup (m : machine) (a : nat) (l : list func) :
  arrays m !! a = Some l -> deref m a = l.
Proof. unfold deref. intros ->. reflexivity. Qed.

Lemma deref_eq (m m' : machine) (a : nat) :
  arrays m' !! a = arrays m !! a -> deref m' a = deref m a.
Proof. unfold deref. intros ->. reflexivity. Qed.

Lemma ensure_cases (m : machine) :
  (nextListeners m = currentListeners m /\
   ensureCanMutateNextListeners m =
     set_nextListeners (length (arrays m))
       (set_arrays (arrays m ++ [deref m (currentListeners m)]) m)) \/
  (nextListeners m <> currentListeners m /\ ensureCanMutateNextListeners m = m).
Proof.
  unfold ensureCanMutateNextListeners.
  destruct (Nat.eqb_spec (nextListeners m) (currentListeners m)); auto.
Qed.

(** The check leaves everything but [nextListeners] and the heap alone, and
    the list behind [nextListeners] reads the same afterwards. *)
Lemma ensure_fields (m : machine) :
  let m' := ensureCanMutateNextListeners m in
  currentReducer m' = currentReducer m /\ currentState m' = currentState m /\
  currentListeners m' = currentListeners m /\ isDispatching m' = isDispatching m /\
  subscriptions m' = subscriptions m /\ enhancedDispatch m' = enhancedDispatch m /\
  trace m' = trace m /\ dispatchCount m' = dispatchCount m.
Proof.
  destruct (ensure_cases m) as [[_ ->]|[_ ->]]; cbn; repeat split.
Qed.

Lemma ensure_nextList (m : machine) :
  nextListeners m < length (arrays m) ->
  let m' := ensureCanMutateNextListeners m in
  nextListeners m' < length (arrays m') /\ nextList m' = nextList m.
Proof.
  intros Hlt. destruct (ensure_cases m) as [[Heq ->]|[_ ->]]; cbn; [|auto].
  split; [rewrite length_app; cbn; lia|].
  unfold nextList, deref at 1. cbn.
  rewrite lookup_app_r, Nat.sub_diag by lia. cbn. rewrite Heq. reflexivity.
Qed.

(** After the check, a frozen array is not the one behind [nextListeners]. *)
Lemma ensure_frozen (a : nat) (m : machine) :
  frozen a m ->
  let m' := ensureCanMutateNextListeners m in
  a < length (arrays m') /\ a <> nextListeners m' /\
  arrays m' !! a = arrays m !! a.
Proof.
  intros [Hlt Hfree]. destruct (ensure_cases m) as [[Heq ->]|[Hne ->]]; cbn.
  - rewrite length_app, lookup_app_l by lia. cbn. repeat split; lia.
  - repeat split; [assumption|]. destruct Hfree; congruence.
Qed.

(** ** subscribe and unsubscribe as guarded updates of the next list *)

Lemma mutate_fields (g : list func -> list func) (m : machine) :
  let m' := mutateNext g m in
  currentReducer m' = currentReducer m /\ currentState m' = currentState m /\
  currentListeners m' = currentListeners m /\ isDispatching m' = isDispatching m /\
  subscriptions m' = subscriptions m /\ enhancedDispatch m' = enhancedDispatch m /\
  trace m' = trace m /\ dispatchCount m' = dispatchCount m.
Proof. unfold mutateNext. cbn. apply ensure_fields. Qed.

Lemma mutate_nextList (g : list func -> list func) (m : machine) :
  nextListeners m < length (arrays m) ->
  let m' := mutateNext g m in
  nextListeners m' < length (arrays m') /\ nextList m' = g (nextList m).
Proof.
  intros Hlt. destruct (ensure_nextList m Hlt) as [Hlt' Hsame].
  rewrite <- Hsame. unfold mutateNext, nextList, deref.
  cbn [nextListeners arrays set_arrays]. rewrite length_alter.
  split; [assumption|]. rewrite list_lookup_alter_eq.
  destruct (lookup_lt_is_Some_2 _ _ Hlt') as [l ->]. reflexivity.
Qed.

(** Copy-on-write: a frozen array is not touched, and stays frozen. *)
Lemma mutate_frozen (g : list func -> list func) (a : nat) (m : machine) :
  frozen a m ->
  let m' := mutateNext g m in
  frozen a m' /\ arrays m' !! a = arrays m !! a.
Proof.
  intros Hfr. destruct (ensure_frozen a m Hfr) as (Hlt & Hne & Hsame).
  unfold mutateNext, frozen. cbn. rewrite length_alter.
  rewrite list_lookup_alter_ne by congruence. auto.
Qed.

(** In particular the array behind [currentListeners] is never written. *)
Lemma mutate_current (g : list func -> list func) (m : machine) :
  nextListeners m < length (arrays m) ->
  arrays (mutateNext g m) !! currentListeners m = arrays m !! currentListeners m.
Proof.
  intros Hlt. destruct (decide (nextListeners m = currentListeners m)) as [Heq|Hne].
  - apply mutate_frozen. split; [lia|auto].
  - unfold mutateNext.
    destruct (ensure_cases m) as [[? _]|[_ ->]]; [contradiction|].
    cbn. apply list_lookup_alter_ne. assumption.
Qed.

Lemma subscribe_idle (f : func) (m : machine) :
  isDispatching m = false ->
  subscribe (VFun f) m =
    (Normal (VFun (FUnsub (length (subscriptions m)))),
     mutateNext (fun l => l ++ [f])
       (set_subscriptions (subscriptions m ++ [(true, f)]) m)).
Proof. intros H. unfold subscribe. rewrite H. reflexivity. Qed.

Lemma unsubscribe_idle (h : nat) (l : func) (m : machine) :
  isDispatching m = false ->
  subscriptions m !! h = Some (true, l) ->
  exists g,
    unsubscribe h m =
      (Normal VUndefined,
       mutateNext g (set_subscriptions (<[h := (false, l)]> (subscriptions m)) m)) /\
    (nextListeners m < length (arrays m) ->
     g (nextList m) = splice1 (indexOf l (nextList m)) (nextList m)).
Proof.
  intros Hidle Hsub.
  set (m1 := set_subscriptions (<[h := (false, l)]> (subscriptions m)) m).
  exists (splice1 (indexOf l (deref (ensureCanMutateNextListeners m1)
                               (nextListeners (ensureCanMutateNextListeners m1))))).
  split.
  - unfold unsubscribe. rewrite Hsub, Hidle. reflexivity.
  - intros Hlt. destruct (ensure_nextList m1 Hlt) as [_ Hsame].
    unfold nextList in Hsame at 1. rewrite Hsame. reflexivity.
Qed.

(** Every outcome of [subscribe] and [unsubscribe] that is not an update of
    the next list leaves the machine as it was. *)
Lemma subscribe_shape (listener : value) (m : machine) :
  (exists e, subscribe listener m = (Thrown e, m)) \/
  (exists v g s, subscribe listener m = (Normal v, mutateNext g (set_subscriptions s m))
                 /\ isDispatching m = false).
Proof.
  unfold subscribe. destruct listener; eauto.
  destruct (isDispatching m) eqn:E; eauto 10.
Qed.

Lemma unsubscribe_shape (h : nat) (m : machine) :
  (exists c, unsubscribe h m = (c, m)) \/
  (exists g s, unsubscribe h m = (Normal VUndefined, mutateNext g (set_subscriptions s m))
               /\ isDispatching m = false).
Proof.
  unfold unsubscribe. destruct (subscriptions m !! h) as [[[] l]|]; cbn; eauto.
  destruct (isDispatching m) eqn:E; eauto 10.
Qed.

(** ** The shape of a dispatch *)

Section DispatchShape.
Variable code : nat -> list value -> prog.
Variable call : prog -> machine -> option (completion * machine).
Variable bound : nat.

(** Past the three guards, [dispatch] is the reducer call followed by the
    commit and the notification pass. *)
Lemma dispatch_valid (a : value) (m : machine) :
  validAction a -> isDispatching m = false ->
  dispatch code call bound a m =
  match callFn code call (currentReducer m) [currentState m; a] (entering a m) with
  | None => None
  | Some (Thrown e, m1) => Some (Thrown e, set_isDispatching false m1)
  | Some (Normal s, m1) =>
      match notify code call bound (dispatchCount m) (nextListeners m1) 0
              (committed s m1) with
      | Some (Normal _, m4) => Some (Normal a, m4)
      | other => other
      end
  end.
Proof.
  intros [Hplain Htype] Hidle. unfold dispatch.
  rewrite Hplain, Hidle. cbn [negb].
  destruct (decide (typeof (actionType a) = TyUndefined)); [contradiction|].
  reflexivity.
Qed.

Lemma dispatch_invalid (a : value) (m : machine) :
  ~ validAction a ->
  exists e, dispatch code call bound a m = Some (Thrown e, m) /\
            (e = ActionNotPlainObject \/ e = ActionTypeUndefined).
Proof.
  intros Hbad. unfold dispatch.
  destruct (isPlainObject a) eqn:Hplain; cbn [negb]; [|eauto].
  destruct (decide (typeof (actionType a) = TyUndefined)); [eauto|].
  destruct Hbad. split; assumption.
Qed.

Lemma dispatch_busy (a : value) (m : machine) :
  isDispatching m = true ->
  exists e, dispatch code call bound a m = Some (Thrown e, m) /\
            (validAction a -> e = ReducersMayNotDispatch).
Proof.
  intros Hbusy. unfold dispatch.
  destruct (isPlainObject a) eqn:Hplain; cbn [negb].
  - destruct (decide (typeof (actionType a) = TyUndefined)).
    + eexists. split; [reflexivity|]. intros [_ ?]. contradiction.
    + rewrite Hbusy. eauto.
  - eexists. split; [reflexivity|]. intros [? _]. congruence.
Qed.

(** Every way a dispatch can end. *)
Lemma dispatch_cases (a : value) (m : machine) (r : completion * machine) :
  dispatch code call bound a m = Some r ->
  (exists e, r = (Thrown e, m) /\ (~ validAction a \/ isDispatching m = true)) \/
  (validAction a /\ isDispatching m = false /\
   exists c1 m1,
     callFn code call (currentReducer m) [currentState m; a] (entering a m)
       = Some (c1, m1) /\
     match c1 with
     | Thrown e => r = (Thrown e, set_isDispatching false m1)
     | Normal s =>
         exists c2 m4,
           notify code call bound (dispatchCount m) (nextListeners m1) 0
             (committed s m1) = Some (c2, m4) /\
           r = (match c2 with Normal _ => Normal a | Thrown e => Thrown e end, m4)
     end).
Proof.
  intros Hd.
  destruct (isDispatching m) eqn:Hflag.
  { left. destruct (dispatch_busy a m Hflag) as (e & He & _).
    exists e. split; [congruence|auto]. }
  destruct (isPlainObject a) eqn:Hplain.
  2:{ left. destruct (dispatch_invalid a m) as (e & He & _).
      - intros [? _]. congruence.
      - exists e. split; [congruence|]. left. intros [? _]. congruence. }
  destruct (decide (typeof (actionType a) = TyUndefined)) as [Hty|Hty].
  { left. destruct (dispatch_invalid a m) as (e & He & _).
    - intros [_ ?]. contradiction.
    - exists e. split; [congruence|]. left. intros [_ ?]. contradiction. }
  right. assert (Hvalid : validAction a) by (split; assumption).
  split; [assumption|]. split; [reflexivity|].
  rewrite dispatch_valid in Hd by assumption.
  destruct (callFn _ _ _ _ _) as [[[s|e] m1]|]; [| |discriminate].
  - exists (Normal s), m1. split; [reflexivity|].
    destruct (notify _ _ _ _ _ _ _) as [[[v|e] m4]|]; [| |discriminate];
      inversion Hd; subst; eauto.
  - exists (Thrown e), m1. split; [reflexivity|]. congruence.
Qed.
End DispatchShape.

(** ** Lifting a property of the store's steps to whole executions *)

Section Lift.
Variable code : nat -> list value -> prog.
Variable actionTypes : ActionTypesT.
Variable R : machine -> machine -> Prop.
Hypothesis R_refl : forall m, R m m.
Hypothesis R_trans : forall m1 m2 m3, R m1 m2 -> R m2 m3 -> R m1 m3.

Section OneLevel.
Variable call : prog -> machine -> option (completion * machine).
Variable bound : nat.
Hypothesis R_call : forall p m c m', call p m = Some (c, m') -> R m m'.
Hypothesis R_unsubscribe : forall h m c m', unsubscribe h m = (c, m') -> R m m'.

Lemma callFn_lift f args m c m' :
  callFn code call f args m = Some (c, m') -> R m m'.
Proof.
  destruct f; cbn; [apply R_call|]. intros [=]. eauto.
Qed.

Lemma notify_lift d :
  (forall f m, R m (record (EvListener d f []) m)) ->
  forall fuel listeners i m c m',
    notify code call fuel d listeners i m = Some (c, m') -> R m m'.
Proof.
  intros R_listener fuel listeners.
  induction fuel as [|fuel IH]; intros i m c m'; cbn [notify];
    destruct (deref m listeners !! i) as [f|]; try discriminate;
    try (intros [= <- <-]; apply R_refl).
  destruct (callFn _ _ _ _ _) as [[[v|e] m1]|] eqn:Hf; [| |discriminate].
  - intros Hrest. eapply R_trans; [apply R_listener|].
    eapply R_trans; [eapply callFn_lift, Hf|]. eapply IH, Hrest.
  - intros [= <- <-]. eapply R_trans; [apply R_listener|].
    eapply callFn_lift, Hf.
Qed.

Hypothesis R_listener : forall d f m, R m (record (EvListener d f []) m).
Hypothesis R_enter : forall a m, isDispatching m = false -> R m (entering a m).
Hypothesis R_fail : forall a m m1,
  isDispatching m = false -> R (entering a m) m1 -> R m1 (set_isDispatching false m1).
Hypothesis R_commit : forall a m s m1,
  isDispatching m = false -> R (entering a m) m1 -> R m1 (committed s m1).

Lemma dispatch_lift a m c m' :
  dispatch code call bound a m = Some (c, m') -> R m m'.
Proof.
  intros Hd. apply dispatch_cases in Hd.
  destruct Hd as [(e & [= -> ->] & _)|(_ & Hidle & c1 & m1 & Hred & Hrest)];
    [apply R_refl|].
  apply callFn_lift in Hred.
  eapply R_trans; [apply R_enter, Hidle|]. eapply R_trans; [exact Hred|].
  destruct c1 as [s|e].
  - destruct Hrest as (c2 & m4 & Hn & [= -> ->]).
    eapply R_trans; [eapply R_commit; eassumption|].
    eapply notify_lift, Hn. apply R_listener.
  - injection Hrest as -> ->. eapply R_fail; eassumption.
Qed.
End OneLevel.

Section Whole.
Hypothesis R_subscribe : forall l m c m', subscribe l m = (c, m') -> R m m'.
Hypothesis R_unsubscribe : forall h m c m', unsubscribe h m = (c, m') -> R m m'.
Hypothesis R_log : forall v m, R m (record (EvLog v) m).
Hypothesis R_replace : forall f m, R m (set_currentReducer f m).
Hypothesis R_dispatch : forall call bound,
  (forall p m c m', call p m = Some (c, m') -> R m m') ->
  forall a m c m', dispatch code call bound a m = Some (c, m') -> R m m'.

Lemma perform_lift call bound :
  (forall p m c m', call p m = Some (c, m') -> R m m') ->
  forall o m c m',
    perform code actionTypes call bound o m = Some (c, m') -> R m m'.
Proof.
  intros Hcall o m c m'. destruct o; cbn [perform].
  - unfold getState. destruct (isDispatching m); intros [= <- <-]; apply R_refl.
  - intros [=]. eauto.
  - eapply R_dispatch, Hcall.
  - unfold replaceReducer. destruct nextReducer;
      try (intros [= <- <-]; apply R_refl).
    destruct (dispatch _ _ _ _ _) as [[[v|e] m2]|] eqn:Hd; [| |discriminate];
      intros [= <- <-]; (eapply R_trans; [apply R_replace|]);
      eapply R_dispatch; eauto.
  - destruct f; cbn; try (intros [= <- <-]; apply R_refl).
    eapply callFn_lift; eauto.
  - destruct (enhancedDispatch m); [apply Hcall|].
    intros [= <- <-]; apply R_refl.
  - intros [= <- <-]. apply R_log.
Qed.

Lemma run_lift call bound :
  (forall p m c m', call p m = Some (c, m') -> R m m') ->
  forall p m c m', run code actionTypes call bound p m = Some (c, m') -> R m m'.
Proof.
  intros Hcall p. induction p as [v|e|o k IH]; intros m c m'; cbn [run].
  - intros [= <- <-]. apply R_refl.
  - intros [= <- <-]. apply R_refl.
  - destruct (perform _ _ _ _ _ _) as [[c1 m1]|] eqn:Hp; [|discriminate].
    intros Hk. eapply R_trans; [eapply perform_lift; eauto|]. eapply IH, Hk.
Qed.

Theorem exec_lift n : forall p m c m',
  exec code actionTypes n p m = Some (c, m') -> R m m'.
Proof.
  induction n as [|n IH]; intros p m c m'; cbn [exec]; [discriminate|].
  apply run_lift. exact IH.
Qed.
End Whole.
End Lift.

(** ** More fuel does not change a result *)

Section Monotone.
Variable code : nat -> list value -> prog.
Variable actionTypes : ActionTypesT.

Section OneLevel.
Variables call call' : prog -> machine -> option (completion * machine).
Variables bound bound' : nat.
Hypothesis call_le : forall p m r, call p m = Some r -> call' p m = Some r.
Hypothesis bound_le : bound <= bound'.

Lemma callFn_mono f args m r :
  callFn code call f args m = Some r -> callFn code call' f args m = Some r.
Proof. destruct f; cbn; auto. Qed.

Lemma notify_mono d listeners : forall fuel fuel' i m r,
  fuel <= fuel' ->
  notify code call fuel d listeners i m = Some r ->
  notify code call' fuel' d listeners i m = Some r.
Proof.
  induction fuel as [|fuel IH]; intros fuel' i m r Hle; cbn [notify].
  - destruct fuel'; cbn [notify]; destruct (deref m listeners !! i);
      solve [auto | discriminate].
  - destruct fuel' as [|fuel']; [lia|]. cbn [notify].
    destruct (deref m listeners !! i) as [f|]; [|auto].
    destruct (callFn code call f _ _) as [[[v|e] m1]|] eqn:Hf; [| |discriminate].
    + rewrite (callFn_mono _ _ _ _ Hf). apply IH. lia.
    + rewrite (callFn_mono _ _ _ _ Hf). auto.
Qed.

Lemma dispatch_mono a m r :
  dispatch code call bound a m = Some r ->
  dispatch code call' bound' a m = Some r.
Proof.
  unfold dispatch.
  destruct (negb (isPlainObject a)); [auto|].
  destruct (decide _); [auto|]. destruct (isDispatching m); [auto|].
  destruct (callFn code call _ _ _) as [[[s|e] m1]|] eqn:Hf; [| |discriminate].
  - rewrite (callFn_mono _ _ _ _ Hf).
    destruct (notify code call _ _ _ _ _) as [r'|] eqn:Hn; [|discriminate].
    rewrite (notify_mono _ _ _ _ _ _ _ bound_le Hn). auto.
  - rewrite (callFn_mono _ _ _ _ Hf). auto.
Qed.

Lemma perform_mono o m r :
  perform code actionTypes call bound o m = Some r ->
  perform code actionTypes call' bound' o m = Some r.
Proof.
  destruct o; cbn [perform]; auto.
  - apply dispatch_mono.
  - unfold replaceReducer. destruct nextReducer; auto.
    destruct (dispatch code call _ _ _) as [r'|] eqn:Hd; [|discriminate].
    rewrite (dispatch_mono _ _ _ Hd). auto.
  - destruct f; cbn; auto. apply callFn_mono.
  - destruct (enhancedDispatch m); auto.
Qed.

Lemma run_mono p : forall m r,
  run code actionTypes call bound p m = Some r ->
  run code actionTypes call' bound' p m = Some r.
Proof.
  induction p as [v|e|o k IH]; intros m r; cbn [run]; auto.
  destruct (perform code actionTypes call _ _ _) as [[c m1]|] eqn:Hp; [|discriminate].
  rewrite (perform_mono _ _ _ Hp). apply IH.
Qed.
End OneLevel.

(** A run that ends within depth [n] ends the same way within any larger
    depth. *)
Theorem exec_mono n : forall n' p m r,
  n <= n' ->
  exec code actionTypes n p m = Some r -> exec code actionTypes n' p m = Some r.
Proof.
  induction n as [|n IH]; intros n' p m r Hle; cbn [exec]; [discriminate|].
  destruct n' as [|n']; [lia|]. cbn [exec].
  apply run_mono; [|lia]. intros p' m' r'. apply IH. lia.
Qed.
End Monotone.

(** ** Well-formedness is an invariant *)

Lemma active_unsubscribe (subs : list (bool * func)) : forall (h : nat) (l : func),
  subs !! h = Some (true, l) ->
  (filter (fun s : bool * func => s.1 = true) subs).*2 ≡ₚ
  l :: (filter (fun s : bool * func => s.1 = true) (<[h := (false, l)]> subs)).*2.
Proof.
  induction subs as [|[b f] subs IH]; intros h l Hh; [discriminate|].
  destruct h as [|h]; cbn in Hh.
  - injection Hh as -> ->. cbn [insert list_insert].
    rewrite filter_cons_True by reflexivity.
    rewrite filter_cons_False by (cbn; discriminate). reflexivity.
  - cbn [insert list_insert]. destruct b.
    + rewrite !filter_cons_True by reflexivity. cbn [fmap list_fmap snd].
      rewrite (IH h l Hh). apply perm_swap.
    + rewrite !filter_cons_False by (cbn; discriminate). apply IH, Hh.
Qed.

Lemma registered_unsubscribe (subs : list (bool * func)) (h : nat) (b : bool) (l : func) :
  subs !! h = Some (b, l) -> (<[h := (false, l)]> subs).*2 = subs.*2.
Proof.
  intros Hh. rewrite list_fmap_insert. apply list_insert_id.
  rewrite list_lookup_fmap, Hh. reflexivity.
Qed.

Lemma WF_subscribe (f : func) (m : machine) :
  WF m ->
  WF (mutateNext (fun l => l ++ [f])
        (set_subscriptions (subscriptions m ++ [(true, f)]) m)).
Proof.
  intros (Hlt & Hperm & Hsub).
  set (m1 := set_subscriptions _ m).
  destruct (mutate_nextList (fun l => l ++ [f]) m1 Hlt) as [Hlt' Hnext].
  destruct (mutate_fields (fun l => l ++ [f]) m1) as (_ & _ & _ & _ & Hsubs & _).
  split; [assumption|]. rewrite Hnext. unfold active, registered. rewrite Hsubs.
  change (nextList m1) with (nextList m). cbn [subscriptions m1 set_subscriptions].
  rewrite filter_app, !fmap_app, filter_cons_True by reflexivity.
  split.
  - apply Permutation_app; [exact Hperm|reflexivity].
  - apply sublist_app; [exact Hsub|reflexivity].
Qed.

Lemma WF_unsubscribe (g : list func -> list func) (h : nat) (l : func) (m : machine) :
  WF m -> subscriptions m !! h = Some (true, l) ->
  g (nextList m) = splice1 (indexOf l (nextList m)) (nextList m) ->
  WF (mutateNext g (set_subscriptions (<[h := (false, l)]> (subscriptions m)) m)).
Proof.
  intros (Hlt & Hperm & Hsub) Hh Hg.
  set (m1 := set_subscriptions _ m).
  destruct (mutate_nextList g m1 Hlt) as [Hlt' Hnext].
  destruct (mutate_fields g m1) as (_ & _ & _ & _ & Hsubs & _).
  split; [assumption|]. rewrite Hnext. unfold active, registered. rewrite Hsubs.
  change (nextList m1) with (nextList m). cbn [subscriptions m1 set_subscriptions].
  rewrite Hg.
  assert (Hin : l ∈ nextList m).
  { rewrite Hperm, (active_unsubscribe _ h l Hh). unfold active. left. }
  destruct (splice_indexOf l (nextList m) Hin) as (i & Hi & _ & ->).
  split.
  - apply (Permutation_cons_inv (a := l)).
    rewrite <- (delete_Permutation _ _ _ Hi), Hperm.
    apply active_unsubscribe, Hh.
  - rewrite (registered_unsubscribe _ h true l Hh).
    etrans; [apply sublist_delete|exact Hsub].
Qed.

Lemma WF_subscribe_step (l : value) (m : machine) (c : completion) (m' : machine) :
  subscribe l m = (c, m') -> WF m -> WF m'.
Proof.
  intros Hs Hwf. destruct l; try (injection Hs as <- <-; exact Hwf).
  destruct (isDispatching m) eqn:Hflag.
  - unfold subscribe in Hs. rewrite Hflag in Hs. injection Hs as <- <-. exact Hwf.
  - rewrite subscribe_idle in Hs by assumption. injection Hs as <- <-.
    apply WF_subscribe, Hwf.
Qed.

Lemma WF_unsubscribe_step (h : nat) (m : machine) (c : completion) (m' : machine) :
  unsubscribe h m = (c, m') -> WF m -> WF m'.
Proof.
  intros Hu Hwf.
  destruct (subscriptions m !! h) as [[[] l]|] eqn:Hh.
  - destruct (isDispatching m) eqn:Hflag.
    + unfold unsubscribe in Hu. rewrite Hh, Hflag in Hu. injection Hu as <- <-. exact Hwf.
    + destruct (unsubscribe_idle h l m Hflag Hh) as (g & Heq & Hg).
      rewrite Heq in Hu. injection Hu as <- <-.
      apply WF_unsubscribe; [exact Hwf|exact Hh|]. apply Hg, Hwf.
  - unfold unsubscribe in Hu. rewrite Hh in Hu. injection Hu as <- <-. exact Hwf.
  - unfold unsubscribe in Hu. rewrite Hh in Hu. injection Hu as <- <-. exact Hwf.
Qed.

Lemma WF_dispatch (code : nat -> list value -> prog)
    (call : prog -> machine -> option (completion * machine)) (bound : nat) :
  (forall p m c m', call p m = Some (c, m') -> WF m -> WF m') ->
  forall a m c m', dispatch code call bound a m = Some (c, m') -> WF m -> WF m'.
Proof.
  intros Hcall.
  apply (dispatch_lift code (fun m m' => WF m -> WF m')); auto.
  - intros h m c m'. apply WF_unsubscribe_step.
Qed.

(** Whatever user code does, it leaves the store well formed. *)
Theorem WF_exec (code : nat -> list value -> prog) (actionTypes : ActionTypesT) (n : nat) :
  forall p m c m', exec code actionTypes n p m = Some (c, m') -> WF m -> WF m'.
Proof.
  apply (exec_lift code actionTypes (fun m m' => WF m -> WF m')); auto.
  - apply WF_subscribe_step.
  - apply WF_unsubscribe_step.
  - apply WF_dispatch.
Qed.

Lemma WF_initial (r : func) (s : value) : WF (initial r s).
Proof.
  split; [cbn; lia|]. split; [reflexivity|]. unfold nextList, registered. cbn.
  constructor.
Qed.

(** ** Copy-on-write: a frozen array is never written *)

Section Frozen.
Variable code : nat -> list value -> prog.
Variable actionTypes : ActionTypesT.
Variable a : nat.

Abbreviation keeps := (keeps a).

Lemma keeps_same m m' :
  arrays m' = arrays m -> nextListeners m' = nextListeners m ->
  currentListeners m' = currentListeners m -> keeps m m'.
Proof. unfold keeps, frozen. intros -> -> ->. auto. Qed.

Lemma keeps_refl m : keeps m m.
Proof. apply keeps_same; reflexivity. Qed.

Lemma keeps_trans m1 m2 m3 : keeps m1 m2 -> keeps m2 m3 -> keeps m1 m3.
Proof.
  intros H12 H23 H1. destruct (H12 H1) as [H2 E12].
  destruct (H23 H2) as [H3 E23]. split; [assumption|congruence].
Qed.

Lemma keeps_subscribe l m c m' : subscribe l m = (c, m') -> keeps m m'.
Proof.
  intros Hs. destruct (subscribe_shape l m) as [(e & He)|(v & g & s & He & _)];
    rewrite He in Hs; injection Hs as <- <-; [apply keeps_refl|].
  intros Hfr. apply (mutate_frozen g a (set_subscriptions s m)), Hfr.
Qed.

Lemma keeps_unsubscribe h m c m' : unsubscribe h m = (c, m') -> keeps m m'.
Proof.
  intros Hu. destruct (unsubscribe_shape h m) as [(c' & He)|(g & s & He & _)];
    rewrite He in Hu; injection Hu as <- <-; [apply keeps_refl|].
  intros Hfr. apply (mutate_frozen g a (set_subscriptions s m)), Hfr.
Qed.

Lemma keeps_commit s m : keeps m (committed s m).
Proof.
  intros [Hlt _]. split; [|reflexivity]. split; [exact Hlt|]. right. reflexivity.
Qed.

Lemma keeps_dispatch call bound :
  (forall p m c m', call p m = Some (c, m') -> keeps m m') ->
  forall v m c m', dispatch code call bound v m = Some (c, m') -> keeps m m'.
Proof.
  intros Hcall.
  apply (dispatch_lift code keeps keeps_refl keeps_trans); auto;
    try (intros; apply keeps_same; reflexivity).
  - apply keeps_unsubscribe.
  - intros; apply keeps_commit.
Qed.

Theorem keeps_exec n : forall p m c m',
  exec code actionTypes n p m = Some (c, m') -> keeps m m'.
Proof.
  apply (exec_lift code actionTypes keeps keeps_refl keeps_trans);
    try (intros; apply keeps_same; reflexivity).
  - apply keeps_subscribe.
  - apply keeps_unsubscribe.
  - apply keeps_dispatch.
Qed.
End Frozen.

(** ** While the reducer runs, the store does not change *)

Lemma quietly_refl m : quietly m m.
Proof.
  unfold quietly. repeat split. exists []. split; [|constructor].
  symmetry. apply app_nil_r.
Qed.

Lemma quietly_trans m1 m2 m3 : quietly m1 m2 -> quietly m2 m3 -> quietly m1 m3.
Proof.
  intros (A1 & A2 & A3 & A4 & A5 & A6 & A7 & A8 & evs1 & A9 & A10)
         (B1 & B2 & B3 & B4 & B5 & B6 & B7 & B8 & evs2 & B9 & B10).
  unfold quietly. repeat split; try congruence.
  exists (evs1 ++ evs2). split; [|apply Forall_app; auto].
  rewrite B9, A9. symmetry. apply app_assoc.
Qed.

Section WhileDispatching.
Variable code : nat -> list value -> prog.
Variable actionTypes : ActionTypesT.

Lemma busy_refl m : whileDispatching m m.
Proof. intros _. apply quietly_refl. Qed.

Lemma busy_trans m1 m2 m3 :
  whileDispatching m1 m2 -> whileDispatching m2 m3 -> whileDispatching m1 m3.
Proof.
  intros H12 H23 H1. specialize (H12 H1).
  eapply quietly_trans; [exact H12|]. apply H23.
  destruct H12 as [-> _]. exact H1.
Qed.

Lemma busy_subscribe l m c m' : subscribe l m = (c, m') -> whileDispatching m m'.
Proof.
  intros Hs Hbusy.
  destruct (subscribe_shape l m) as [(e & He)|(v & g & s & _ & Hidle)];
    [|congruence].
  rewrite He in Hs. injection Hs as <- <-. apply quietly_refl.
Qed.

Lemma busy_unsubscribe h m c m' : unsubscribe h m = (c, m') -> whileDispatching m m'.
Proof.
  intros Hu Hbusy.
  destruct (unsubscribe_shape h m) as [(c' & He)|(g & s & _ & Hidle)];
    [|congruence].
  rewrite He in Hu. injection Hu as <- <-. apply quietly_refl.
Qed.

Lemma busy_log v m : whileDispatching m (record (EvLog v) m).
Proof.
  intros _. unfold quietly. repeat split. exists [EvLog v].
  split; [reflexivity|]. repeat constructor.
Qed.

Lemma busy_replace f m : whileDispatching m (set_currentReducer f m).
Proof.
  intros _. unfold quietly. repeat split. exists [].
  split; [symmetry; apply app_nil_r|constructor].
Qed.

Lemma busy_dispatch call bound a m c m' :
  dispatch code call bound a m = Some (c, m') -> whileDispatching m m'.
Proof.
  intros Hd Hbusy. destruct (dispatch_busy code call bound a m Hbusy) as (e & He & _).
  rewrite He in Hd. injection Hd as <- <-. apply quietly_refl.
Qed.

(** Nothing the reducer calls gets past the guards. *)
Theorem busy_exec n : forall p m c m',
  exec code actionTypes n p m = Some (c, m') -> whileDispatching m m'.
Proof.
  apply (exec_lift code actionTypes whileDispatching busy_refl busy_trans).
  - apply busy_subscribe.
  - apply busy_unsubscribe.
  - apply busy_log.
  - apply busy_replace.
  - intros call bound _. apply busy_dispatch.
Qed.

Lemma busy_callFn n f args m c m' :
  callFn code (exec code actionTypes n) f args m = Some (c, m') ->
  whileDispatching m m'.
Proof.
  apply (callFn_lift code whileDispatching).
  - apply busy_exec.
  - apply busy_unsubscribe.
Qed.
End WhileDispatching.

(** ** The trace only grows *)

Section Extends.
Variable code : nat -> list value -> prog.
Variable actionTypes : ActionTypesT.
Variable c0 : nat.

Abbreviation grows := (extendsFrom c0).

Lemma grows_same m m' :
  trace m' = trace m -> dispatchCount m' = dispatchCount m -> grows m m'.
Proof.
  intros Ht Hc H0. rewrite Hc, Ht. repeat split; [lia..|].
  exists []. split; [symmetry; apply app_nil_r|constructor].
Qed.

Lemma grows_refl m : grows m m.
Proof. apply grows_same; reflexivity. Qed.

Lemma grows_trans m1 m2 m3 : grows m1 m2 -> grows m2 m3 -> grows m1 m3.
Proof.
  intros H12 H23 H1. destruct (H12 H1) as (A1 & A2 & evs1 & A3 & A4).
  destruct (H23 A1) as (B1 & B2 & evs2 & B3 & B4).
  repeat split; [lia..|]. exists (evs1 ++ evs2).
  split; [|apply Forall_app; auto]. rewrite B3, A3. symmetry. apply app_assoc.
Qed.

Lemma grows_subscribe l m c m' : subscribe l m = (c, m') -> grows m m'.
Proof.
  intros Hs. destruct (subscribe_shape l m) as [(e & He)|(v & g & s & He & _)];
    rewrite He in Hs; injection Hs as <- <-; [apply grows_refl|].
  destruct (mutate_fields g (set_subscriptions s m)) as (_&_&_&_&_&_& Ht & Hc).
  apply grows_same; assumption.
Qed.

Lemma grows_unsubscribe h m c m' : unsubscribe h m = (c, m') -> grows m m'.
Proof.
  intros Hu. destruct (unsubscribe_shape h m) as [(c' & He)|(g & s & He & _)];
    rewrite He in Hu; injection Hu as <- <-; [apply grows_refl|].
  destruct (mutate_fields g (set_subscriptions s m)) as (_&_&_&_&_&_& Ht & Hc).
  apply grows_same; assumption.
Qed.

Lemma grows_record ev m : since c0 ev -> grows m (record ev m).
Proof.
  intros Hev H0. cbn. repeat split; [lia..|]. exists [ev].
  split; [reflexivity|]. repeat constructor. exact Hev.
Qed.

Lemma grows_enter a m : grows m (entering a m).
Proof.
  intros H0. cbn. repeat split; [lia..|]. eexists. split; [reflexivity|].
  repeat constructor. exact H0.
Qed.

Lemma grows_dispatch call bound :
  (forall p m c m', call p m = Some (c, m') -> grows m m') ->
  forall a m c m', dispatch code call bound a m = Some (c, m') -> grows m m'.
Proof.
  intros Hcall a m c m' Hd H0.
  assert (Hg : grows m m'); [|exact (Hg H0)].
  apply dispatch_cases in Hd.
  destruct Hd as [(e & [= -> ->] & _)|(_ & Hidle & c1 & m1 & Hred & Hrest)];
    [apply grows_refl|].
  assert (Hr : grows (entering a m) m1).
  { eapply (callFn_lift code grows), Hred; [exact Hcall|].
    intros h; apply grows_unsubscribe. }
  eapply grows_trans; [apply grows_enter|]. eapply grows_trans; [exact Hr|].
  destruct c1 as [s|e].
  - destruct Hrest as (c2 & m4 & Hn & [= -> ->]).
    eapply grows_trans; [apply (grows_same m1 (committed s m1)); reflexivity|].
    eapply (notify_lift code grows grows_refl grows_trans), Hn;
      [exact Hcall|intros h; apply grows_unsubscribe|].
    intros f m0. apply grows_record. exact H0.
  - injection Hrest as -> ->. apply grows_same; reflexivity.
Qed.

Theorem grows_exec n : forall p m c m',
  exec code actionTypes n p m = Some (c, m') -> grows m m'.
Proof.
  apply (exec_lift code actionTypes grows grows_refl grows_trans).
  - apply grows_subscribe.
  - apply grows_unsubscribe.
  - intros v m. apply grows_record. exact I.
  - intros f m. apply grows_same; reflexivity.
  - apply grows_dispatch.
Qed.

Lemma grows_callFn n f args m c m' :
  callFn code (exec code actionTypes n) f args m = Some (c, m') -> grows m m'.
Proof.
  apply (callFn_lift code grows).
  - apply grows_exec.
  - apply grows_unsubscribe.
Qed.
End Extends.

(** ** Every call returns with the dispatch flag as it found it *)

Section SameFlag.
Variable code : nat -> list value -> prog.
Variable actionTypes : ActionTypesT.

Lemma flag_subscribe l m c m' :
  subscribe l m = (c, m') -> isDispatching m' = isDispatching m.
Proof.
  intros Hs. destruct (subscribe_shape l m) as [(e & He)|(v & g & s & He & _)];
    rewrite He in Hs; injection Hs as <- <-; [reflexivity|].
  apply (mutate_fields g (set_subscriptions s m)).
Qed.

Lemma flag_unsubscribe h m c m' :
  unsubscribe h m = (c, m') -> isDispatching m' = isDispatching m.
Proof.
  intros Hu. destruct (unsubscribe_shape h m) as [(c' & He)|(g & s & He & _)];
    rewrite He in Hu; injection Hu as <- <-; [reflexivity|].
  apply (mutate_fields g (set_subscriptions s m)).
Qed.

Lemma flag_dispatch call bound :
  (forall p m c m', call p m = Some (c, m') -> isDispatching m' = isDispatching m) ->
  forall a m c m',
    dispatch code call bound a m = Some (c, m') -> isDispatching m' = isDispatching m.
Proof.
  intros Hcall a m c m' Hd. apply dispatch_cases in Hd.
  destruct Hd as [(e & [= -> ->] & _)|(_ & Hidle & c1 & m1 & Hred & Hrest)];
    [reflexivity|].
  rewrite Hidle. destruct c1 as [s|e].
  - destruct Hrest as (c2 & m4 & Hn & [= -> ->]).
    eapply (notify_lift code (fun m m' => isDispatching m' = isDispatching m)) in Hn;
      [exact Hn|congruence..|exact Hcall|apply flag_unsubscribe|reflexivity].
  - injection Hrest as -> ->. reflexivity.
Qed.

Theorem flag_exec n : forall p m c m',
  exec code actionTypes n p m = Some (c, m') -> isDispatching m' = isDispatching m.
Proof.
  apply (exec_lift code actionTypes (fun m m' => isDispatching m' = isDispatching m));
    try congruence; try reflexivity.
  - apply flag_subscribe.
  - apply flag_unsubscribe.
  - apply flag_dispatch.
Qed.

Lemma flag_callFn n f args m c m' :
  callFn code (exec code actionTypes n) f args m = Some (c, m') ->
  isDispatching m' = isDispatching m.
Proof.
  apply (callFn_lift code (fun m m' => isDispatching m' = isDispatching m)).
  - apply flag_exec.
  - apply flag_unsubscribe.
Qed.

Lemma flag_notifyAll n d snapshot : forall m c m',
  notifyAll code (exec code actionTypes n) d snapshot m = Some (c, m') ->
  isDispatching m' = isDispatching m.
Proof.
  induction snapshot as [|f rest IH]; intros m c m'; cbn [notifyAll].
  - intros [= <- <-]. reflexivity.
  - destruct (callFn _ _ _ _ _) as [[[v|e] m1]|] eqn:Hf; [| |discriminate].
    + intros Hrest. rewrite (IH _ _ _ Hrest). apply flag_callFn in Hf. exact Hf.
    + intros [= <- <-]. apply flag_callFn in Hf. exact Hf.
Qed.
End SameFlag.

(** ** Reading the trace *)

Lemma notifiedIn_app d evs1 evs2 :
  notifiedIn d (evs1 ++ evs2) = notifiedIn d evs1 ++ notifiedIn d evs2.
Proof. apply omap_app. Qed.

Lemma notifiedIn_later d c evs :
  d < c -> Forall (since c) evs -> notifiedIn d evs = [].
Proof.
  intros Hlt. induction 1 as [|ev evs Hev _ IH]; [reflexivity|].
  unfold notifiedIn in *. cbn [omap list_omap]. rewrite IH.
  destruct ev; try reflexivity. cbn in Hev.
  destruct (decide (d0 = d)); [lia|reflexivity].
Qed.

Lemma notifiedIn_logs d logs : Forall isLog logs -> notifiedIn d logs = [].
Proof.
  induction 1 as [|ev evs Hev _ IH]; [reflexivity|].
  unfold notifiedIn in *. cbn. rewrite IH. destruct ev; cbn in Hev; tauto.
Qed.

Lemma listenerCalls_logs logs : Forall isLog logs -> listenerCalls logs = [].
Proof.
  induction 1 as [|ev evs Hev _ IH]; [reflexivity|].
  unfold listenerCalls in *. cbn. rewrite IH. destruct ev; cbn in Hev; tauto.
Qed.

Lemma reducerCalls_logs logs : Forall isLog logs -> reducerCalls logs = [].
Proof.
  induction 1 as [|ev evs Hev _ IH]; [reflexivity|].
  unfold reducerCalls in *. cbn. rewrite IH. destruct ev; cbn in Hev; tauto.
Qed.


(** ** A notification pass iterates a frozen snapshot *)

Section Snapshot.
Variable code : nat -> list value -> prog.
Variable actionTypes : ActionTypesT.
Variable n : nat.

Abbreviation call := (exec code actionTypes n).

Lemma keeps_callFn a f args m c m' :
  callFn code call f args m = Some (c, m') -> keeps a m m'.
Proof.
  apply (callFn_lift code (keeps a)).
  - apply keeps_exec.
  - apply keeps_unsubscribe.
Qed.

(** Reading [listeners[i]] from the heap at every step gives the same
    pass as walking the list that was there when the pass began. *)
Lemma notify_frozen fuel d L : forall i m c m',
  frozen L m ->
  notify code call fuel d L i m = Some (c, m') ->
  notifyAll code call d (drop i (deref m L)) m = Some (c, m') /\
  frozen L m' /\ deref m' L = deref m L.
Proof.
  induction fuel as [|fuel IH]; intros i m c m' Hfr; cbn [notify];
    destruct (deref m L !! i) as [f|] eqn:Hi; try discriminate.
  1,3: intros [= <- <-]; rewrite drop_ge by (apply lookup_ge_None; exact Hi);
       auto.
  rewrite (drop_S _ _ _ Hi). cbn [notifyAll].
  destruct (callFn _ _ _ _ _) as [[[v|e] m1]|] eqn:Hf; [| |discriminate].
  - destruct (keeps_callFn L _ _ _ _ _ Hf Hfr) as [Hfr1 Hsame].
    apply deref_eq in Hsame. change (deref (record _ m) L) with (deref m L) in Hsame.
    intros Hrest. destruct (IH _ _ _ _ Hfr1 Hrest) as (Hall & Hfr' & Hsame').
    rewrite <- Hsame. split; [exact Hall|]. split; [exact Hfr'|congruence].
  - destruct (keeps_callFn L _ _ _ _ _ Hf Hfr) as [Hfr1 Hsame].
    apply deref_eq in Hsame. intros [= <- <-]. auto.
Qed.

(** Conversely, with a bound no smaller than the snapshot the loop
    completes the pass. *)
Lemma notify_complete fuel d L : forall i m r,
  frozen L m ->
  length (deref m L) <= i + fuel ->
  notifyAll code call d (drop i (deref m L)) m = Some r ->
  notify code call fuel d L i m = Some r.
Proof.
  induction fuel as [|fuel IH]; intros i m r Hfr Hlen; cbn [notify];
    destruct (deref m L !! i) as [f|] eqn:Hi.
  - apply lookup_lt_Some in Hi. lia.
  - rewrite drop_ge by (apply lookup_ge_None; exact Hi). auto.
  - rewrite (drop_S _ _ _ Hi). cbn [notifyAll].
    destruct (callFn _ _ _ _ _) as [[[v|e] m1]|] eqn:Hf; auto.
    destruct (keeps_callFn L _ _ _ _ _ Hf Hfr) as [Hfr1 Hsame].
    apply deref_eq in Hsame. change (deref (record _ m) L) with (deref m L) in Hsame.
    intros Hrest. apply IH; [exact Hfr1|rewrite Hsame; lia|].
    rewrite Hsame. exact Hrest.
  - rewrite drop_ge by (apply lookup_ge_None; exact Hi). auto.
Qed.

(** The listener calls that pass [d] leaves in the trace are the snapshot,
    in order, each with no arguments; all of it when the pass completes. *)
Lemma notifyAll_trace d snapshot : forall m c m',
  d < dispatchCount m ->
  notifyAll code call d snapshot m = Some (c, m') ->
  d < dispatchCount m' /\
  exists evs k,
    trace m' = trace m ++ evs /\ Forall (since d) evs /\
    notifiedIn d evs = (fun f => (f, [])) <$> take k snapshot /\
    (forall v, c = Normal v -> k = length snapshot).
Proof.
  induction snapshot as [|f rest IH]; intros m c m' Hd; cbn [notifyAll].
  - intros [= <- <-]. split; [exact Hd|]. exists [], 0.
    rewrite app_nil_r. repeat split; auto.
  - destruct (callFn _ _ _ _ _) as [[[v|e] m1]|] eqn:Hf; [| |discriminate].
    + destruct (grows_callFn code actionTypes (dispatchCount m) _ _ _ _ _ _ Hf)
        as (H1 & _ & evs1 & Ht1 & Hs1); [cbn; lia|].
      cbn in H1, Ht1. intros Hrest.
      destruct (IH m1 c m' ltac:(lia) Hrest) as (Hd' & evs2 & k & Ht2 & Hs2 & Hn & Hk).
      split; [exact Hd'|]. exists (EvListener d f [] :: evs1 ++ evs2), (S k).
      split; [rewrite Ht2, Ht1, <- !app_assoc; reflexivity|].
      split.
      { constructor; [cbn; lia|]. apply Forall_app. split; [|exact Hs2].
        eapply Forall_impl; [exact Hs1|]. intros []; cbn; lia. }
      split.
      { change (EvListener d f [] :: evs1 ++ evs2)
          with ([EvListener d f []] ++ (evs1 ++ evs2)).
        rewrite !notifiedIn_app, (notifiedIn_later d _ evs1 Hd Hs1), Hn.
        unfold notifiedIn. cbn. rewrite decide_True by reflexivity. reflexivity. }
      intros v' Hc. cbn. f_equal. eauto.
    + destruct (grows_callFn code actionTypes (dispatchCount m) _ _ _ _ _ _ Hf)
        as (H1 & _ & evs1 & Ht1 & Hs1); [cbn; lia|].
      cbn in H1, Ht1. intros [= <- <-]. split; [lia|].
      exists (EvListener d f [] :: evs1), 1.
      split; [rewrite Ht1, <- !app_assoc; reflexivity|].
      split.
      { constructor; [cbn; lia|].
        eapply Forall_impl; [exact Hs1|]. intros []; cbn; lia. }
      split; [|discriminate].
      change (EvListener d f [] :: evs1) with ([EvListener d f []] ++ evs1).
      rewrite !notifiedIn_app, (notifiedIn_later d _ evs1 Hd Hs1).
      unfold notifiedIn. cbn. rewrite decide_True by reflexivity.
      rewrite take_0. reflexivity.
Qed.

Lemma notifyAll_state d snapshot : forall m c m',
  (forall f, f ∈ snapshot -> forall mi ci mj,
      callFn code call f [] mi = Some (ci, mj) -> currentState mj = currentState mi) ->
  notifyAll code call d snapshot m = Some (c, m') ->
  currentState m' = currentState m.
Proof.
  induction snapshot as [|f rest IH]; intros m c m' Hq; cbn [notifyAll].
  - intros [= <- <-]. reflexivity.
  - destruct (callFn _ _ _ _ _) as [[[v|e] m1]|] eqn:Hf; [| |discriminate].
    + intros Hrest. apply IH in Hrest.
      * rewrite Hrest. apply (Hq f) in Hf; [exact Hf|left].
      * intros g Hg. apply Hq. right. exact Hg.
    + intros [= <- <-]. apply (Hq f) in Hf; [exact Hf|left].
Qed.
End Snapshot.

(** ** dispatch *)

Section Dispatch.
Variable code : nat -> list value -> prog.
Variable actionTypes : ActionTypesT.
Variable n : nat.

Abbreviation call := (exec code actionTypes n).

(** What the reducer call leaves behind. *)
Lemma reducer_quiet a m c1 m1 :
  callFn code call (currentReducer m) [currentState m; a] (entering a m)
    = Some (c1, m1) ->
  isDispatching m1 = true /\ currentState m1 = currentState m /\
  currentListeners m1 = currentListeners m /\
  nextListeners m1 = nextListeners m /\ arrays m1 = arrays m /\
  subscriptions m1 = subscriptions m /\
  enhancedDispatch m1 = enhancedDispatch m /\
  dispatchCount m1 = S (dispatchCount m) /\
  exists logs,
    trace m1 = trace m ++ EvReducer (dispatchCount m) (currentState m) a :: logs /\
    Forall isLog logs.
Proof.
  intros Hred. apply busy_callFn in Hred.
  destruct (Hred eq_refl) as (A1 & A2 & A3 & A4 & A5 & A6 & A7 & A8 & logs & A9 & A10).
  cbn in *. repeat split; try assumption.
  exists logs. split; [|assumption]. rewrite A9, <- app_assoc. reflexivity.
Qed.

(** The snapshot point: the array about to be iterated is the next list as
    it stood when [dispatch] was entered, and it is frozen. *)
Lemma committed_snapshot a m s m1 :
  nextListeners m < length (arrays m) ->
  callFn code call (currentReducer m) [currentState m; a] (entering a m)
    = Some (Normal s, m1) ->
  frozen (nextListeners m1) (committed s m1) /\
  deref (committed s m1) (nextListeners m1) = nextList m /\
  dispatchCount (committed s m1) = S (dispatchCount m).
Proof.
  intros Hlt Hred.
  destruct (reducer_quiet _ _ _ _ Hred) as (_ & _ & _ & Hn & Ha & _ & _ & Hc & _).
  unfold frozen, nextList, deref. cbn. rewrite Hn, Ha. auto.
Qed.

End Dispatch.

(** ** Edits of the listener list *)

Lemma subscribe_edit (f : func) (m : machine) :
  WF m -> isDispatching m = false ->
  exists m',
    subscribe (VFun f) m = (Normal (VFun (FUnsub (length (subscriptions m)))), m') /\
    subscriptions m' = subscriptions m ++ [(true, f)] /\
    nextList m' = nextList m ++ [f] /\
    arrays m' !! currentListeners m = arrays m !! currentListeners m /\
    (forall a, frozen a m -> frozen a m' /\ arrays m' !! a = arrays m !! a) /\
    WF m' /\
    currentState m' = currentState m /\ isDispatching m' = false /\
    currentListeners m' = currentListeners m /\ trace m' = trace m.
Proof.
  intros Hwf Hidle. eexists. split; [apply subscribe_idle, Hidle|].
  set (m1 := set_subscriptions _ m).
  destruct (mutate_fields (fun l => l ++ [f]) m1) as (_ & B2 & B3 & B4 & B5 & _ & B7 & _).
  destruct (mutate_nextList (fun l => l ++ [f]) m1) as [_ Hnext]; [apply Hwf|].
  split; [exact B5|]. split; [exact Hnext|].
  split; [apply (mutate_current _ m1), Hwf|].
  split; [intros a; apply (mutate_frozen _ a m1)|].
  split; [apply WF_subscribe, Hwf|].
  repeat split; try assumption. rewrite B4. exact Hidle.
Qed.

Lemma unsubscribe_edit (h : nat) (l : func) (m : machine) :
  WF m -> isDispatching m = false -> subscriptions m !! h = Some (true, l) ->
  exists m' i,
    unsubscribe h m = (Normal VUndefined, m') /\
    nextList m !! i = Some l /\ (forall j, j < i -> nextList m !! j <> Some l) /\
    nextList m' = delete i (nextList m) /\
    subscriptions m' = <[h := (false, l)]> (subscriptions m) /\
    arrays m' !! currentListeners m = arrays m !! currentListeners m /\
    (forall a, frozen a m -> frozen a m' /\ arrays m' !! a = arrays m !! a) /\
    WF m' /\
    currentState m' = currentState m /\ isDispatching m' = false /\
    currentListeners m' = currentListeners m /\ trace m' = trace m.
Proof.
  intros Hwf Hidle Hh.
  destruct (unsubscribe_idle h l m Hidle Hh) as (g & Heq & Hg).
  specialize (Hg (proj1 Hwf)).
  assert (Hin : l ∈ nextList m).
  { destruct Hwf as (_ & Hperm & _). rewrite Hperm.
    unfold active. rewrite (active_unsubscribe _ h l Hh). left. }
  destruct (splice_indexOf l (nextList m) Hin) as (i & Hi & Hfirst & Hdel).
  eexists. exists i. split; [exact Heq|].
  set (m1 := set_subscriptions _ m).
  destruct (mutate_fields g m1) as (_ & B2 & B3 & B4 & B5 & _ & B7 & _).
  destruct (mutate_nextList g m1) as [_ Hnext]; [apply Hwf|].
  split; [exact Hi|]. split; [exact Hfirst|].
  split; [rewrite Hnext; change (nextList m1) with (nextList m); congruence|].
  split; [exact B5|].
  split; [apply (mutate_current _ m1), Hwf|].
  split; [intros a; apply (mutate_frozen _ a m1)|].
  split; [apply WF_unsubscribe; assumption|].
  repeat split; try assumption. rewrite B4. exact Hidle.
Qed.

Section Pass.
Variable code : nat -> list value -> prog.
Variable actionTypes : ActionTypesT.
Variable n : nat.

Abbreviation call := (exec code actionTypes n).

(** Whatever the listeners do, the listeners called by a dispatch are a
    prefix of the next list as it stood on entry: all of it when the
    dispatch returns, up to the listener that threw otherwise. *)
Lemma dispatch_pass a m c m' :
  nextListeners m < length (arrays m) -> isDispatching m = false ->
  dispatch code call n a m = Some (c, m') ->
  exists evs k,
    trace m' = trace m ++ evs /\
    notifiedIn (dispatchCount m) evs = (fun f => (f, [])) <$> take k (nextList m) /\
    (forall v, c = Normal v -> k = length (nextList m)).
Proof.
  intros Hlt Hidle Hd. apply dispatch_cases in Hd.
  destruct Hd as [(e & [= -> ->] & _)|(_ & _ & c1 & m1 & Hred & Hrest)].
  { exists [], 0. rewrite app_nil_r, take_0. repeat split. discriminate. }
  destruct (reducer_quiet code actionTypes n _ _ _ _ Hred)
    as (_ & _ & _ & _ & _ & _ & _ & _ & logs & Htr & Hlogs).
  destruct c1 as [s|e].
  - destruct Hrest as (c2 & m4 & Hn & [= -> ->]).
    destruct (committed_snapshot code actionTypes n a m s m1 Hlt Hred)
      as (Hfr & Hsnap & Hcount).
    destruct (notify_frozen code actionTypes n _ _ _ _ _ _ _ Hfr Hn) as (Hall & _ & _).
    rewrite drop_0, Hsnap in Hall.
    destruct (notifyAll_trace code actionTypes n (dispatchCount m) _ _ _ _
                ltac:(rewrite Hcount; lia) Hall)
      as (_ & evs & k & Ht & _ & Hnot & Hk).
    exists (EvReducer (dispatchCount m) (currentState m) a :: logs ++ evs), k.
    split; [|split].
    + rewrite Ht. change (trace (committed s m1)) with (trace m1).
      rewrite Htr, <- app_assoc. reflexivity.
    + change (EvReducer (dispatchCount m) (currentState m) a :: logs ++ evs)
        with ([EvReducer (dispatchCount m) (currentState m) a] ++ (logs ++ evs)).
      rewrite !notifiedIn_app, (notifiedIn_logs _ logs Hlogs). exact Hnot.
    + intros v Hv. destruct c2; [eauto|discriminate].
  - injection Hrest as -> ->.
    exists (EvReducer (dispatchCount m) (currentState m) a :: logs), 0.
    split; [exact Htr|]. split; [|discriminate].
    change (EvReducer (dispatchCount m) (currentState m) a :: logs)
      with ([EvReducer (dispatchCount m) (currentState m) a] ++ logs).
    rewrite notifiedIn_app, (notifiedIn_logs _ logs Hlogs), take_0. reflexivity.
Qed.

(** C2. Copy-on-write keeps every notification pass on a frozen snapshot.
    (0) The check before every edit: when [nextListeners] and
    [currentListeners] alias, [nextListeners] is redirected to a copy and the
    array behind [currentListeners] is not touched; when they do not, nothing
    happens.
    (1) A pass that reads a frozen array index by index is the pass over
    the list that array held when the pass began, and the array still
    holds it afterwards, whatever the listeners did meanwhile.
    (2) The listeners a dispatch calls are therefore the next list as it
    stood on entry, in order (all of them if it returns).
    (3) [subscribe] and [unsubscribe] copy before they write: the array
    behind [currentListeners], and any frozen array, is left as it was,
    while the next list, which the following dispatch will take as its
    snapshot, has the new listener appended, or the first entry equal to
    the unsubscribed listener removed. *)
Theorem listener_snapshot_invariant :
  (forall m,
      nextListeners m < length (arrays m) ->
      (nextListeners m = currentListeners m ->
       nextListeners (ensureCanMutateNextListeners m) <> currentListeners m /\
       nextList (ensureCanMutateNextListeners m) = nextList m /\
       arrays (ensureCanMutateNextListeners m) !! currentListeners m
         = arrays m !! currentListeners m) /\
      (nextListeners m <> currentListeners m ->
       ensureCanMutateNextListeners m = m)) /\
  (forall fuel d L i m c m',
      frozen L m ->
      notify code call fuel d L i m = Some (c, m') ->
      notifyAll code call d (drop i (deref m L)) m = Some (c, m') /\
      frozen L m' /\ deref m' L = deref m L) /\
  (forall a m c m',
      WF m -> isDispatching m = false ->
      dispatch code call n a m = Some (c, m') ->
      WF m' /\
      exists evs k,
        trace m' = trace m ++ evs /\
        notifiedIn (dispatchCount m) evs
          = (fun f => (f, [])) <$> take k (nextList m) /\
        (forall v, c = Normal v -> k = length (nextList m))) /\
  (forall f m,
      WF m -> isDispatching m = false ->
      exists m',
        subscribe (VFun f) m
          = (Normal (VFun (FUnsub (length (subscriptions m)))), m') /\
        nextList m' = nextList m ++ [f] /\
        deref m' (currentListeners m) = deref m (currentListeners m) /\
        (forall L, frozen L m -> frozen L m' /\ deref m' L = deref m L)) /\
  (forall h l m,
      WF m -> isDispatching m = false ->
      subscriptions m !! h = Some (true, l) ->
      exists m' i,
        unsubscribe h m = (Normal VUndefined, m') /\
        nextList m !! i = Some l /\
        nextList m' = delete i (nextList m) /\
        deref m' (currentListeners m) = deref m (currentListeners m) /\
        (forall L, frozen L m -> frozen L m' /\ deref m' L = deref m L)).
Proof.
  split; [|split; [|split; [|split]]].
  - intros m Hlt. split.
    + intros Heq.
      destruct (ensure_frozen (currentListeners m) m) as (_ & Hne & Hsame).
      { split; [lia|auto]. }
      split; [congruence|]. split; [apply ensure_nextList, Hlt|exact Hsame].
    + intros Hne. destruct (ensure_cases m) as [[? _]|[_ ?]]; [contradiction|assumption].
  - intros fuel d L i m c m'. apply notify_frozen.
  - intros a m c m' Hwf Hidle Hd. split.
    + eapply WF_dispatch; [|exact Hd|exact Hwf]. apply WF_exec.
    + eapply dispatch_pass; [apply Hwf|exact Hidle|exact Hd].
  - intros f m Hwf Hidle.
    destruct (subscribe_edit f m Hwf Hidle) as (m' & H1 & _ & H3 & H4 & H5 & _).
    exists m'. split; [exact H1|]. split; [exact H3|].
    split; [apply deref_eq, H4|].
    intros L HL. destruct (H5 L HL). split; [assumption|]. apply deref_eq. assumption.
  - intros h l m Hwf Hidle Hh.
    destruct (unsubscribe_edit h l m Hwf Hidle Hh)
      as (m' & i & H1 & H2 & _ & H3 & _ & H4 & H5 & _).
    exists m', i. split; [exact H1|]. split; [exact H2|]. split; [exact H3|].
    split; [apply deref_eq, H4|].
    intros L HL. destruct (H5 L HL). split; [assumption|]. apply deref_eq. assumption.
Qed.
End Pass.

(** ** When the reducer throws *)

Section ReducerFailure.
Variable code : nat -> list value -> prog.
Variable actionTypes : ActionTypesT.
Variable n : nat.

Abbreviation call := (exec code actionTypes n).

Lemma dispatch_reducer_throws a m e m1 :
  isDispatching m = false -> validAction a ->
  callFn code call (currentReducer m) [currentState m; a] (entering a m)
    = Some (Thrown e, m1) ->
  dispatch code call n a m = Some (Thrown e, set_isDispatching false m1) /\
  currentState m1 = currentState m /\
  currentListeners m1 = currentListeners m /\
  nextListeners m1 = nextListeners m /\ arrays m1 = arrays m /\
  subscriptions m1 = subscriptions m /\
  exists logs,
    trace m1 = trace m ++ EvReducer (dispatchCount m) (currentState m) a :: logs /\
    Forall isLog logs.
Proof.
  intros Hidle Hvalid Hred. split.
  - rewrite (dispatch_valid code call n a m Hvalid Hidle), Hred. reflexivity.
  - destruct (reducer_quiet code actionTypes n _ _ _ _ Hred)
      as (_ & A2 & A3 & A4 & A5 & A6 & _ & _ & Hlogs). auto 10.
Qed.

(** C3. If the reducer call raises [e], then [dispatch] raises [e] to its
    caller, the dispatch flag is false again, and the stored state is the
    one from before the call; the store is usable afterwards: [getState]
    returns that state and [subscribe] is accepted. *)
Theorem reducer_failure_is_atomic a m e m1 :
  isDispatching m = false -> validAction a ->
  callFn code call (currentReducer m) [currentState m; a] (entering a m)
    = Some (Thrown e, m1) ->
  exists m',
    dispatch code call n a m = Some (Thrown e, m') /\
    isDispatching m' = false /\
    currentState m' = currentState m /\
    getState m' = (Normal (currentState m), m') /\
    (forall f, exists m'',
        subscribe (VFun f) m'
          = (Normal (VFun (FUnsub (length (subscriptions m)))), m'')).
Proof.
  intros Hidle Hvalid Hred.
  destruct (dispatch_reducer_throws a m e m1 Hidle Hvalid Hred)
    as (Hd & Hs & _ & _ & _ & Hsubs & _).
  exists (set_isDispatching false m1).
  split; [exact Hd|]. split; [reflexivity|]. split; [exact Hs|].
  split; [unfold getState; cbn; rewrite Hs; reflexivity|].
  intros f. eexists. rewrite subscribe_idle by reflexivity.
  cbn [subscriptions set_isDispatching]. rewrite Hsubs. reflexivity.
Qed.

(** C10. If the reducer call raises, the dispatch calls no listener: the
    trace gains the reducer call and what the reducer logged, nothing
    else, and [currentListeners] and the arrays are as before. *)
Theorem failed_dispatch_notifies_nobody a m e m1 :
  isDispatching m = false -> validAction a ->
  callFn code call (currentReducer m) [currentState m; a] (entering a m)
    = Some (Thrown e, m1) ->
  exists m' evs,
    dispatch code call n a m = Some (Thrown e, m') /\
    trace m' = trace m ++ evs /\
    listenerCalls evs = [] /\
    currentListeners m' = currentListeners m /\
    nextListeners m' = nextListeners m /\
    arrays m' = arrays m.
Proof.
  intros Hidle Hvalid Hred.
  destruct (dispatch_reducer_throws a m e m1 Hidle Hvalid Hred)
    as (Hd & _ & Hc & Hn & Ha & _ & logs & Ht & Hlogs).
  exists (set_isDispatching false m1),
         (EvReducer (dispatchCount m) (currentState m) a :: logs).
  split; [exact Hd|]. split; [exact Ht|].
  split; [|auto].
  change (listenerCalls (EvReducer (dispatchCount m) (currentState m) a :: logs))
    with (listenerCalls logs).
  apply listenerCalls_logs, Hlogs.
Qed.
End ReducerFailure.

(** ** The guards *)

Section Guards.
Variable code : nat -> list value -> prog.
Variable call : prog -> machine -> option (completion * machine).
Variable bound : nat.

Lemma dispatch_calls_reducer a m r :
  validAction a -> isDispatching m = false ->
  dispatch code call bound a m = Some r ->
  exists c1 m1,
    callFn code call (currentReducer m) [currentState m; a] (entering a m)
      = Some (c1, m1).
Proof.
  intros Hvalid Hidle Hd. rewrite dispatch_valid in Hd by assumption.
  destruct (callFn _ _ _ _ _) as [[c1 m1]|]; [eauto|discriminate].
Qed.

(** C4, as the code has it. While the dispatch flag is set, [getState],
    [subscribe] and [dispatch] fail with an error and change nothing, and
    so does the [unsubscribe] of a subscription that is still live; the
    [unsubscribe] of a subscription already removed returns silently.
    While the flag is clear, none of the four is turned away by its
    reentrancy guard: [getState] returns the state, [subscribe] and
    [unsubscribe] do not raise their reentrancy errors, and [dispatch] of
    a well-shaped action goes on to call the reducer. *)
Theorem reentrancy_guard m :
  (isDispatching m = true ->
   getState m = (Thrown GetStateWhileDispatching, m) /\
   (forall l, exists e,
       subscribe l m = (Thrown e, m) /\
       (typeof l = TyFunction -> e = SubscribeWhileDispatching)) /\
   (forall a, exists e,
       dispatch code call bound a m = Some (Thrown e, m) /\
       (validAction a -> e = ReducersMayNotDispatch)) /\
   (forall h l, subscriptions m !! h = Some (true, l) ->
                unsubscribe h m = (Thrown UnsubscribeWhileDispatching, m)) /\
   (forall h l, subscriptions m !! h = Some (false, l) ->
                unsubscribe h m = (Normal VUndefined, m))) /\
  (isDispatching m = false ->
   getState m = (Normal (currentState m), m) /\
   (forall l c m', subscribe l m = (c, m') -> c <> Thrown SubscribeWhileDispatching) /\
   (forall h c m', unsubscribe h m = (c, m') -> c <> Thrown UnsubscribeWhileDispatching) /\
   (forall a r, validAction a -> dispatch code call bound a m = Some r ->
                exists c1 m1,
                  callFn code call (currentReducer m) [currentState m; a]
                    (entering a m) = Some (c1, m1))).
Proof.
  split; intros Hflag.
  - split; [unfold getState; rewrite Hflag; reflexivity|].
    split; [|split; [|split]].
    + intros l. unfold subscribe. destruct l; try (eexists; split; [reflexivity|discriminate]).
      rewrite Hflag. eauto.
    + intros a. apply dispatch_busy, Hflag.
    + intros h l Hh. unfold unsubscribe. rewrite Hh, Hflag. reflexivity.
    + intros h l Hh. unfold unsubscribe. rewrite Hh. reflexivity.
  - split; [unfold getState; rewrite Hflag; reflexivity|].
    split; [|split].
    + intros l c m'. unfold subscribe. destruct l; try (intros [= <- _]; discriminate).
      rewrite Hflag. intros [= <- _]; discriminate.
    + intros h c m'. unfold unsubscribe.
      destruct (subscriptions m !! h) as [[[] l]|]; cbn [negb];
        try (intros [= <- _]; discriminate).
      rewrite Hflag. intros [= <- _]; discriminate.
    + intros a r Hvalid Hd. eapply dispatch_calls_reducer; eassumption.
Qed.
End Guards.

(** ** The plain-object test *)

Lemma protoTop_chain : forall o : object,
  protoTop o = o \/ protoTop o ∈ protoChain o.
Proof.
  fix IH 1. intros [i [p|] ps]; cbn [protoTop protoChain].
  - right. destruct (IH p) as [->|Hin]; [left|right; exact Hin].
  - left. reflexivity.
Qed.

(** For objects with distinct identities along the chain, the test holds
    exactly when the chain has length one: [obj -> proto -> null]. *)
Lemma isPlainObject_one_link (o : object) :
  distinctChain o ->
  isPlainObject (VObj o) = true <-> length (protoChain o) = 1.
Proof.
  destruct o as [i [p|] ps]; cbn [isPlainObject getPrototypeOf protoTop protoChain].
  2:{ intros _. split; discriminate. }
  intros Hnd. unfold distinctChain in Hnd. cbn in Hnd.
  apply NoDup_cons in Hnd as [_ Hnd]. apply NoDup_cons in Hnd as [Hp _].
  destruct p as [j [q|] qs]; cbn [protoTop protoChain ident length] in *.
  - split; [|discriminate]. intros Heq. apply Nat.eqb_eq in Heq. exfalso. apply Hp.
    rewrite Heq. apply (list_elem_of_fmap_2 ident).
    change (protoTop q ∈ protoChain (Obj j (Some q) qs)). cbn [protoChain].
    destruct (protoTop_chain q) as [->|Hin]; [left|right; exact Hin].
  - split; [reflexivity|]. intros _. apply Nat.eqb_refl.
Qed.

Section Validation.
Variable code : nat -> list value -> prog.
Variable call : prog -> machine -> option (completion * machine).
Variable bound : nat.

(** C8. [dispatch(a)] fails, leaving the machine (state, listeners,
    trace) exactly as it was, when [a] fails the plain-object test or its
    [type] reads as undefined. An action that passes both checks is not
    turned away by them: with the flag set the error is the reentrancy
    one, with the flag clear the reducer gets called. The test itself
    accepts exactly the objects whose prototype chain has one link. *)
Theorem action_shape_validation a m :
  (isPlainObject a = false ->
   dispatch code call bound a m = Some (Thrown ActionNotPlainObject, m)) /\
  (isPlainObject a = true -> typeof (actionType a) = TyUndefined ->
   dispatch code call bound a m = Some (Thrown ActionTypeUndefined, m)) /\
  (validAction a ->
   (isDispatching m = true ->
    dispatch code call bound a m = Some (Thrown ReducersMayNotDispatch, m)) /\
   (isDispatching m = false ->
    forall r, dispatch code call bound a m = Some r ->
              exists c1 m1,
                callFn code call (currentReducer m) [currentState m; a]
                  (entering a m) = Some (c1, m1))) /\
  (isPlainObject a = true ->
   exists o, a = VObj o /\ getPrototypeOf o <> None /\
             (distinctChain o -> length (protoChain o) = 1)) /\
  (forall o, a = VObj o -> distinctChain o -> length (protoChain o) = 1 ->
             isPlainObject a = true).
Proof.
  split; [|split; [|split; [|split]]].
  - intros Hp. unfold dispatch. rewrite Hp. reflexivity.
  - intros Hp Ht. unfold dispatch. rewrite Hp. cbn [negb].
    rewrite decide_True by assumption. reflexivity.
  - intros Hvalid. split.
    + intros Hbusy. destruct (dispatch_busy code call bound a m Hbusy) as (e & -> & He).
      rewrite (He Hvalid). reflexivity.
    + intros Hidle r. apply dispatch_calls_reducer; assumption.
  - intros Hp. destruct a; try discriminate. exists o. split; [reflexivity|].
    split.
    + destruct o as [i [p|] ps]; cbn in *; congruence.
    + intros Hd. apply isPlainObject_one_link; assumption.
  - intros o -> Hd Hlen. apply isPlainObject_one_link; assumption.
Qed.
End Validation.

(** ** unsubscribe *)

Section Unsubscribe.
Variable code : nat -> list value -> prog.
Variable actionTypes : ActionTypesT.

Lemma removed_refl m : staysRemoved m m.
Proof. intros h l H. exact H. Qed.

Lemma removed_trans m1 m2 m3 :
  staysRemoved m1 m2 -> staysRemoved m2 m3 -> staysRemoved m1 m3.
Proof. intros H12 H23 h l H. apply H23, H12, H. Qed.

Lemma removed_same m m' : subscriptions m' = subscriptions m -> staysRemoved m m'.
Proof. intros E h l H. rewrite E. exact H. Qed.

Lemma removed_subscribe v m c m' : subscribe v m = (c, m') -> staysRemoved m m'.
Proof.
  intros Hs. destruct v; try (injection Hs as <- <-; apply removed_refl).
  destruct (isDispatching m) eqn:Hflag.
  - unfold subscribe in Hs. rewrite Hflag in Hs. injection Hs as <- <-.
    apply removed_refl.
  - rewrite subscribe_idle in Hs by assumption. injection Hs as <- <-.
    intros h l Hh.
    destruct (mutate_fields (fun l => l ++ [f])
                (set_subscriptions (subscriptions m ++ [(true, f)]) m))
      as (_ & _ & _ & _ & -> & _).
    cbn. apply lookup_app_l_Some, Hh.
Qed.

Lemma removed_unsubscribe h m c m' : unsubscribe h m = (c, m') -> staysRemoved m m'.
Proof.
  intros Hu.
  destruct (subscriptions m !! h) as [[[] l]|] eqn:Hh.
  - destruct (isDispatching m) eqn:Hflag.
    + unfold unsubscribe in Hu. rewrite Hh, Hflag in Hu. injection Hu as <- <-.
      apply removed_refl.
    + destruct (unsubscribe_idle h l m Hflag Hh) as (g & Heq & _).
      rewrite Heq in Hu. injection Hu as <- <-. intros h' l' Hh'.
      destruct (mutate_fields g
                  (set_subscriptions (<[h := (false, l)]> (subscriptions m)) m))
        as (_ & _ & _ & _ & -> & _).
      cbn. rewrite list_lookup_insert_ne by congruence. exact Hh'.
  - unfold unsubscribe in Hu. rewrite Hh in Hu. injection Hu as <- <-.
    apply removed_refl.
  - unfold unsubscribe in Hu. rewrite Hh in Hu. injection Hu as <- <-.
    apply removed_refl.
Qed.

Lemma removed_dispatch call bound :
  (forall p m c m', call p m = Some (c, m') -> staysRemoved m m') ->
  forall a m c m', dispatch code call bound a m = Some (c, m') -> staysRemoved m m'.
Proof.
  intros Hcall.
  apply (dispatch_lift code staysRemoved removed_refl removed_trans); auto;
    try (intros; apply removed_same; reflexivity).
  apply removed_unsubscribe.
Qed.

(** A subscription that has been removed stays removed. *)
Theorem removed_exec n : forall p m c m',
  exec code actionTypes n p m = Some (c, m') -> staysRemoved m m'.
Proof.
  apply (exec_lift code actionTypes staysRemoved removed_refl removed_trans);
    try (intros; apply removed_same; reflexivity).
  - apply removed_subscribe.
  - apply removed_unsubscribe.
  - apply removed_dispatch.
Qed.

(** C9. The [unsubscribe] function of a subscription to [l].
    (0) [subscribe(l)] returns such a function, for a fresh subscription
    that is live.
    (1) Called on a live subscription while the store is idle, it returns
    normally and removes exactly one entry equal to [l] from the next list
    (the first one), after the copy-on-write check: the array behind
    [currentListeners] is not written.
    (2) Called again, now or after anything else has run, it returns
    normally and changes nothing, whether the flag is set or not: the
    test of [isSubscribed] comes before the test of [isDispatching].
    (3) Called on a live subscription while the flag is set, it fails
    with an error and changes nothing. *)
Theorem unsubscribe_contract h l m :
  WF m ->
  (isDispatching m = false ->
   exists m1,
     subscribe (VFun l) m
       = (Normal (VFun (FUnsub (length (subscriptions m)))), m1) /\
     subscriptions m1 !! length (subscriptions m) = Some (true, l) /\
     forall call args,
       callFn code call (FUnsub (length (subscriptions m))) args m1
       = Some (unsubscribe (length (subscriptions m)) m1)) /\
  (subscriptions m !! h = Some (true, l) -> isDispatching m = false ->
   exists m' i,
     unsubscribe h m = (Normal VUndefined, m') /\
     nextList m !! i = Some l /\
     (forall j, j < i -> nextList m !! j <> Some l) /\
     nextList m' = delete i (nextList m) /\
     S (length (nextList m')) = length (nextList m) /\
     deref m' (currentListeners m) = deref m (currentListeners m) /\
     subscriptions m' !! h = Some (false, l) /\
     unsubscribe h m' = (Normal VUndefined, m') /\
     WF m') /\
  (subscriptions m !! h = Some (false, l) ->
   unsubscribe h m = (Normal VUndefined, m) /\
   forall n p c m',
     exec code actionTypes n p m = Some (c, m') ->
     unsubscribe h m' = (Normal VUndefined, m')) /\
  (subscriptions m !! h = Some (true, l) -> isDispatching m = true ->
   unsubscribe h m = (Thrown UnsubscribeWhileDispatching, m)).
Proof.
  intros Hwf. split; [|split; [|split]].
  - intros Hidle.
    destruct (subscribe_edit l m Hwf Hidle) as (m1 & Hs & Hsubs & _).
    exists m1. split; [exact Hs|]. split; [|reflexivity].
    rewrite Hsubs. apply list_lookup_middle. reflexivity.
  - intros Hh Hidle.
    destruct (unsubscribe_edit h l m Hwf Hidle Hh)
      as (m' & i & H1 & H2 & H3 & H4 & H5 & H6 & _ & H8 & _).
    assert (Hh' : subscriptions m' !! h = Some (false, l)).
    { rewrite H5. apply list_lookup_insert_eq. eapply lookup_lt_Some, Hh. }
    exists m', i.
    split; [exact H1|]. split; [exact H2|]. split; [exact H3|].
    split; [exact H4|].
    split; [rewrite H4, length_delete by eauto; apply lookup_lt_Some in H2; lia|].
    split; [apply deref_eq, H6|]. split; [exact Hh'|].
    split; [unfold unsubscribe; rewrite Hh'; reflexivity|exact H8].
  - intros Hh. split; [unfold unsubscribe; rewrite Hh; reflexivity|].
    intros n p c m' He. apply removed_exec in He.
    unfold unsubscribe. rewrite (He h l Hh). reflexivity.
  - intros Hh Hbusy. unfold unsubscribe. rewrite Hh, Hbusy. reflexivity.
Qed.
End Unsubscribe.

(** ** createStore *)

Section Creation.
Variable code : nat -> list value -> prog.
Variable actionTypes : ActionTypesT.
Variable enhancers : func -> enhancerFn.

Lemma initAction_valid : validAction (initAction actionTypes).
Proof. split; [reflexivity|]. cbn. discriminate. Qed.

(** C7. Built from a callable reducer [r] and a preloaded state [s0] (not
    a function, or it would be taken for the enhancer) with no enhancer,
    the store has made exactly one dispatch, of the INIT action: the
    reducer was called once, with [(s0, INIT)]; the state is what it
    returned; no listener is registered or was called; the flag is false. *)
Theorem createStore_dispatches_init n r s0 arg3 s1 m1 :
  typeof s0 <> TyFunction ->
  callFn code (exec code actionTypes n) r [s0; initAction actionTypes]
    (entering (initAction actionTypes) (initial r s0)) = Some (Normal s1, m1) ->
  exists m',
    createStore code actionTypes enhancers (S n) (VFun r) s0 VUndefined arg3
      = Some (Created rawStore m') /\
    getState m' = (Normal s1, m') /\
    nextList m' = [] /\ deref m' (currentListeners m') = [] /\
    subscriptions m' = [] /\
    isDispatching m' = false /\
    dispatchCount m' = 1 /\
    reducerCalls (trace m') = [(s0, initAction actionTypes)] /\
    listenerCalls (trace m') = [] /\
    WF m'.
Proof.
  intros Hs0 Hred.
  assert (Hnf : isFunction s0 = false).
  { unfold isFunction. apply bool_decide_eq_false. exact Hs0. }
  destruct (reducer_quiet code actionTypes n _ (initial r s0) _ _ Hred)
    as (_ & _ & A3 & A4 & A5 & A6 & _ & A8 & logs & A9 & Hlogs).
  cbn in A3, A4, A5, A6, A8, A9.
  exists (committed s1 m1).
  split.
  { cbn [createStore]. rewrite Hnf.
    change (isFunction VUndefined) with false.
    change (isUndefined VUndefined) with true.
    cbn [andb orb negb].
    fold (initAction actionTypes).
    rewrite (dispatch_valid code _ n _ (initial r s0) initAction_valid eq_refl).
    cbn [currentReducer currentState initial]. rewrite Hred.
    destruct n; cbn [notify]; unfold deref; cbn; rewrite A4, A5; reflexivity. }
  split; [reflexivity|].
  unfold nextList, deref. cbn. rewrite A4, A5, A6, A8, A9.
  repeat (split; [reflexivity|]).
  pose proof (reducerCalls_logs logs Hlogs) as Hrc.
  pose proof (listenerCalls_logs logs Hlogs) as Hlc.
  unfold reducerCalls, listenerCalls in *.
  split; [cbn; rewrite Hrc; reflexivity|].
  split; [cbn; exact Hlc|].
  unfold WF, nextList, active, registered, deref. cbn. rewrite A4, A5, A6. cbn.
  split; [lia|]. split; [reflexivity|constructor].
Qed.

(** A store built without an enhancer is the plain one, well formed and idle. *)
Lemma createStore_plain_inv k r s0 arg3 store m0 :
  typeof s0 <> TyFunction ->
  createStore code actionTypes enhancers k (VFun r) s0 VUndefined arg3
    = Some (Created store m0) ->
  store = rawStore /\ WF m0 /\ isDispatching m0 = false.
Proof.
  intros Hs0 Hc. destruct k as [|k]; [discriminate|].
  assert (Hnf : isFunction s0 = false).
  { unfold isFunction. apply bool_decide_eq_false. exact Hs0. }
  cbn [createStore] in Hc. rewrite Hnf in Hc.
  change (isFunction VUndefined) with false in Hc.
  change (isUndefined VUndefined) with true in Hc.
  cbn [andb orb negb] in Hc.
  destruct (dispatch code _ k _ (initial r s0)) as [[[v|e] m]|] eqn:Hd;
    try discriminate.
  injection Hc as <- <-. split; [reflexivity|]. split.
  - eapply WF_dispatch; [|exact Hd|apply WF_initial]. apply WF_exec.
  - apply flag_dispatch in Hd; [exact Hd|]. apply flag_exec.
Qed.
End Creation.

(** ** The listener array and the subscriptions *)

(** Two sublists of a list without repetition that hold the same elements
    are the same list. *)
Lemma sublists_of_NoDup {A : Type} (l : list A) : forall l1 l2 : list A,
  NoDup l -> l1 `sublist_of` l -> l2 `sublist_of` l -> l1 ≡ₚ l2 -> l1 = l2.
Proof.
  induction l as [|x l IH]; intros l1 l2 Hnd H1 H2 Hp.
  - apply sublist_nil_r in H1, H2. congruence.
  - apply NoDup_cons in Hnd as [Hx Hnd].
    apply sublist_cons_r in H1 as [H1|(l1' & -> & H1)];
      apply sublist_cons_r in H2 as [H2|(l2' & -> & H2)].
    + apply IH; assumption.
    + exfalso. apply Hx. apply (elem_of_sublist l1 l x); [|exact H1].
      rewrite Hp. apply list_elem_of_here.
    + exfalso. apply Hx. apply (elem_of_sublist l2 l x); [|exact H2].
      rewrite <- Hp. apply list_elem_of_here.
    + f_equal. apply IH; try assumption.
      apply (Permutation_cons_inv Hp).
Qed.

Lemma active_registered (m : machine) : active m `sublist_of` registered m.
Proof. unfold active, registered. apply fmap_sublist, sublist_filter. Qed.

(** As long as no listener function has been subscribed twice, the array
    behind [nextListeners] is the list of the live subscriptions, in the
    order in which they were made. *)
Lemma registration_order (m : machine) :
  WF m -> NoDup (registered m) -> nextList m = active m.
Proof.
  intros (_ & Hperm & Hsub) Hnd.
  exact (sublists_of_NoDup _ _ _ Hnd Hsub (active_registered m) Hperm).
Qed.

(** ** The state changes only where a reducer is called *)

Section Steady.
Variable code : nat -> list value -> prog.
Variable actionTypes : ActionTypesT.









End Steady.

(** ** The dispatch contract *)

Section DispatchContract.
Variable code : nat -> list value -> prog.
Variable actionTypes : ActionTypesT.
Variable enhancers : func -> enhancerFn.
Variable n : nat.

Abbreviation call := (exec code actionTypes n).

End DispatchContract.

(** ** applyMiddleware *)

Section Middleware.
Variable code : nat -> list value -> prog.
Variable actionTypes : ActionTypesT.
Variable call : prog -> machine -> option (completion * machine).
Variable bound : nat.

Abbreviation run' := (run code actionTypes call bound).

Lemma run_bind p k : forall m,
  run' (bind p k) m =
  match run' p m with
  | Some (Normal v, m1) => run' (k v) m1
  | other => other
  end.
Proof.
  induction p as [v|e|o k' IH]; intros m; cbn [bind run]; try reflexivity.
  destruct (perform _ _ _ _ _ _) as [[c m1]|]; [apply IH|reflexivity].
Qed.

Lemma records_app evs1 evs2 m :
  records (evs1 ++ evs2) m = records evs2 (records evs1 m).
Proof. apply fold_left_app. Qed.

(** Way in: the tags in list order; way out: in reverse order. *)
Lemma onion_taggers api inner a : forall tags m,
  run' (onion api (map tagger tags) inner a) m =
  match run' (inner a) (records (map (fun t => EvLog t.1) tags) m) with
  | Some (Normal v, m1) =>
      Some (Normal v, records (map (fun t => EvLog t.2) (rev tags)) m1)
  | other => other
  end.
Proof.
  induction tags as [|[pre post] tags IH]; intros m.
  - cbn. destruct (run' (inner a) m) as [[[v|e] m1]|]; reflexivity.
  - cbn [map onion fold_right tagger fst snd run perform records fold_left].
    rewrite run_bind. fold (onion api (map tagger tags) inner). rewrite IH.
    fold (records (map (fun t => EvLog t.1) tags) (record (EvLog pre) m)).
    destruct (run' (inner a) _) as [[[v|e] m1]|]; try reflexivity.
    cbn [run perform rev]. rewrite map_app, records_app. reflexivity.
Qed.
(** Way in: the layers' code in list order; then the inner dispatch; way
    out: the layers' code in reverse list order. *)
Lemma onion_layers api inner a : forall ls m,
  run' (onion api (map layered ls) inner a) m =
  run' (bind (allIn api ls a) (fun _ =>
          bind (inner a) (fun r => allOut api ls a r))) m.
Proof.
  induction ls as [|l ls IH]; intros m.
  - cbn [map onion fold_right allIn allOut bind]. rewrite run_bind.
    destruct (run' (inner a) m) as [[[v|e] m1]|]; reflexivity.
  - cbn [map onion fold_right allIn allOut]. fold (onion api (map layered ls) inner).
    unfold layered at 1. rewrite !run_bind.
    destruct (run' (wayIn l api a) m) as [[[v|e] m1]|]; try reflexivity.
    rewrite !run_bind, IH, !run_bind.
    destruct (run' (allIn api ls a) m1) as [[[v2|e2] m2]|]; try reflexivity.
    rewrite !run_bind.
    destruct (run' (inner a) m2) as [[[v3|e3] m3]|]; try reflexivity.
    rewrite !run_bind.
    destruct (run' (allOut api ls a v3) m3) as [[[v4|e4] m4]|]; reflexivity.
Qed.
End Middleware.

Lemma onion_compose (api : middlewareAPI) (middlewares : list middlewareFn)
    (inner : dispatchFn) :
  compose undefinedDispatch
    (map (fun middleware => unary undefinedDispatch (middleware api)) middlewares)
    [inner]
  = onion api middlewares inner.
Proof.
  rewrite <- (map_map (fun middleware : middlewareFn => middleware api)
                (unary undefinedDispatch)).
  rewrite compose_unary. unfold onion.
  induction middlewares as [|mw rest IH]; [reflexivity|].
  cbn [map fold_right]. rewrite IH. reflexivity.
Qed.

(** C5. [applyMiddleware(m1, ..., mn)] replaces the store's dispatch by
    [m1(api)(m2(api)(... mn(api)(store.dispatch)))]: the [next] of each
    middleware is the dispatch built from the middlewares listed after it,
    and the innermost [next] is the store's own dispatch. When every
    middleware runs some code, calls [next], and runs some more code on what
    [next] returned, dispatching an action runs the way-in code of the
    middlewares in list order, then the store's dispatch, then their way-out
    code in reverse list order. In particular, when each logs a tag before
    and a tag after, the first tags are logged in list order and the
    second tags in reverse list order. *)
Theorem middleware_onion_order (middlewares : list middlewareFn)
    (createStore' : createStoreFn) (reducer preloadedState : value)
    (store : StoreAPI) (m : machine) :
  createStore' reducer preloadedState = Some (Created store m) ->
  exists dispatch' : dispatchFn,
    applyMiddleware middlewares createStore' reducer preloadedState
      = Some (Created
                {| api_dispatch := dispatch';
                   api_subscribe := api_subscribe store;
                   api_getState := api_getState store;
                   api_replaceReducer := api_replaceReducer store |}
                (set_enhancedDispatch (Some dispatch') m)) /\
    dispatch' = onion (apiOf store) middlewares (api_dispatch store) /\
    (forall before mw after,
        middlewares = before ++ mw :: after ->
        dispatch' =
        onion (apiOf store) before
          (mw (apiOf store) (onion (apiOf store) after (api_dispatch store)))) /\
    (forall layers code actionTypes call bound a m0,
        middlewares = map layered layers ->
        run code actionTypes call bound (dispatch' a) m0 =
        run code actionTypes call bound
          (bind (allIn (apiOf store) layers a) (fun _ =>
             bind (api_dispatch store a) (fun r =>
               allOut (apiOf store) layers a r))) m0) /\
    (forall tags code actionTypes call bound a m0,
        middlewares = map tagger tags ->
        run code actionTypes call bound (dispatch' a) m0 =
        match run code actionTypes call bound (api_dispatch store a)
                (records (map (fun t => EvLog t.1) tags) m0) with
        | Some (Normal v, m1) =>
            Some (Normal v, records (map (fun t => EvLog t.2) (rev tags)) m1)
        | other => other
        end).
Proof.
  intros Hcs. exists (onion (apiOf store) middlewares (api_dispatch store)).
  split; [|split; [reflexivity|split; [|split]]].
  - unfold applyMiddleware. rewrite Hcs.
    fold (apiOf store). rewrite onion_compose. reflexivity.
  - intros before mw after ->. unfold onion. rewrite fold_right_app. reflexivity.
  - intros layers code actionTypes call bound a m0 ->. apply onion_layers.
  - intros tags code actionTypes call bound a m0 ->. apply onion_taggers.
Qed.

(** * Concrete runs *)

Lemma Demo_created :
  createStore Demo.code Demo.types Demo.enhancers 8
    (VFun (FUser 0)) VUndefined VUndefined VUndefined
  = Some (Created rawStore Demo.created).
Proof. vm_compute. reflexivity. Qed.

Ltac wf_by_computation :=
  split; [cbn; lia|];
  split; [unfold nextList, active, deref; cbn; reflexivity
         |unfold nextList, registered, deref; cbn; repeat constructor].

Lemma Demo_created_WF : WF Demo.created.
Proof. wf_by_computation. Qed.

Lemma Demo_withL1_WF : WF Demo.withL1.
Proof. wf_by_computation. Qed.

Lemma Demo_withL2_WF : WF Demo.withL2.
Proof. wf_by_computation. Qed.

Lemma Demo_unsubscribed_WF : WF Demo.unsubscribed.
Proof. wf_by_computation. Qed.

Lemma Demo_INC_valid : validAction Demo.INC.
Proof. split; [reflexivity|]. cbn. discriminate. Qed.

(** The plain-object test on an object literal, on [Object.create(null)], on
    an instance of a class, and on [null]. *)
Example isPlainObject_samples :
  isPlainObject (literal 5 [("type", VStr "X")]) = true /\
  isPlainObject (VObj (Obj 5 None [])) = false /\
  isPlainObject (VObj (Obj 5 (Some (Obj 6 (Some ObjectPrototype) [])) [])) = false /\
  isPlainObject VNull = false.
Proof. repeat split. Qed.

(** [splice(-1, 1)] would remove the last element; [unsubscribe_edit] shows
    that [unsubscribe] never gets there, its listener being in the list. *)
Example splice_not_found :
  indexOf (FUser 9) [FUser 1; FUser 2] = (-1)%Z /\
  splice1 (-1) [FUser 1; FUser 2] = [FUser 1].
Proof. split; reflexivity. Qed.

(** The end-to-end scenario of the specification: three INC give 3. *)
Example three_increments :
  fst <$> Demo.run
    (Call (ODispatch Demo.INC) (fun _ =>
     Call (ODispatch Demo.INC) (fun _ =>
     Call (ODispatch Demo.INC) (fun _ =>
     Call OGetState rethrow)))) Demo.created
  = Some (Normal (VNum 3)).
Proof. vm_compute. reflexivity. Qed.

(** A listener that subscribes another during a dispatch: the newcomer is
    not called in that dispatch, and is called in the next one. *)
Example subscribe_during_dispatch :
  (fun r => notifiedIn 1 (trace r.2)) <$> Demo.run (Call (ODispatch Demo.INC) rethrow) Demo.withL1
    = Some [(FUser 1, [])] /\
  (fun r => notifiedIn 2 (trace r.2)) <$>
    Demo.run (Call (ODispatch Demo.INC) (fun _ => Call (ODispatch Demo.INC) rethrow))
      Demo.withL1
    = Some [(FUser 1, []); (FUser 2, [])].
Proof. split; vm_compute; reflexivity. Qed.




Lemma Demo_dispatch_withL1 :
  dispatch Demo.code (exec Demo.code Demo.types 4) 4 Demo.INC Demo.withL1
  = Some (Normal Demo.INC, Demo.afterL1).
Proof. vm_compute. reflexivity. Qed.

Lemma listener_snapshot_invariant_witness :
  WF Demo.withL1 /\ isDispatching Demo.withL1 = false /\
  dispatch Demo.code (exec Demo.code Demo.types 4) 4 Demo.INC Demo.withL1
    = Some (Normal Demo.INC, Demo.afterL1) /\
  nextList Demo.afterL1 = [FUser 1; FUser 2] /\
  WF Demo.afterL1 /\
  exists evs,
    trace Demo.afterL1 = trace Demo.withL1 ++ evs /\
    notifiedIn 1 evs = [(FUser 1, [])].
Proof.
  split; [exact Demo_withL1_WF|]. split; [reflexivity|].
  split; [exact Demo_dispatch_withL1|]. split; [reflexivity|].
  destruct (listener_snapshot_invariant Demo.code Demo.types 4) as (_ & _ & Hpass & _).
  destruct (Hpass Demo.INC Demo.withL1 _ _ Demo_withL1_WF eq_refl Demo_dispatch_withL1)
    as (Hwf & evs & k & Ht & Hn & Hk).
  split; [exact Hwf|]. exists evs. split; [exact Ht|].
  rewrite (Hk _ eq_refl) in Hn. exact Hn.
Defined.

Lemma reducer_failure_is_atomic_witness :
  isDispatching (set_currentReducer (FUser 4) Demo.created) = false /\
  validAction Demo.INC /\
  exists m',
    dispatch Demo.code (exec Demo.code Demo.types 4) 4 Demo.INC
      (set_currentReducer (FUser 4) Demo.created)
      = Some (Thrown (UserError (VStr "boom")), m') /\
    isDispatching m' = false /\
    getState m' = (Normal (VNum 0), m').
Proof.
  split; [reflexivity|]. split; [exact Demo_INC_valid|].
  destruct (reducer_failure_is_atomic Demo.code Demo.types 4 Demo.INC
              (set_currentReducer (FUser 4) Demo.created)
              (UserError (VStr "boom"))
              (entering Demo.INC (set_currentReducer (FUser 4) Demo.created))
              eq_refl Demo_INC_valid eq_refl)
    as (m' & Hd & Hflag & _ & Hget & _).
  exists m'. split; [exact Hd|]. split; [exact Hflag|exact Hget].
Defined.

Lemma failed_dispatch_notifies_nobody_witness :
  isDispatching (set_currentReducer (FUser 4) Demo.withL2) = false /\
  validAction Demo.INC /\
  exists m' evs,
    dispatch Demo.code (exec Demo.code Demo.types 4) 4 Demo.INC
      (set_currentReducer (FUser 4) Demo.withL2)
      = Some (Thrown (UserError (VStr "boom")), m') /\
    trace m' = trace Demo.withL2 ++ evs /\
    listenerCalls evs = [] /\
    nextList m' = [FUser 2].
Proof.
  split; [reflexivity|]. split; [exact Demo_INC_valid|].
  destruct (failed_dispatch_notifies_nobody Demo.code Demo.types 4 Demo.INC
              (set_currentReducer (FUser 4) Demo.withL2)
              (UserError (VStr "boom"))
              (entering Demo.INC (set_currentReducer (FUser 4) Demo.withL2))
              eq_refl Demo_INC_valid eq_refl)
    as (m' & evs & Hd & Ht & Hl & _ & Hn & Ha).
  exists m', evs. split; [exact Hd|]. split; [exact Ht|]. split; [exact Hl|].
  unfold nextList, deref. rewrite Hn, Ha. reflexivity.
Defined.

Lemma reentrancy_guard_witness :
  isDispatching Demo.reducing = true /\
  getState Demo.reducing = (Thrown GetStateWhileDispatching, Demo.reducing) /\
  unsubscribe 0 Demo.reducing = (Normal VUndefined, Demo.reducing) /\
  isDispatching Demo.withL2 = false /\
  getState Demo.withL2 = (Normal (VNum 0), Demo.withL2).
Proof.
  split; [reflexivity|].
  destruct (reentrancy_guard Demo.code (exec Demo.code Demo.types 4) 4 Demo.reducing)
    as [Hbusy _].
  destruct (Hbusy eq_refl) as (Hget & _ & _ & _ & Hgone).
  split; [exact Hget|]. split; [exact (Hgone 0 (FUser 2) eq_refl)|].
  split; [reflexivity|].
  destruct (reentrancy_guard Demo.code (exec Demo.code Demo.types 4) 4 Demo.withL2)
    as [_ Hidle].
  exact (proj1 (Hidle eq_refl)).
Defined.

(** C4 as stated fails. In [Demo.reducing] the reducer is running (the flag
    is set), and the unsubscribe function of the subscription that was
    removed before returns without an error. The run that gets there: create
    the store, subscribe, unsubscribe, then install (by [replaceReducer]) a
    reducer that calls that unsubscribe function; the reducer returns 7 only
    if the call returned. *)
Lemma reentrancy_guard_counterexample :
  isDispatching Demo.reducing = true /\
  unsubscribe 0 Demo.reducing = (Normal VUndefined, Demo.reducing) /\
  fst <$> Demo.run
    (Call (OSubscribe (VFun (FUser 2))) (fun c =>
     match c with
     | Normal u =>
         Call (OCall u []) (fun _ =>
         Call (OReplaceReducer (VFun (FUser 3))) (fun _ =>
         Call OGetState rethrow))
     | Thrown e => Throw e
     end)) Demo.created
  = Some (Normal (VNum 7)).
Proof. repeat split; vm_compute; reflexivity. Qed.

Lemma middleware_onion_order_witness :
  createStore Demo.code Demo.types Demo.enhancers 8 (VFun (FUser 0)) VUndefined
    VUndefined VUndefined = Some (Created rawStore Demo.created) /\
  exists dispatch' m',
    applyMiddleware (map tagger Demo.tags)
      (fun r p => createStore Demo.code Demo.types Demo.enhancers 8 r p
                    VUndefined VUndefined)
      (VFun (FUser 0)) VUndefined
    = Some (Created
              {| api_dispatch := dispatch';
                 api_subscribe := api_subscribe rawStore;
                 api_getState := api_getState rawStore;
                 api_replaceReducer := api_replaceReducer rawStore |}
              (set_enhancedDispatch (Some dispatch') Demo.created)) /\
    Demo.run (dispatch' Demo.INC) Demo.created = Some (Normal Demo.INC, m') /\
    drop 1 (trace m') =
      [EvLog (VStr "m1 in"); EvLog (VStr "m2 in");
       EvReducer 1 (VNum 0) Demo.INC;
       EvLog (VStr "m2 out"); EvLog (VStr "m1 out")].
Proof.
  split; [exact Demo_created|].
  destruct (middleware_onion_order (map tagger Demo.tags)
              (fun r p => createStore Demo.code Demo.types Demo.enhancers 8 r p
                            VUndefined VUndefined)
              (VFun (FUser 0)) VUndefined rawStore Demo.created Demo_created)
    as (dispatch' & Happly & _ & _ & _ & Htags).
  exists dispatch'. eexists. split; [exact Happly|].
  unfold Demo.run. cbn [exec].
  rewrite (Htags Demo.tags Demo.code Demo.types _ _ Demo.INC Demo.created eq_refl).
  split; vm_compute; reflexivity.
Defined.

Lemma createStore_dispatches_init_witness :
  typeof VUndefined <> TyFunction /\
  exists m',
    createStore Demo.code Demo.types Demo.enhancers 5 (VFun (FUser 0)) VUndefined
      VUndefined VUndefined = Some (Created rawStore m') /\
    getState m' = (Normal (VNum 0), m') /\
    nextList m' = [] /\ isDispatching m' = false /\ dispatchCount m' = 1.
Proof.
  split; [discriminate|].
  destruct (createStore_dispatches_init Demo.code Demo.types Demo.enhancers 4
              (FUser 0) VUndefined VUndefined (VNum 0)
              (entering (initAction Demo.types) (initial (FUser 0) VUndefined))
              ltac:(discriminate) eq_refl)
    as (m' & Hc & Hg & Hn & _ & _ & Hf & Hd & _).
  exists m'. auto.
Defined.

Lemma action_shape_validation_witness :
  isPlainObject (VNum 3) = false /\
  dispatch Demo.code (exec Demo.code Demo.types 4) 4 (VNum 3) Demo.withL2
    = Some (Thrown ActionNotPlainObject, Demo.withL2) /\
  isPlainObject (literal 11 []) = true /\
  typeof (actionType (literal 11 [])) = TyUndefined /\
  dispatch Demo.code (exec Demo.code Demo.types 4) 4 (literal 11 []) Demo.withL2
    = Some (Thrown ActionTypeUndefined, Demo.withL2).
Proof.
  split; [reflexivity|].
  split; [apply (action_shape_validation Demo.code (exec Demo.code Demo.types 4) 4
                   (VNum 3) Demo.withL2); reflexivity|].
  split; [reflexivity|]. split; [reflexivity|].
  apply (action_shape_validation Demo.code (exec Demo.code Demo.types 4) 4
           (literal 11 []) Demo.withL2); reflexivity.
Defined.

Lemma unsubscribe_contract_witness :
  WF Demo.withL2 /\
  subscriptions Demo.withL2 !! 0 = Some (true, FUser 2) /\
  isDispatching Demo.withL2 = false /\
  exists m',
    unsubscribe 0 Demo.withL2 = (Normal VUndefined, m') /\
    nextList m' = [] /\
    unsubscribe 0 m' = (Normal VUndefined, m').
Proof.
  split; [exact Demo_withL2_WF|]. split; [reflexivity|]. split; [reflexivity|].
  destruct (unsubscribe_contract Demo.code Demo.types 0 (FUser 2) Demo.withL2
              Demo_withL2_WF) as (_ & Hfirst & _ & _).
  destruct (Hfirst eq_refl eq_refl) as (m' & i & Hu & Hi & _ & Hn & _ & _ & _ & Hagain & _).
  exists m'. split; [exact Hu|]. split; [|exact Hagain].
  rewrite Hn. destruct i as [|[|i]]; [reflexivity|discriminate..].
Defined.

(** C9 as stated fails in its last clause: an unsubscribe function called
    while the flag is set does not always fail. In [Stale.replaced] the one
    subscription has been removed and the reducer is function 3, which
    calls the unsubscribe function of that subscription. [dispatch(INC)]
    calls the reducer in [Stale.reducing], with the flag set; the call of
    the unsubscribe function returns there without an error and changes
    nothing, so the reducer returns 7 and the dispatch succeeds. *)
Lemma unsubscribe_contract_counterexample :
  Demo.run (Call (OReplaceReducer (VFun (FUser 3))) rethrow) Demo.unsubscribed
    = Some (Normal VUndefined, Stale.replaced) /\
  Stale.reducing = entering Demo.INC Stale.replaced /\
  isDispatching Stale.reducing = true /\
  subscriptions Stale.reducing !! 0 = Some (false, FUser 2) /\
  unsubscribe 0 Stale.reducing = (Normal VUndefined, Stale.reducing) /\
  fst <$> Demo.run (Call (ODispatch Demo.INC) (fun c =>
                      match c with
                      | Normal _ => Call OGetState rethrow
                      | Thrown e => Throw e
                      end)) Stale.replaced
    = Some (Normal (VNum 7)).
Proof.
  split; [vm_compute; reflexivity|]. split; [vm_compute; reflexivity|].
  split; [reflexivity|]. split; [reflexivity|].
  split; vm_compute; reflexivity.
Qed.


(** * Further properties of the code *)

(** ** compose over a concatenation *)

Lemma nested_app {V : Type} (undef : V) (fs gs : list (@jsfun V)) (args : list V) :
  gs <> [] ->
  nested undef (fs ++ gs) args = nested undef fs [nested undef gs args].
Proof.
  intros Hgs. induction fs as [|f fs IH]; [reflexivity|].
  destruct fs as [|f' fs].
  - destruct gs; [contradiction|reflexivity].
  - change (nested undef ((f :: f' :: fs) ++ gs) args)
      with (f [nested undef ((f' :: fs) ++ gs) args]).
    rewrite IH. reflexivity.
Qed.

(** X1. Composing a list of functions followed by a second, nonempty list
    is composing the two composites: [compose(...fs, ...gs)(...args)] equals
    [compose(...fs)(compose(...gs)(...args))]. The second list must be
    nonempty: [compose()] keeps only its first argument. *)
Theorem compose_concat {V : Type} (undef : V) (fs gs : list (@jsfun V)) (args : list V) :
  gs <> [] ->
  compose undef (fs ++ gs) args = compose undef fs [compose undef gs args].
Proof.
  intros Hgs. rewrite !compose_nested. apply nested_app, Hgs.
Qed.

Lemma compose_concat_witness :
  compose 0 ([fun args => hd 0 args + 1] ++ [fun args => 2 * hd 0 args]) [5; 9] = 11.
Proof.
  exact (eq_trans
           (compose_concat 0 [fun args => hd 0 args + 1] [fun args => 2 * hd 0 args]
              [5; 9] ltac:(discriminate))
           eq_refl).
Defined.

(** ** Reserved action types *)

Lemma join_dot_cons (c d : ascii) (cs : list ascii) :
  join_dot (c :: d :: cs) = String c (String "." (join_dot (d :: cs))).
Proof. reflexivity. Qed.

Lemma undot_join_dot (cs : list ascii) :
  undot (join_dot cs) = string_of_list_ascii cs.
Proof.
  induction cs as [|c cs IH]; [reflexivity|].
  destruct cs as [|d cs]; [reflexivity|].
  rewrite join_dot_cons. cbn [undot string_of_list_ascii].
  f_equal. exact IH.
Qed.

Lemma length_join_dot (cs : list ascii) :
  String.length (join_dot cs) = 2 * length cs - 1.
Proof.
  induction cs as [|c cs IH]; [reflexivity|].
  destruct cs as [|d cs]; [reflexivity|].
  rewrite join_dot_cons. cbn [String.length]. rewrite IH. cbn [length]. lia.
Qed.

(** Every second character of the joined string is the separator, a dot. *)
Lemma get_join_dot_odd (cs : list ascii) : forall i,
  2 * i + 1 < String.length (join_dot cs) ->
  String.get (2 * i + 1) (join_dot cs) = Some "."%char.
Proof.
  induction cs as [|c cs IH]; intros i Hlt; [cbn in Hlt; lia|].
  destruct cs as [|d cs]; [cbn in Hlt; lia|].
  rewrite join_dot_cons in *. destruct i as [|i]; [reflexivity|].
  replace (2 * S i + 1) with (S (S (2 * i + 1))) in * by lia.
  cbn [String.get String.length] in *. apply IH. lia.
Qed.

(** The characters in between are those of the list, in order. *)
Lemma get_join_dot_even (cs : list ascii) : forall i,
  String.get (2 * i) (join_dot cs) = String.get i (string_of_list_ascii cs).
Proof.
  induction cs as [|c cs IH]; intros i; [destruct i; reflexivity|].
  destruct cs as [|d cs].
  - destruct i as [|i]; [reflexivity|].
    replace (2 * S i) with (S (S (2 * i))) by lia. destruct i; reflexivity.
  - rewrite join_dot_cons. destruct i as [|i]; [reflexivity|].
    replace (2 * S i) with (S (S (2 * i))) by lia.
    cbn [String.get string_of_list_ascii]. apply IH.
Qed.

(** X2. [randomString] puts a dot between the characters of what follows
    the first seven characters of the draw. Character [2i] of the result is
    character [i] of that suffix and every character at an odd position is
    a dot; so a suffix of [k] characters gives [2k - 1] characters, dropping
    every second character gives the suffix back, and a draw of at most
    seven characters gives the empty string. *)
Theorem randomString_shape (r36 : string) :
  (forall i, String.get (2 * i) (randomString r36)
             = String.get i (String.substring 7 (String.length r36 - 7) r36)) /\
  (forall i, 2 * i + 1 < String.length (randomString r36) ->
             String.get (2 * i + 1) (randomString r36) = Some "."%char) /\
  undot (randomString r36) = String.substring 7 (String.length r36 - 7) r36 /\
  String.length (randomString r36)
    = 2 * String.length (String.substring 7 (String.length r36 - 7) r36) - 1 /\
  (String.length r36 <= 7 -> randomString r36 = EmptyString).
Proof.
  unfold randomString. split; [|split; [|split; [|split]]].
  - intros i. rewrite get_join_dot_even, string_of_list_ascii_of_string. reflexivity.
  - intros i. apply get_join_dot_odd.
  - rewrite undot_join_dot. apply string_of_list_ascii_of_string.
  - rewrite length_join_dot. f_equal. f_equal.
    generalize (String.substring 7 (String.length r36 - 7) r36).
    induction s as [|c s IH]; cbn; [reflexivity|]. f_equal. exact IH.
  - intros Hle. replace (String.length r36 - 7) with 0 by lia.
    destruct r36 as [|c1 [|c2 [|c3 [|c4 [|c5 [|c6 [|c7 r]]]]]]]; try reflexivity.
    destruct r; reflexivity.
Qed.

(** [(0.4fzyo82mvyr).substring(7)] is [82mvyr], which gives [8.2.m.v.y.r]. *)
Lemma randomString_shape_witness :
  String.length "0.5" <= 7 /\ randomString "0.5" = EmptyString /\
  2 * 2 + 1 < String.length (randomString "0.4fzyo82mvyr") /\
  String.get 5 (randomString "0.4fzyo82mvyr") = Some "."%char /\
  String.get 4 (randomString "0.4fzyo82mvyr") = Some "m"%char /\
  randomString "0.4fzyo82mvyr" = "8.2.m.v.y.r".
Proof.
  split; [cbn; lia|].
  destruct (randomString_shape "0.5") as (_ & _ & _ & _ & Hshort).
  split; [apply Hshort; cbn; lia|].
  destruct (randomString_shape "0.4fzyo82mvyr") as (Heven & Hodd & _).
  split; [vm_compute; lia|].
  split; [apply (Hodd 2); vm_compute; lia|].
  split; [exact (eq_trans (Heven 2) eq_refl)|reflexivity].
Defined.

(** X3. Whatever the draws, the three reserved action types are pairwise
    different, and the INIT and REPLACE actions pass the shape checks of
    [dispatch]. *)
Theorem reserved_action_types_distinct (r1 r2 r3 : string) :
  INIT (ActionTypes r1 r2) <> REPLACE (ActionTypes r1 r2) /\
  INIT (ActionTypes r1 r2) <> PROBE_UNKNOWN_ACTION r3 /\
  REPLACE (ActionTypes r1 r2) <> PROBE_UNKNOWN_ACTION r3 /\
  validAction (initAction (ActionTypes r1 r2)) /\
  validAction (replaceAction (ActionTypes r1 r2)).
Proof.
  unfold PROBE_UNKNOWN_ACTION. cbn.
  repeat split; try discriminate; try congruence.
Qed.

(** ** createStore: its arguments *)

Section CreationArguments.
Variable code : nat -> list value -> prog.
Variable actionTypes : ActionTypesT.
Variable enhancers : func -> enhancerFn.

Abbreviation create := (createStore code actionTypes enhancers).

Lemma isFunction_VFun v : isFunction v = true -> exists f, v = VFun f.
Proof.
  unfold isFunction. intros H. apply bool_decide_eq_true in H.
  destruct v; try discriminate. eauto.
Qed.

Lemma isUndefined_VUndefined v : isUndefined v = true -> v = VUndefined.
Proof.
  unfold isUndefined. intros H. apply bool_decide_eq_true in H.
  destruct v; try discriminate. reflexivity.
Qed.

Lemma createStore_delegates n reducer preloadedState e arg3 :
  isFunction preloadedState = false -> isFunction arg3 = false ->
  create (S n) reducer preloadedState (VFun e) arg3
  = enhancers e (fun r p => create n r p VUndefined VUndefined)
      reducer preloadedState.
Proof. intros Hp Ha. cbn [createStore]. rewrite Hp, Ha. reflexivity. Qed.

(** X4. The checks of [createStore] on its arguments, in the order the code
    makes them. An enhancer next to a function in second or fourth place is
    refused as several enhancers. An enhancer that is neither undefined nor
    a function is refused, whatever the reducer is. Only without an enhancer
    is the reducer checked: a function enhancer is handed the constructor
    and [(reducer, preloadedState)] unchecked. And [createStore(reducer,
    enhancer)] is [createStore(reducer, undefined, enhancer)]. *)
Theorem createStore_argument_checks n reducer preloadedState enhancer arg3 :
  (isFunction enhancer = true ->
   isFunction preloadedState = true \/ isFunction arg3 = true ->
   create (S n) reducer preloadedState enhancer arg3 = Some (Failed SeveralEnhancers)) /\
  (isFunction enhancer = false -> isUndefined enhancer = false ->
   create (S n) reducer preloadedState enhancer arg3 = Some (Failed EnhancerNotFunction)) /\
  (isUndefined enhancer = true -> isFunction preloadedState = false ->
   isFunction reducer = false ->
   create (S n) reducer preloadedState enhancer arg3 = Some (Failed ReducerNotFunction)) /\
  (forall e, enhancer = VFun e ->
   isFunction preloadedState = false -> isFunction arg3 = false ->
   create (S n) reducer preloadedState enhancer arg3
   = enhancers e (fun r p => create n r p VUndefined VUndefined)
       reducer preloadedState) /\
  (isFunction preloadedState = true -> isUndefined enhancer = true ->
   forall arg3', isFunction arg3' = false ->
   create (S n) reducer preloadedState enhancer arg3
   = create (S n) reducer VUndefined preloadedState arg3').
Proof.
  split; [|split; [|split; [|split]]].
  - intros He [Hp|Ha]; cbn [createStore]; rewrite He, Hp || rewrite He, Ha;
      cbn [andb orb]; [reflexivity|]. rewrite orb_true_r. reflexivity.
  - intros He Hu.
    destruct enhancer; cbn in He, Hu; try discriminate;
      cbn [createStore]; unfold isFunction, isUndefined;
      cbn [typeof bool_decide decide_rel]; rewrite ?andb_false_r; reflexivity.
  - intros Hu Hp Hr. apply isUndefined_VUndefined in Hu. subst enhancer.
    cbn [createStore]. rewrite Hp. cbn.
    destruct reducer; try reflexivity. discriminate.
  - intros e -> Hp Ha. apply createStore_delegates; assumption.
  - intros Hp Hu arg3' Ha. apply isUndefined_VUndefined in Hu. subst enhancer.
    apply isFunction_VFun in Hp as Hp'. destruct Hp' as [e ->].
    cbn [createStore]. rewrite Ha. reflexivity.
Qed.

(** Without an enhancer, construction is the INIT dispatch on the initial
    machine. *)
Lemma createStore_plain n r s0 arg3 s1 m1 :
  typeof s0 <> TyFunction ->
  callFn code (exec code actionTypes n) r [s0; initAction actionTypes]
    (entering (initAction actionTypes) (initial r s0)) = Some (Normal s1, m1) ->
  create (S n) (VFun r) s0 VUndefined arg3 = Some (Created rawStore (committed s1 m1)).
Proof.
  intros Hs0 Hred.
  assert (Hnf : isFunction s0 = false).
  { unfold isFunction. apply bool_decide_eq_false. exact Hs0. }
  destruct (reducer_quiet code actionTypes n _ (initial r s0) _ _ Hred)
    as (_ & _ & _ & A4 & A5 & _).
  cbn in A4, A5.
  cbn [createStore]. rewrite Hnf.
  change (isFunction VUndefined) with false.
  change (isUndefined VUndefined) with true.
  cbn [andb orb negb].
  fold (initAction actionTypes).
  rewrite (dispatch_valid code _ n _ (initial r s0) (initAction_valid actionTypes) eq_refl).
  cbn [currentReducer currentState initial]. rewrite Hred.
  destruct n; cbn [notify]; unfold deref; cbn; rewrite A4, A5; reflexivity.
Qed.

(** X5. [createStore(reducer, preloadedState, applyMiddleware(...ms))]: the
    enhancer is handed the constructor, the store is built without it (one
    INIT dispatch on the plain store, no middleware involved), and what
    comes back is that store with its dispatch replaced by the onion of the
    middlewares around the store's own dispatch; [getState], [subscribe] and
    [replaceReducer] are the plain store's. *)
Theorem createStore_with_applyMiddleware n r s0 arg3 e ms s1 m1 :
  enhancers e = applyMiddleware ms ->
  typeof s0 <> TyFunction -> typeof arg3 <> TyFunction ->
  callFn code (exec code actionTypes n) r [s0; initAction actionTypes]
    (entering (initAction actionTypes) (initial r s0)) = Some (Normal s1, m1) ->
  create (S (S n)) (VFun r) s0 (VFun e) arg3
  = Some (Created
            {| api_dispatch := onion (apiOf rawStore) ms (api_dispatch rawStore);
               api_subscribe := api_subscribe rawStore;
               api_getState := api_getState rawStore;
               api_replaceReducer := api_replaceReducer rawStore |}
            (set_enhancedDispatch
               (Some (onion (apiOf rawStore) ms (api_dispatch rawStore)))
               (committed s1 m1))).
Proof.
  intros He Hs0 Ha3 Hred.
  assert (Hnf : isFunction s0 = false).
  { unfold isFunction. apply bool_decide_eq_false. exact Hs0. }
  assert (Hna : isFunction arg3 = false).
  { unfold isFunction. apply bool_decide_eq_false. exact Ha3. }
  rewrite (createStore_delegates (S n) (VFun r) s0 e arg3 Hnf Hna), He.
  unfold applyMiddleware.
  rewrite (createStore_plain n r s0 VUndefined s1 m1 Hs0 Hred).
  fold (apiOf rawStore). rewrite onion_compose. reflexivity.
Qed.
End CreationArguments.

Lemma createStore_argument_checks_witness :
  createStore Demo.code Demo.types Demo.enhancers 3
    (VFun (FUser 0)) (VFun (FUser 1)) (VFun (FUser 2)) VUndefined
    = Some (Failed SeveralEnhancers) /\
  createStore Demo.code Demo.types Demo.enhancers 3
    (VNum 1) VUndefined (VNum 2) VUndefined = Some (Failed EnhancerNotFunction) /\
  createStore Demo.code Demo.types Demo.enhancers 3
    (VNum 1) VUndefined VUndefined VUndefined = Some (Failed ReducerNotFunction).
Proof.
  split; [|split].
  - apply (createStore_argument_checks Demo.code Demo.types Demo.enhancers 2);
      [reflexivity|left; reflexivity].
  - apply (createStore_argument_checks Demo.code Demo.types Demo.enhancers 2);
      reflexivity.
  - apply (createStore_argument_checks Demo.code Demo.types Demo.enhancers 2);
      reflexivity.
Defined.

Lemma createStore_with_applyMiddleware_witness :
  exists store m,
    createStore Demo.code Demo.types (fun _ => applyMiddleware (map tagger Demo.tags)) 5
      (VFun (FUser 0)) VUndefined (VFun (FUser 9)) VUndefined
    = Some (Created store m) /\
    currentState m = VNum 0 /\
    (fun r => (r.1, drop 1 (trace r.2))) <$> Demo.run (api_dispatch store Demo.INC) m
    = Some (Normal Demo.INC,
            [EvLog (VStr "m1 in"); EvLog (VStr "m2 in");
             EvReducer 1 (VNum 0) Demo.INC;
             EvLog (VStr "m2 out"); EvLog (VStr "m1 out")]).
Proof.
  eexists. eexists. split.
  - apply (createStore_with_applyMiddleware Demo.code Demo.types
             (fun _ => applyMiddleware (map tagger Demo.tags)) 3
             (FUser 0) VUndefined VUndefined (FUser 9) (map tagger Demo.tags) (VNum 0)
             (entering (initAction Demo.types) (initial (FUser 0) VUndefined))
             eq_refl ltac:(discriminate) ltac:(discriminate) eq_refl).
  - split; [reflexivity|]. vm_compute. reflexivity.
Defined.

(** ** Dispatches that return, listeners that throw *)

Section Returns.
Variable code : nat -> list value -> prog.
Variable actionTypes : ActionTypesT.
Variable n : nat.

Abbreviation call := (exec code actionTypes n).

Lemma notifyAll_normal d snapshot : forall m v m',
  notifyAll code call d snapshot m = Some (Normal v, m') -> v = VUndefined.
Proof.
  induction snapshot as [|f rest IH]; intros m v m'; cbn [notifyAll].
  - intros [= <- _]. reflexivity.
  - destruct (callFn _ _ _ _ _) as [[[w|e] m2]|]; try discriminate. apply IH.
Qed.

Lemma notifyAll_app d pre post : forall m,
  notifyAll code call d (pre ++ post) m =
  match notifyAll code call d pre m with
  | Some (Normal _, mi) => notifyAll code call d post mi
  | other => other
  end.
Proof.
  induction pre as [|f pre IH]; intros m; [reflexivity|].
  cbn [app notifyAll].
  destruct (callFn _ _ _ _ _) as [[[w|e] m2]|]; try reflexivity. apply IH.
Qed.

(** A dispatch that returns: what it returns, the pass it made, what it
    left in the trace. *)
Lemma dispatch_returns a m s m1 v m' :
  nextListeners m < length (arrays m) -> isDispatching m = false ->
  validAction a ->
  callFn code call (currentReducer m) [currentState m; a] (entering a m)
    = Some (Normal s, m1) ->
  dispatch code call n a m = Some (Normal v, m') ->
  v = a /\
  notifyAll code call (dispatchCount m) (nextList m) (committed s m1)
    = Some (Normal VUndefined, m') /\
  exists later,
    trace m' = trace m ++ EvReducer (dispatchCount m) (currentState m) a :: later /\
    notifiedIn (dispatchCount m) later = (fun f => (f, [])) <$> nextList m.
Proof.
  intros Hlt Hidle Hvalid Hred Hd.
  destruct (committed_snapshot code actionTypes n a m s m1 Hlt Hred)
    as (Hfr & Hsnap & Hcount).
  destruct (reducer_quiet code actionTypes n _ _ _ _ Hred)
    as (_ & _ & _ & _ & _ & _ & _ & _ & logs & Htr & Hlogs).
  rewrite (dispatch_valid code call n a m Hvalid Hidle), Hred in Hd.
  destruct (notify _ _ _ _ _ _ _) as [[[u|e] m4]|] eqn:Hn; try discriminate.
  injection Hd as <- <-.
  destruct (notify_frozen code actionTypes n _ _ _ _ _ _ _ Hfr Hn) as (Hall & _ & _).
  rewrite drop_0, Hsnap in Hall.
  rewrite (notifyAll_normal _ _ _ _ _ Hall) in Hall.
  split; [reflexivity|]. split; [exact Hall|].
  destruct (notifyAll_trace code actionTypes n (dispatchCount m) _ _ _ _
              ltac:(rewrite Hcount; lia) Hall)
    as (_ & evs & k & Ht & _ & Hnot & Hk).
  rewrite (Hk _ eq_refl), firstn_all in Hnot.
  exists (logs ++ evs). split.
  - rewrite Ht. change (trace (committed s m1)) with (trace m1).
    rewrite Htr, <- app_assoc. reflexivity.
  - rewrite notifiedIn_app, (notifiedIn_logs _ logs Hlogs). exact Hnot.
Qed.
End Returns.

(** ** replaceReducer *)

Section ReplaceReducer.
Variable code : nat -> list value -> prog.
Variable actionTypes : ActionTypesT.
Variable n : nat.

Abbreviation call := (exec code actionTypes n).
Abbreviation replace := (replaceReducer code actionTypes call n).

Lemma replaceAction_valid : validAction (replaceAction actionTypes).
Proof. split; [reflexivity|]. cbn. discriminate. Qed.

Lemma replaceReducer_unfold f m :
  replace (VFun f) m =
  match dispatch code call n (replaceAction actionTypes) (set_currentReducer f m) with
  | Some (Normal _, m2) => Some (Normal VUndefined, m2)
  | other => other
  end.
Proof. reflexivity. Qed.

(** X6. [replaceReducer(next)] on an idle store: the new reducer is
    installed first and the REPLACE action is then dispatched to it, so the
    state becomes what the new reducer returns for the old state and
    REPLACE, the listeners of the snapshot are notified, and the call
    returns undefined (not the action). A [next] that is not a function is
    refused and nothing changes. *)
Theorem replaceReducer_installs_then_dispatches f m s m1 :
  WF m -> isDispatching m = false ->
  callFn code call f [currentState m; replaceAction actionTypes]
    (entering (replaceAction actionTypes) (set_currentReducer f m))
    = Some (Normal s, m1) ->
  getState (committed s m1) = (Normal s, committed s m1) /\
  (forall m',
      notifyAll code call (dispatchCount m) (nextList m) (committed s m1)
        = Some (Normal VUndefined, m') ->
      length (nextList m) <= n ->
      replace (VFun f) m = Some (Normal VUndefined, m')) /\
  (forall v m',
      replace (VFun f) m = Some (Normal v, m') ->
      v = VUndefined /\
      exists later,
        trace m' = trace m ++ EvReducer (dispatchCount m) (currentState m)
                                (replaceAction actionTypes) :: later /\
        notifiedIn (dispatchCount m) later = (fun l => (l, [])) <$> nextList m) /\
  (forall v, typeof v <> TyFunction ->
             replace v m = Some (Thrown NextReducerNotFunction, m)).
Proof.
  intros Hwf Hidle Hred.
  pose (m0 := set_currentReducer f m).
  assert (Hlt : nextListeners m0 < length (arrays m0)) by apply Hwf.
  change (callFn code call (currentReducer m0) [currentState m0; replaceAction actionTypes]
            (entering (replaceAction actionTypes) m0) = Some (Normal s, m1)) in Hred.
  destruct (committed_snapshot code actionTypes n _ m0 s m1 Hlt Hred)
    as (Hfr & Hsnap & Hcount).
  change (nextList m0) with (nextList m) in Hsnap.
  split; [reflexivity|]. split; [|split].
  - intros m' Hall Hlen. rewrite replaceReducer_unfold. fold m0.
    rewrite (dispatch_valid code call n _ m0 replaceAction_valid Hidle), Hred.
    rewrite (notify_complete code actionTypes n n (dispatchCount m0)
               (nextListeners m1) 0 (committed s m1) (Normal VUndefined, m') Hfr).
    + reflexivity.
    + rewrite Hsnap. lia.
    + rewrite drop_0, Hsnap. exact Hall.
  - intros v m'. rewrite replaceReducer_unfold. fold m0.
    destruct (dispatch code call n _ m0) as [[[u|e] m2]|] eqn:Hd; try discriminate.
    intros [= <- <-]. split; [reflexivity|].
    destruct (dispatch_returns code actionTypes n _ m0 s m1 u m2 Hlt Hidle
                replaceAction_valid Hred Hd) as (_ & _ & later & Ht & Hn).
    exists later. split; [exact Ht|exact Hn].
  - intros v Hv. destruct v; try reflexivity. contradiction.
Qed.

(** X7. [replaceReducer] does not undo its first step. Called from inside
    a reducer it fails, as every dispatch does there, but the reducer
    variable has already been overwritten; nothing else has changed. *)
Theorem replaceReducer_in_reducer_still_swaps f m :
  isDispatching m = true ->
  replace (VFun f) m = Some (Thrown ReducersMayNotDispatch, set_currentReducer f m) /\
  currentReducer (set_currentReducer f m) = f /\
  currentState (set_currentReducer f m) = currentState m /\
  nextList (set_currentReducer f m) = nextList m /\
  subscriptions (set_currentReducer f m) = subscriptions m.
Proof.
  intros Hbusy. split; [|repeat split].
  rewrite replaceReducer_unfold.
  destruct (dispatch_busy code call n (replaceAction actionTypes)
              (set_currentReducer f m) Hbusy) as (e & -> & He).
  rewrite (He replaceAction_valid). reflexivity.
Qed.
End ReplaceReducer.

Lemma replaceReducer_installs_then_dispatches_witness :
  WF Demo.unsubscribed /\ isDispatching Demo.unsubscribed = false /\
  exists m',
    replaceReducer Demo.code Demo.types (exec Demo.code Demo.types 4) 4
      (VFun (FUser 3)) Demo.unsubscribed = Some (Normal VUndefined, m') /\
    currentState m' = VNum 7.
Proof.
  split; [exact Demo_unsubscribed_WF|]. split; [reflexivity|].
  destruct (replaceReducer_installs_then_dispatches Demo.code Demo.types 4
              (FUser 3) Demo.unsubscribed (VNum 7)
              (entering (replaceAction Demo.types)
                 (set_currentReducer (FUser 3) Demo.unsubscribed))
              Demo_unsubscribed_WF eq_refl eq_refl)
    as (_ & Hgo & _).
  eexists. split; [apply Hgo; [vm_compute; reflexivity|cbn; lia]|reflexivity].
Defined.

(** The run behind X7: a reducer that calls [replaceReducer] and catches the
    error has replaced itself all the same. *)
Lemma replaceReducer_in_reducer_still_swaps_witness :
  isDispatching Demo.reducing = true /\
  replaceReducer Demo.code Demo.types (exec Demo.code Demo.types 4) 4
    (VFun (FUser 4)) Demo.reducing
  = Some (Thrown ReducersMayNotDispatch, set_currentReducer (FUser 4) Demo.reducing).
Proof.
  split; [reflexivity|].
  apply (replaceReducer_in_reducer_still_swaps Demo.code Demo.types 4 (FUser 4)
           Demo.reducing eq_refl).
Defined.

(** ** A listener that throws *)

Section ListenerThrows.
Variable code : nat -> list value -> prog.
Variable actionTypes : ActionTypesT.
Variable n : nat.

Abbreviation call := (exec code actionTypes n).

(** X8. When a listener throws, [dispatch] passes the error on and stops
    the pass there: the listeners before it were called, those after it
    are not. Nothing is undone: the machine is the one the throwing
    listener left, with the state the reducer produced committed before the
    pass, and the dispatch flag false. *)
Theorem listener_error_stops_the_pass a m s m1 before f after v mi e mf :
  WF m -> isDispatching m = false -> validAction a ->
  callFn code call (currentReducer m) [currentState m; a] (entering a m)
    = Some (Normal s, m1) ->
  nextList m = before ++ f :: after ->
  length (nextList m) <= n ->
  notifyAll code call (dispatchCount m) before (committed s m1)
    = Some (Normal v, mi) ->
  callFn code call f [] (record (EvListener (dispatchCount m) f []) mi)
    = Some (Thrown e, mf) ->
  dispatch code call n a m = Some (Thrown e, mf) /\
  isDispatching mf = false /\
  ((forall g, g ∈ before ++ [f] -> forall mj cj mk,
       callFn code call g [] mj = Some (cj, mk) ->
       currentState mk = currentState mj) ->
   currentState mf = s) /\
  exists evs,
    trace mf = trace m ++ evs /\
    notifiedIn (dispatchCount m) evs = (fun l => (l, [])) <$> (before ++ [f]).
Proof.
  intros Hwf Hidle Hvalid Hred Hsplit Hlen Hbefore Hf.
  destruct Hwf as (Hlt & _).
  destruct (committed_snapshot code actionTypes n a m s m1 Hlt Hred)
    as (Hfr & Hsnap & Hcount).
  destruct (reducer_quiet code actionTypes n _ _ _ _ Hred)
    as (_ & _ & _ & _ & _ & _ & _ & _ & logs & Htr & Hlogs).
  assert (Hall : notifyAll code call (dispatchCount m) (nextList m) (committed s m1)
                 = Some (Thrown e, mf)).
  { rewrite Hsplit, notifyAll_app, Hbefore. cbn [notifyAll]. rewrite Hf. reflexivity. }
  split.
  { rewrite (dispatch_valid code call n a m Hvalid Hidle), Hred.
    rewrite (notify_complete code actionTypes n n (dispatchCount m)
               (nextListeners m1) 0 (committed s m1) (Thrown e, mf) Hfr).
    - reflexivity.
    - rewrite Hsnap. lia.
    - rewrite drop_0, Hsnap. exact Hall. }
  split.
  { rewrite (flag_notifyAll code actionTypes n _ _ _ _ _ Hall). reflexivity. }
  split.
  { intros Hq.
    assert (Hall' : notifyAll code call (dispatchCount m) (before ++ [f]) (committed s m1)
                    = Some (Thrown e, mf)).
    { rewrite notifyAll_app, Hbefore. cbn [notifyAll]. rewrite Hf. reflexivity. }
    apply (notifyAll_state code actionTypes n _ _ _ _ _ Hq Hall'). }
  destruct (notifyAll_trace code actionTypes n (dispatchCount m) _ _ _ _
              ltac:(rewrite Hcount; lia) Hbefore)
    as (Hd & evs1 & k & Ht1 & _ & Hn1 & Hk).
  rewrite (Hk _ eq_refl), firstn_all in Hn1.
  destruct (grows_callFn code actionTypes (dispatchCount mi) _ _ _ _ _ _ Hf)
    as (_ & _ & evs2 & Ht2 & Hs2); [cbn; lia|].
  cbn in Ht2.
  exists (EvReducer (dispatchCount m) (currentState m) a
            :: logs ++ evs1 ++ [EvListener (dispatchCount m) f []] ++ evs2).
  split.
  - rewrite Ht2, Ht1. change (trace (committed s m1)) with (trace m1).
    rewrite Htr, <- !app_assoc. reflexivity.
  - change (EvReducer (dispatchCount m) (currentState m) a
              :: logs ++ evs1 ++ [EvListener (dispatchCount m) f []] ++ evs2)
      with ([EvReducer (dispatchCount m) (currentState m) a]
              ++ logs ++ evs1 ++ [EvListener (dispatchCount m) f []] ++ evs2).
    rewrite !notifiedIn_app, (notifiedIn_logs _ logs Hlogs), Hn1,
      (notifiedIn_later _ _ evs2 Hd Hs2), fmap_app.
    unfold notifiedIn. cbn. rewrite decide_True by reflexivity.
    rewrite app_nil_r. reflexivity.
Qed.
End ListenerThrows.

Lemma Scenes_withThrower_WF : WF Scenes.withThrower.
Proof. wf_by_computation. Qed.

Lemma listener_error_stops_the_pass_witness :
  WF Scenes.withThrower /\ isDispatching Scenes.withThrower = false /\
  validAction Demo.INC /\
  nextList Scenes.withThrower = [FUser 2] ++ FUser 4 :: [FUser 2] /\
  dispatch Demo.code (exec Demo.code Demo.types 4) 4 Demo.INC Scenes.withThrower
    = Some (Thrown (UserError (VStr "boom")), Scenes.afterThrow) /\
  currentState Scenes.afterThrow = VNum 1 /\
  notifiedIn 1 (trace Scenes.afterThrow) = [(FUser 2, []); (FUser 4, [])].
Proof.
  split; [exact Scenes_withThrower_WF|]. split; [reflexivity|].
  split; [exact Demo_INC_valid|]. split; [reflexivity|].
  destruct (listener_error_stops_the_pass Demo.code Demo.types 4 Demo.INC
              Scenes.withThrower (VNum 1) (entering Demo.INC Scenes.withThrower)
              [FUser 2] (FUser 4) [FUser 2] VUndefined Scenes.beforeThrow
              (UserError (VStr "boom")) Scenes.afterThrow
              Scenes_withThrower_WF eq_refl Demo_INC_valid eq_refl eq_refl
              ltac:(cbn; lia) ltac:(vm_compute; reflexivity)
              ltac:(vm_compute; reflexivity))
    as (Hd & _ & _ & _).
  split; [exact Hd|]. split; reflexivity.
Defined.

(** ** Subscriptions: duplicates and round trips *)

Lemma first_occurrence_after (l : list func) (f : func) (more : list func) (i : nat) :
  f ∉ l ->
  (l ++ f :: more) !! i = Some f ->
  (forall j, j < i -> (l ++ f :: more) !! j <> Some f) ->
  i = length l.
Proof.
  intros Hnot Hi Hfirst.
  destruct (Nat.lt_trichotomy i (length l)) as [Hlt|[Heq|Hgt]]; [|exact Heq|].
  - rewrite lookup_app_l in Hi by exact Hlt.
    exfalso. apply Hnot. eapply list_elem_of_lookup_2, Hi.
  - exfalso. apply (Hfirst (length l) Hgt). apply list_lookup_middle. reflexivity.
Qed.

(** X9. Subscribing a listener and calling the returned function at once
    gives the listener list back: as a list when the listener was not
    subscribed before, and up to the order of entries otherwise (the first
    matching entry is the one removed). The array behind [currentListeners]
    is not written, the state is untouched, and the subscription is kept on
    record as removed. *)
Theorem subscribe_then_unsubscribe f m :
  WF m -> isDispatching m = false ->
  exists m1 m2,
    subscribe (VFun f) m = (Normal (VFun (FUnsub (length (subscriptions m)))), m1) /\
    unsubscribe (length (subscriptions m)) m1 = (Normal VUndefined, m2) /\
    nextList m2 ≡ₚ nextList m /\
    (f ∉ nextList m -> nextList m2 = nextList m) /\
    deref m2 (currentListeners m) = deref m (currentListeners m) /\
    currentState m2 = currentState m /\
    subscriptions m2 = subscriptions m ++ [(false, f)] /\
    WF m2.
Proof.
  intros Hwf Hidle.
  destruct (subscribe_edit f m Hwf Hidle)
    as (m1 & Hs & Hsubs1 & Hn1 & Ha1 & _ & Hwf1 & Hst1 & Hidle1 & Hc1 & _).
  assert (Hh : subscriptions m1 !! length (subscriptions m) = Some (true, f)).
  { rewrite Hsubs1. apply list_lookup_middle. reflexivity. }
  destruct (unsubscribe_edit _ f m1 Hwf1 Hidle1 Hh)
    as (m2 & i & Hu & Hi & Hfirst & Hn2 & Hsubs2 & Ha2 & _ & Hwf2 & Hst2 & _).
  exists m1, m2. split; [exact Hs|]. split; [exact Hu|].
  rewrite Hn1 in Hi, Hfirst, Hn2.
  split; [|split; [|split; [|split; [|split]]]].
  - apply (Permutation_cons_inv (a := f)).
    rewrite Hn2, <- (delete_Permutation _ _ _ Hi).
    symmetry. apply Permutation_cons_append.
  - intros Hnot.
    rewrite (first_occurrence_after _ _ _ _ Hnot Hi Hfirst) in Hn2.
    rewrite Hn2. rewrite delete_middle. apply app_nil_r.
  - unfold deref. rewrite <- Hc1, Ha2, Hc1, Ha1. reflexivity.
  - congruence.
  - rewrite Hsubs2, Hsubs1.
    replace (length (subscriptions m)) with (length (subscriptions m) + 0) by lia.
    rewrite insert_app_r. reflexivity.
  - exact Hwf2.
Qed.

(** X10. The same listener subscribed twice is in the list twice: two
    subscriptions, each with its own unsubscribe function. Calling either
    of them removes one entry (the first one equal to the listener) and
    leaves the other subscription live; calling it a second time changes
    nothing. *)
Theorem duplicate_subscriptions f m :
  WF m -> isDispatching m = false ->
  exists m1 m2,
    subscribe (VFun f) m = (Normal (VFun (FUnsub (length (subscriptions m)))), m1) /\
    subscribe (VFun f) m1 = (Normal (VFun (FUnsub (S (length (subscriptions m))))), m2) /\
    nextList m2 = nextList m ++ [f; f] /\
    forall h other,
      (h = length (subscriptions m) /\ other = S (length (subscriptions m))) \/
      (h = S (length (subscriptions m)) /\ other = length (subscriptions m)) ->
      exists m3,
        unsubscribe h m2 = (Normal VUndefined, m3) /\
        S (length (nextList m3)) = length (nextList m2) /\
        nextList m3 ≡ₚ nextList m ++ [f] /\
        (f ∉ nextList m -> nextList m3 = nextList m ++ [f]) /\
        subscriptions m3 !! other = Some (true, f) /\
        unsubscribe h m3 = (Normal VUndefined, m3).
Proof.
  intros Hwf Hidle.
  destruct (subscribe_edit f m Hwf Hidle)
    as (m1 & Hs1 & Hsubs1 & Hn1 & _ & _ & Hwf1 & _ & Hidle1 & _).
  destruct (subscribe_edit f m1 Hwf1 Hidle1)
    as (m2 & Hs2 & Hsubs2 & Hn2 & _ & _ & Hwf2 & _ & Hidle2 & _).
  assert (Hlen1 : length (subscriptions m1) = S (length (subscriptions m))).
  { rewrite Hsubs1, length_app. cbn. lia. }
  rewrite Hlen1 in Hs2.
  exists m1, m2. split; [exact Hs1|]. split; [exact Hs2|].
  assert (Hnext : nextList m2 = nextList m ++ [f; f]).
  { rewrite Hn2, Hn1, <- app_assoc. reflexivity. }
  split; [exact Hnext|].
  assert (Hlive1 : subscriptions m2 !! length (subscriptions m) = Some (true, f)).
  { rewrite Hsubs2, Hsubs1, <- app_assoc. apply list_lookup_middle. reflexivity. }
  assert (Hlive2 : subscriptions m2 !! S (length (subscriptions m)) = Some (true, f)).
  { rewrite Hsubs2. apply list_lookup_middle. exact (eq_sym Hlen1). }
  intros h other Hcase.
  assert (Hh : subscriptions m2 !! h = Some (true, f))
    by (destruct Hcase as [[-> _]|[-> _]]; assumption).
  assert (Ho : subscriptions m2 !! other = Some (true, f))
    by (destruct Hcase as [[_ ->]|[_ ->]]; assumption).
  assert (Hne : h <> other) by (destruct Hcase as [[-> ->]|[-> ->]]; lia).
  destruct (unsubscribe_edit h f m2 Hwf2 Hidle2 Hh)
    as (m3 & i & Hu & Hi & Hfirst & Hn3 & Hsubs3 & _).
  assert (Hgone : subscriptions m3 !! h = Some (false, f)).
  { rewrite Hsubs3. apply list_lookup_insert_eq. eapply lookup_lt_Some, Hh. }
  exists m3. split; [exact Hu|].
  rewrite Hnext in Hi, Hfirst, Hn3.
  split; [|split; [|split; [|split]]].
  - rewrite Hn3, Hnext, length_delete by eauto. apply lookup_lt_Some in Hi. lia.
  - apply (Permutation_cons_inv (a := f)).
    rewrite Hn3, <- (delete_Permutation _ _ _ Hi).
    change [f; f] with ([f] ++ [f]). rewrite app_assoc.
    symmetry. apply Permutation_cons_append.
  - intros Hnot.
    rewrite (first_occurrence_after _ _ _ _ Hnot Hi Hfirst) in Hn3.
    rewrite Hn3. apply delete_middle.
  - rewrite Hsubs3. rewrite list_lookup_insert_ne by exact Hne. exact Ho.
  - unfold unsubscribe. rewrite Hgone. reflexivity.
Qed.

Lemma subscribe_then_unsubscribe_witness :
  WF Demo.withL1 /\ isDispatching Demo.withL1 = false /\
  exists m1 m2,
    subscribe (VFun (FUser 2)) Demo.withL1 = (Normal (VFun (FUnsub 1)), m1) /\
    unsubscribe 1 m1 = (Normal VUndefined, m2) /\
    nextList m2 = [FUser 1].
Proof.
  split; [exact Demo_withL1_WF|]. split; [reflexivity|].
  destruct (subscribe_then_unsubscribe (FUser 2) Demo.withL1 Demo_withL1_WF eq_refl)
    as (m1 & m2 & Hs & Hu & _ & Hsame & _).
  exists m1, m2. split; [exact Hs|]. split; [exact Hu|].
  apply Hsame. unfold nextList, deref. cbn.
  intros Hin. apply list_elem_of_singleton in Hin. discriminate.
Defined.

Lemma duplicate_subscriptions_witness :
  WF Demo.created /\ isDispatching Demo.created = false /\
  exists m1 m2 m3,
    subscribe (VFun (FUser 2)) Demo.created = (Normal (VFun (FUnsub 0)), m1) /\
    subscribe (VFun (FUser 2)) m1 = (Normal (VFun (FUnsub 1)), m2) /\
    nextList m2 = [FUser 2; FUser 2] /\
    unsubscribe 1 m2 = (Normal VUndefined, m3) /\
    nextList m3 = [FUser 2] /\
    subscriptions m3 !! 0 = Some (true, FUser 2).
Proof.
  split; [exact Demo_created_WF|]. split; [reflexivity|].
  destruct (duplicate_subscriptions (FUser 2) Demo.created Demo_created_WF eq_refl)
    as (m1 & m2 & Hs1 & Hs2 & Hn & Hun).
  destruct (Hun 1 0 (or_intror (conj eq_refl eq_refl)))
    as (m3 & Hu & _ & _ & Hexact & Hother & _).
  exists m1, m2, m3.
  split; [exact Hs1|]. split; [exact Hs2|]. split; [exact Hn|].
  split; [exact Hu|]. split; [|exact Hother].
  apply Hexact. unfold nextList, deref. cbn. apply not_elem_of_nil.
Defined.

(** ** What holds in every store that can be reached *)

Section Reachable.
Variable code : nat -> list value -> prog.
Variable actionTypes : ActionTypesT.
Variable enhancers : func -> enhancerFn.

Lemma live_listeners (m : machine) (f : func) :
  f ∈ active m <-> exists h, subscriptions m !! h = Some (true, f).
Proof.
  unfold active. rewrite list_elem_of_fmap. split.
  - intros ([b g] & -> & Hin). apply list_elem_of_filter in Hin as [Hb Hin].
    cbn in Hb. subst b. apply list_elem_of_lookup_1 in Hin. exact Hin.
  - intros (h & Hh). exists (true, f). split; [reflexivity|].
    apply list_elem_of_filter. split; [reflexivity|].
    eapply list_elem_of_lookup_2, Hh.
Qed.

(** X11. In a store built without an enhancer, after any sequence of
    operations by user code (dispatches, nested or not, subscriptions,
    removals, reducer replacements, failed calls included): the dispatch
    flag is false; [nextListeners] refers to an array; that array holds the
    listeners of the subscriptions not yet removed, each as many times as it
    has live subscriptions and in some order, so that a listener is due to
    be notified if and only if it has a live subscription and the array is
    as long as there are live subscriptions; its entries stand in the order
    of a subsequence of all registrations; and as long as no listener
    function has been subscribed twice, it is the list of the live
    subscriptions in the order in which they were made. *)
Theorem reachable_store_is_consistent k n r s0 arg3 store m0 p c m :
  typeof s0 <> TyFunction ->
  createStore code actionTypes enhancers k (VFun r) s0 VUndefined arg3
    = Some (Created store m0) ->
  exec code actionTypes n p m0 = Some (c, m) ->
  isDispatching m = false /\
  nextListeners m < length (arrays m) /\
  nextList m ≡ₚ active m /\
  (forall f, f ∈ nextList m <-> exists h, subscriptions m !! h = Some (true, f)) /\
  length (nextList m)
    = length (filter (fun s : bool * func => s.1 = true) (subscriptions m)) /\
  nextList m `sublist_of` registered m /\
  (NoDup (registered m) -> nextList m = active m).
Proof.
  intros Hs0 Hc He.
  destruct (createStore_plain_inv code actionTypes enhancers k r s0 arg3 store m0 Hs0 Hc)
    as (_ & Hwf0 & Hidle0).
  pose proof (WF_exec code actionTypes n p m0 c m He Hwf0) as Hwf.
  pose proof Hwf as (Hlt & Hperm & Hsub).
  apply flag_exec in He.
  split; [congruence|]. split; [exact Hlt|]. split; [exact Hperm|].
  split; [|split; [|split; [exact Hsub|apply registration_order, Hwf]]].
  - intros f. rewrite Hperm. apply live_listeners.
  - rewrite Hperm. unfold active. apply length_fmap.
Qed.
End Reachable.

(** After a dispatch in which listener 1 subscribed listener 2, and on the
    store in which a listener subscribed twice has lost its later
    subscription: there the array is [L7; L2] while the live subscriptions
    were made in the order [L2; L7]. *)
Lemma reachable_store_is_consistent_witness :
  typeof VUndefined <> TyFunction /\
  isDispatching Demo.afterL1 = false /\
  nextList Demo.afterL1 ≡ₚ active Demo.afterL1 /\
  nextList Demo.afterL1 = [FUser 1; FUser 2] /\
  nextList Twice.store ≡ₚ active Twice.store /\
  nextList Twice.store = [FUser 7; FUser 2] /\
  active Twice.store = [FUser 2; FUser 7].
Proof.
  assert (Htwice : nextList Twice.store ≡ₚ active Twice.store).
  { apply (reachable_store_is_consistent Demo.code Demo.types Demo.enhancers
             8 8 (FUser 0) VUndefined VUndefined rawStore Demo.created
             Twice.edits (Normal VUndefined) Twice.store
             ltac:(discriminate) Demo_created ltac:(vm_compute; reflexivity)). }
  split; [discriminate|].
  destruct (reachable_store_is_consistent Demo.code Demo.types Demo.enhancers
              8 8 (FUser 0) VUndefined VUndefined rawStore Demo.created
              (Call (OSubscribe (VFun (FUser 1))) (fun _ =>
                 Call (ODispatch Demo.INC) rethrow))
              (Normal Demo.INC) Demo.afterL1
              ltac:(discriminate) Demo_created ltac:(vm_compute; reflexivity))
    as (Hflag & _ & Hperm & _ & _ & _ & Horder).
  split; [exact Hflag|]. split; [exact Hperm|].
  split; [rewrite Horder; [reflexivity|];
          apply (bool_decide_unpack _); vm_compute; exact I|].
  split; [exact Htwice|]. split; reflexivity.
Defined.

(** ** While the reducer runs *)

(** X12. While the dispatch flag is set, that is for the whole run of a
    reducer, user code cannot change the store through its operations,
    whatever it calls and whatever errors it catches: the state, the
    listener lists and the subscriptions are the same afterwards, the flag
    is still set, and no reducer and no listener has been called. (The one
    thing it can change is the reducer variable, by [replaceReducer].) *)
Theorem store_is_frozen_while_reducing (code : nat -> list value -> prog)
    (actionTypes : ActionTypesT) n p m c m' :
  isDispatching m = true ->
  exec code actionTypes n p m = Some (c, m') ->
  isDispatching m' = true /\
  currentState m' = currentState m /\
  nextList m' = nextList m /\
  deref m' (currentListeners m') = deref m (currentListeners m) /\
  subscriptions m' = subscriptions m /\
  exists evs,
    trace m' = trace m ++ evs /\ listenerCalls evs = [] /\ reducerCalls evs = [].
Proof.
  intros Hbusy He. apply busy_exec in He.
  destruct (He Hbusy) as (A1 & A2 & A3 & A4 & A5 & A6 & _ & _ & evs & A9 & A10).
  split; [congruence|]. split; [exact A2|].
  unfold nextList, deref. rewrite A3, A4, A5.
  repeat (split; [reflexivity || assumption|]).
  exists evs. split; [exact A9|].
  split; [apply listenerCalls_logs|apply reducerCalls_logs]; exact A10.
Qed.

(** A reducer body that tries everything and swallows every error. *)
Lemma store_is_frozen_while_reducing_witness :
  isDispatching Demo.reducing = true /\
  exists m',
    exec Demo.code Demo.types 5
      (Call (OSubscribe (VFun (FUser 2))) (fun _ =>
       Call (ODispatch Demo.INC) (fun _ =>
       Call (OCall (VFun (FUnsub 0)) []) (fun _ =>
       Call OGetState (fun _ => Ret (VNum 1))))))
      Demo.reducing = Some (Normal (VNum 1), m') /\
    currentState m' = VNum 0 /\ subscriptions m' = [(false, FUser 2)].
Proof.
  split; [reflexivity|]. eexists. split; [vm_compute; reflexivity|].
  destruct (store_is_frozen_while_reducing Demo.code Demo.types 5
              (Call (OSubscribe (VFun (FUser 2))) (fun _ =>
               Call (ODispatch Demo.INC) (fun _ =>
               Call (OCall (VFun (FUnsub 0)) []) (fun _ =>
               Call OGetState (fun _ => Ret (VNum 1))))))
              Demo.reducing _ _ eq_refl ltac:(vm_compute; reflexivity))
    as (_ & Hs & _ & _ & Hsubs & _).
  split; [exact Hs|exact Hsubs].
Defined.

(** ** What a listener finds when it is called *)

Section ListenerView.
Variable code : nat -> list value -> prog.
Variable actionTypes : ActionTypesT.
Variable n : nat.

Abbreviation call := (exec code actionTypes n).

(** With a bound as large as the snapshot, the loop of [dispatch] over the
    live array is the pass over the snapshot, whatever the pass does. *)
Lemma dispatch_as_pass a m s m1 :
  nextListeners m < length (arrays m) -> isDispatching m = false ->
  validAction a ->
  callFn code call (currentReducer m) [currentState m; a] (entering a m)
    = Some (Normal s, m1) ->
  length (nextList m) <= n ->
  dispatch code call n a m =
  match notifyAll code call (dispatchCount m) (nextList m) (committed s m1) with
  | Some (Normal _, m') => Some (Normal a, m')
  | other => other
  end.
Proof.
  intros Hlt Hidle Hvalid Hred Hlen.
  destruct (committed_snapshot code actionTypes n a m s m1 Hlt Hred)
    as (Hfr & Hsnap & _).
  rewrite (dispatch_valid code call n a m Hvalid Hidle), Hred.
  destruct (notifyAll code call (dispatchCount m) (nextList m) (committed s m1))
    as [r|] eqn:Hall.
  - rewrite (notify_complete code actionTypes n n (dispatchCount m)
               (nextListeners m1) 0 (committed s m1) r Hfr).
    + reflexivity.
    + rewrite Hsnap. lia.
    + rewrite drop_0, Hsnap. exact Hall.
  - destruct (notify _ _ _ _ _ _ _) as [[c m4]|] eqn:Hn; [|reflexivity].
    destruct (notify_frozen code actionTypes n _ _ _ _ _ _ _ Hfr Hn) as (Hall' & _).
    rewrite drop_0, Hsnap, Hall in Hall'. discriminate.
Qed.

(** X13. [dispatch] calls every listener of its pass with the dispatch flag
    already cleared. When the reducer has returned [s] and the listeners
    before [f] in the snapshot have returned, leaving the store in [mi],
    what [dispatch] does next is to call [f] on [mi] (with the call put on
    record), and its outcome is the outcome of that call followed by the
    pass over the listeners after [f]. In the machine of that call the flag
    is clear: [getState()] returns the stored state (for the first
    listener, the state the reducer has just returned), [subscribe] is
    accepted, and a [dispatch] of a well-shaped action is not refused but
    goes on to call the reducer. *)
Theorem listeners_run_with_flag_clear a m s m1 before f after v mi :
  WF m -> isDispatching m = false -> validAction a ->
  callFn code call (currentReducer m) [currentState m; a] (entering a m)
    = Some (Normal s, m1) ->
  nextList m = before ++ f :: after ->
  length (nextList m) <= n ->
  notifyAll code call (dispatchCount m) before (committed s m1)
    = Some (Normal v, mi) ->
  dispatch code call n a m =
    match callFn code call f [] (record (EvListener (dispatchCount m) f []) mi) with
    | Some (Normal _, mf) =>
        match notifyAll code call (dispatchCount m) after mf with
        | Some (Normal _, m') => Some (Normal a, m')
        | other => other
        end
    | other => other
    end /\
  isDispatching (record (EvListener (dispatchCount m) f []) mi) = false /\
  getState (record (EvListener (dispatchCount m) f []) mi)
    = (Normal (currentState mi), record (EvListener (dispatchCount m) f []) mi) /\
  (before = [] -> currentState mi = s) /\
  (forall l, exists m',
      subscribe (VFun l) (record (EvListener (dispatchCount m) f []) mi)
      = (Normal (VFun (FUnsub (length (subscriptions mi)))), m')) /\
  (forall a' r,
      validAction a' ->
      dispatch code call n a' (record (EvListener (dispatchCount m) f []) mi) = Some r ->
      exists c1 m1',
        callFn code call (currentReducer mi) [currentState mi; a']
          (entering a' (record (EvListener (dispatchCount m) f []) mi))
        = Some (c1, m1')).
Proof.
  intros Hwf Hidle Hvalid Hred Hsplit Hlen Hbefore.
  assert (Hflag : isDispatching mi = false).
  { rewrite (flag_notifyAll code actionTypes n _ _ _ _ _ Hbefore). reflexivity. }
  split.
  { rewrite (dispatch_as_pass a m s m1 (proj1 Hwf) Hidle Hvalid Hred Hlen).
    rewrite Hsplit, (notifyAll_app code actionTypes n), Hbefore. cbn [notifyAll].
    destruct (callFn code call f [] _) as [[[w|e] mf]|]; reflexivity. }
  split; [exact Hflag|].
  split; [unfold getState; cbn; rewrite Hflag; reflexivity|].
  split; [intros ->; cbn in Hbefore; injection Hbefore as _ <-; reflexivity|].
  split.
  - intros l. eexists.
    apply (subscribe_idle l (record (EvListener (dispatchCount m) f []) mi) Hflag).
  - intros a' r Hvalid' Hd.
    apply (dispatch_calls_reducer code call n a'
             (record (EvListener (dispatchCount m) f []) mi) r Hvalid' Hflag Hd).
Qed.
End ListenerView.

(** In [dispatch(INC)] on [Scenes.withThrower], the second listener is
    called in a machine where [getState()] returns 1, the state the reducer
    has just returned; it throws, and so does the dispatch. *)
Lemma listeners_run_with_flag_clear_witness :
  WF Scenes.withThrower /\ isDispatching Scenes.withThrower = false /\
  validAction Demo.INC /\
  nextList Scenes.withThrower = [FUser 2] ++ FUser 4 :: [FUser 2] /\
  getState (record (EvListener 1 (FUser 4) []) Scenes.beforeThrow)
    = (Normal (VNum 1), record (EvListener 1 (FUser 4) []) Scenes.beforeThrow) /\
  dispatch Demo.code (exec Demo.code Demo.types 4) 4 Demo.INC Scenes.withThrower
    = Some (Thrown (UserError (VStr "boom")), Scenes.afterThrow).
Proof.
  split; [exact Scenes_withThrower_WF|]. split; [reflexivity|].
  split; [exact Demo_INC_valid|]. split; [reflexivity|].
  destruct (listeners_run_with_flag_clear Demo.code Demo.types 4 Demo.INC
              Scenes.withThrower (VNum 1) (entering Demo.INC Scenes.withThrower)
              [FUser 2] (FUser 4) [FUser 2] VUndefined Scenes.beforeThrow
              Scenes_withThrower_WF eq_refl Demo_INC_valid eq_refl eq_refl
              ltac:(cbn; lia) ltac:(vm_compute; reflexivity))
    as (Hd & _ & Hget & _).
  split; [exact Hget|].
  rewrite Hd. vm_compute. reflexivity.
Defined.

(** ** A sequence of dispatches folds the reducer *)

Section Fold.
Variable code : nat -> list value -> prog.
Variable actionTypes : ActionTypesT.

Lemma unmoved_refl m : unmoved m m.
Proof. split; reflexivity. Qed.

Lemma unmoved_trans m1 m2 m3 : unmoved m1 m2 -> unmoved m2 m3 -> unmoved m1 m3.
Proof. intros [A1 A2] [B1 B2]. split; congruence. Qed.

Lemma unmoved_subscribe l m c m' : subscribe l m = (c, m') -> unmoved m m'.
Proof.
  intros Hs. destruct (subscribe_shape l m) as [(e & He)|(v & g & s & He & _)];
    rewrite He in Hs; injection Hs as <- <-; [apply unmoved_refl|].
  destruct (mutate_fields g (set_subscriptions s m)) as (A1 & A2 & _).
  split; assumption.
Qed.

Lemma unmoved_unsubscribe h m c m' : unsubscribe h m = (c, m') -> unmoved m m'.
Proof.
  intros Hu. destruct (unsubscribe_shape h m) as [(c' & He)|(g & s & He & _)];
    rewrite He in Hu; injection Hu as <- <-; [apply unmoved_refl|].
  destruct (mutate_fields g (set_subscriptions s m)) as (A1 & A2 & _).
  split; assumption.
Qed.

Section OneLevel.
Variable call : prog -> machine -> option (completion * machine).
Variable bound : nat.

Lemma passive_perform o m c m' :
  passiveOp o ->
  perform code actionTypes call bound o m = Some (c, m') -> unmoved m m'.
Proof.
  intros Ho. destruct Ho; cbn [perform callValue callFn].
  - unfold getState. destruct (isDispatching m); intros [= <- <-]; apply unmoved_refl.
  - intros [=]. eapply unmoved_subscribe; eauto.
  - intros [=]. eapply unmoved_unsubscribe; eauto.
  - intros [= <- <-]. split; reflexivity.
Qed.

Lemma passive_run p : passive p -> forall m c m',
  run code actionTypes call bound p m = Some (c, m') -> unmoved m m'.
Proof.
  induction 1 as [v|e|o k Ho Hk IH]; intros m c m'; cbn [run].
  - intros [= <- <-]. apply unmoved_refl.
  - intros [= <- <-]. apply unmoved_refl.
  - destruct (perform _ _ _ _ _ _) as [[c1 m1]|] eqn:Hp; [|discriminate].
    intros Hrest. eapply unmoved_trans; [eapply passive_perform; eauto|].
    eapply IH, Hrest.
Qed.
End OneLevel.

Hypothesis code_passive : forall i args, passive (code i args).

Lemma passive_exec n p m c m' :
  passive p -> exec code actionTypes n p m = Some (c, m') -> unmoved m m'.
Proof.
  destruct n as [|n]; [discriminate|]. cbn [exec]. intros Hp. apply passive_run, Hp.
Qed.

Lemma passive_callFn n f args m c m' :
  callFn code (exec code actionTypes n) f args m = Some (c, m') -> unmoved m m'.
Proof.
  destruct f; cbn [callFn].
  - apply passive_exec, code_passive.
  - intros [=]. eapply unmoved_unsubscribe; eauto.
Qed.

Lemma passive_notifyAll n d snapshot : forall m c m',
  notifyAll code (exec code actionTypes n) d snapshot m = Some (c, m') ->
  unmoved m m'.
Proof.
  induction snapshot as [|f rest IH]; intros m c m'; cbn [notifyAll].
  - intros [= <- <-]. apply unmoved_refl.
  - destruct (callFn _ _ _ _ _) as [[[v|e] m1]|] eqn:Hf; [| |discriminate].
    + intros Hrest. apply passive_callFn in Hf. apply IH in Hrest.
      eapply unmoved_trans; [|exact Hrest].
      eapply unmoved_trans; [|exact Hf]. split; reflexivity.
    + intros [= <- <-]. apply passive_callFn in Hf.
      eapply unmoved_trans; [|exact Hf]. split; reflexivity.
Qed.

Variable r : nat.
Variable step : value -> value -> value.
Hypothesis reducer_pure : forall s a, code r [s; a] = Ret (step s a).

(** One dispatch, when every function is passive and the reducer is [step]. *)
Lemma dispatch_steps n a m v m' :
  WF m -> isDispatching m = false -> currentReducer m = FUser r ->
  dispatch code (exec code actionTypes n) n a m = Some (Normal v, m') ->
  validAction a /\
  currentState m' = step (currentState m) a /\
  currentReducer m' = FUser r /\ WF m' /\ isDispatching m' = false.
Proof.
  intros Hwf Hidle Hr Hd.
  assert (Hwf' : WF m') by (eapply WF_dispatch; [apply WF_exec|exact Hd|exact Hwf]).
  assert (Hidle' : isDispatching m' = false).
  { apply flag_dispatch in Hd; [congruence|apply flag_exec]. }
  apply dispatch_cases in Hd.
  destruct Hd as [(e & [= ] & _)|(Hvalid & _ & c1 & m1 & Hred & Hrest)].
  split; [exact Hvalid|].
  rewrite Hr in Hred. cbn [callFn] in Hred. rewrite reducer_pure in Hred.
  destruct n as [|n]; [discriminate|]. cbn [exec run] in Hred.
  injection Hred as <- <-.
  destruct Hrest as (c2 & m4 & Hn & Heq).
  assert (m4 = m') by congruence. subst m4.
  assert (Hfr : frozen (nextListeners (entering a m))
                  (committed (step (currentState m) a) (entering a m))).
  { split; [apply Hwf|]. right. reflexivity. }
  destruct (notify_frozen code actionTypes (S n) _ _ _ _ _ _ _ Hfr Hn) as (Hall & _).
  apply passive_notifyAll in Hall. destruct Hall as [Hs Hc].
  split; [exact Hs|]. split; [rewrite Hc; exact Hr|]. split; assumption.
Qed.

(** X14. With a reducer that computes [step(state, action)] and listeners
    that only look on (they read the state, log, subscribe, unsubscribe,
    but never dispatch), dispatching a list of actions one after the other
    leaves the store in the state obtained by folding [step] over the
    actions, from the state it had; every action has passed the shape
    checks. *)
Theorem dispatches_fold_the_reducer n actions m v m' :
  WF m -> isDispatching m = false -> currentReducer m = FUser r ->
  exec code actionTypes n (dispatchAll actions) m = Some (Normal v, m') ->
  v = fold_left step actions (currentState m) /\
  currentState m' = v /\
  Forall validAction actions.
Proof.
  destruct n as [|n]; [discriminate|]. cbn [exec].
  revert m. induction actions as [|a rest IH]; intros m Hwf Hidle Hr;
    cbn [dispatchAll run perform fold_left].
  - unfold getState. rewrite Hidle. cbn [rethrow run]. intros [= <- <-]. auto.
  - destruct (dispatch code _ n a m) as [[[u|e] m1]|] eqn:Hd; try discriminate.
    intros Hrest.
    destruct (dispatch_steps n a m u m1 Hwf Hidle Hr Hd)
      as (Hvalid & Hs & Hr1 & Hwf1 & Hidle1).
    destruct (IH m1 Hwf1 Hidle1 Hr1 Hrest) as (Hv & Hs' & Hall).
    rewrite Hs in Hv. auto.
Qed.
End Fold.

Lemma Tally_code_passive : forall i args, passive (Tally.code i args).
Proof.
  intros [|[|i]] args; cbn.
  - destruct args as [|s [|a [|b rest]]]; constructor.
  - constructor; [constructor|]. intros [s|e]; [|constructor].
    constructor; [constructor|]. intros _. constructor.
  - constructor.
Qed.

Lemma Tally_store_WF : WF Tally.store.
Proof. wf_by_computation. Qed.

Lemma dispatches_fold_the_reducer_witness :
  WF Tally.store /\ isDispatching Tally.store = false /\
  currentReducer Tally.store = FUser 0 /\
  exists m',
    exec Tally.code Demo.types 6
      (dispatchAll [Tally.A 1; Tally.A 2; Tally.A 3]) Tally.store
      = Some (Normal (VNum 4), m') /\
    VNum 4 = fold_left Tally.step [Tally.A 1; Tally.A 2; Tally.A 3]
               (currentState Tally.store) /\
    currentState m' = VNum 4.
Proof.
  split; [exact Tally_store_WF|]. split; [reflexivity|]. split; [reflexivity|].
  eexists. split; [vm_compute; reflexivity|].
  destruct (dispatches_fold_the_reducer Tally.code Demo.types Tally_code_passive
              0 Tally.step ltac:(reflexivity) 6
              [Tally.A 1; Tally.A 2; Tally.A 3] Tally.store _ _
              Tally_store_WF eq_refl eq_refl ltac:(vm_compute; reflexivity))
    as (Hv & Hs & _).
  split; [exact Hv|exact Hs].
Defined.

(** ** A middleware that does not call next *)





(** ** The observable view *)

Section Observable.
Variable code : nat -> list value -> prog.
Variable actionTypes : ActionTypesT.
Variable n : nat.

Abbreviation call := (exec code actionTypes n).

(** What [observeState] does when [observer.next] is a function. *)
Lemma observeState_run o g m :
  getProp o "next" = VFun g -> isDispatching m = false ->
  exec code actionTypes (S n) (observeState (VObj o)) m =
  match callFn code call g [currentState m] m with
  | Some (Normal _, m1) => Some (Normal VUndefined, m1)
  | other => other
  end.
Proof.
  intros Hnext Hidle. cbn [exec observeState]. rewrite Hnext.
  cbn [toBoolean run perform]. unfold getState. rewrite Hidle.
  cbn [run perform callValue].
  destruct (callFn code call g [currentState m] m) as [[[v|e] m1]|]; reflexivity.
Qed.

Lemma observableSubscribe_object self result o :
  observableSubscribe self result (VObj o) =
  bind (observeState (VObj o)) (fun _ =>
    Call (OSubscribe (VFun (FUser self))) (fun c =>
      match c with
      | Normal unsubscribe =>
          Ret (VObj (Obj result (Some ObjectPrototype) [("unsubscribe", unsubscribe)]))
      | Thrown e => Throw e
      end)).
Proof. reflexivity. Qed.

(** X16. The observable view, [store[$$observable]().subscribe(observer)].
    An observer that is not an object, or is null, is refused and nothing
    changes. Otherwise, when [observer.next] is a function, it is called at
    once with the current state; then the closure is subscribed as a
    listener and an object holding its unsubscribe function is returned;
    and whenever that listener is notified, [observer.next] is called with
    the state stored at that moment. If the first call of [observer.next]
    throws, no subscription is made. An observer whose [next] is missing
    (or falsy) is subscribed without any call. *)
Theorem observable_subscribe self result observer m :
  (typeof observer <> TyObject \/ observer = VNull ->
   exec code actionTypes (S n) (observableSubscribe self result observer) m
   = Some (Thrown ObserverNotObject, m)) /\
  (forall o g,
      observer = VObj o -> getProp o "next" = VFun g -> isDispatching m = false ->
      (forall v m1,
          callFn code call g [currentState m] m = Some (Normal v, m1) ->
          exec code actionTypes (S n) (observableSubscribe self result observer) m
          = Some (Normal
                    (VObj (Obj result (Some ObjectPrototype)
                             [("unsubscribe",
                               VFun (FUnsub (length (subscriptions m1))))])),
                  (subscribe (VFun (FUser self)) m1).2) /\
          subscriptions (subscribe (VFun (FUser self)) m1).2
            = subscriptions m1 ++ [(true, FUser self)]) /\
      (forall e m1,
          callFn code call g [currentState m] m = Some (Thrown e, m1) ->
          exec code actionTypes (S n) (observableSubscribe self result observer) m
          = Some (Thrown e, m1)) /\
      ((forall args, code self args = observeState observer) ->
       forall mi, isDispatching mi = false ->
         callFn code (exec code actionTypes (S n)) (FUser self) [] mi =
         match callFn code call g [currentState mi] mi with
         | Some (Normal _, m') => Some (Normal VUndefined, m')
         | other => other
         end)) /\
  (forall o,
      observer = VObj o -> toBoolean (getProp o "next") = false ->
      isDispatching m = false ->
      exec code actionTypes (S n) (observableSubscribe self result observer) m
      = Some (Normal
                (VObj (Obj result (Some ObjectPrototype)
                         [("unsubscribe", VFun (FUnsub (length (subscriptions m))))])),
              (subscribe (VFun (FUser self)) m).2)).
Proof.
  split; [|split].
  - intros Hbad. unfold observableSubscribe.
    destruct observer; cbn; try reflexivity.
    destruct Hbad as [Hbad|Hbad]; [contradiction Hbad; reflexivity|discriminate].
  - intros o g -> Hnext Hidle.
    pose proof (observeState_run o g m Hnext Hidle) as Hobs. cbn [exec] in Hobs.
    split; [|split].
    + intros v m1 Hg. rewrite Hg in Hobs.
      assert (Hidle1 : isDispatching m1 = false).
      { apply flag_callFn in Hg. congruence. }
      split.
      * rewrite observableSubscribe_object.
        cbn [exec]. rewrite run_bind, Hobs. cbn [run perform].
        rewrite (subscribe_idle (FUser self) m1 Hidle1). reflexivity.
      * rewrite (subscribe_idle (FUser self) m1 Hidle1). cbn [snd].
        apply (mutate_fields _ (set_subscriptions _ m1)).
    + intros e m1 Hg. rewrite Hg in Hobs.
      rewrite observableSubscribe_object.
      cbn [exec]. rewrite run_bind, Hobs. reflexivity.
    + intros Hself mi Hidlei. cbn [callFn]. rewrite Hself.
      apply observeState_run; assumption.
  - intros o -> Hfalsy Hidle.
    rewrite observableSubscribe_object.
    cbn [exec observeState]. rewrite Hfalsy. cbn [bind run perform].
    rewrite (subscribe_idle (FUser self) m Hidle). reflexivity.
Qed.
End Observable.

(** The observer is told the state when it subscribes (0) and after the
    dispatch that follows (1). *)
Lemma observable_subscribe_witness :
  getProp (Obj 30 (Some ObjectPrototype) [("next", VFun (FUser 1))]) "next"
    = VFun (FUser 1) /\
  isDispatching Watch.store = false /\
  (exists u m1,
      exec Watch.code Demo.types 5 (observableSubscribe 2 31 Watch.observer) Watch.store
        = Some (Normal (VObj (Obj 31 (Some ObjectPrototype) [("unsubscribe", u)])), m1) /\
      nextList m1 = [FUser 2]) /\
  (fun r => drop 1 (trace r.2)) <$>
     exec Watch.code Demo.types 6
       (bind (observableSubscribe 2 31 Watch.observer) (fun _ =>
          Call (ODispatch Demo.INC) rethrow)) Watch.store
  = Some [EvLog (VNum 0); EvReducer 1 (VNum 0) Demo.INC;
          EvListener 1 (FUser 2) []; EvLog (VNum 1)].
Proof.
  split; [reflexivity|]. split; [reflexivity|]. split.
  - destruct (observable_subscribe Watch.code Demo.types 4 2 31 Watch.observer
                Watch.store) as (_ & Hobj & _).
    destruct (Hobj _ (FUser 1) eq_refl eq_refl eq_refl) as (Hcall & _).
    destruct (Hcall VUndefined (record (EvLog (VNum 0)) Watch.store)
                ltac:(vm_compute; reflexivity)) as (Hrun & _).
    eexists. eexists. split; [exact Hrun|]. vm_compute. reflexivity.
  - vm_compute. reflexivity.
Defined.

(** ** The listener array is copied lazily *)

(** What an edit of the next list does to the heap of arrays. *)
Lemma mutate_allocation (g : list func -> list func) (m : machine) :
  nextListeners m < length (arrays m) ->
  let m' := mutateNext g m in
  nextListeners m' < length (arrays m') /\
  nextListeners m' <> currentListeners m' /\
  (nextListeners m = currentListeners m ->
   length (arrays m') = S (length (arrays m)) /\
   nextListeners m' = length (arrays m)) /\
  (nextListeners m <> currentListeners m ->
   length (arrays m') = length (arrays m) /\
   nextListeners m' = nextListeners m).
Proof.
  intros Hlt. unfold mutateNext.
  destruct (ensure_cases m) as [[Heq ->]|[Hne ->]];
    cbn; rewrite length_alter.
  - rewrite length_app. cbn. repeat split; lia.
  - repeat split; try assumption; contradiction.
Qed.

(** X17. [ensureCanMutateNextListeners] copies the listener array only when
    it has to. A [subscribe], or the [unsubscribe] of a live subscription,
    on an idle store whose [nextListeners] is still the array of
    [currentListeners] allocates exactly one new array and points
    [nextListeners] at it; on a store where the two already differ it
    allocates nothing and writes in place.
    Either way the two differ afterwards, so of any number of edits made
    in a row only the first one copies. *)
Theorem listener_array_copied_lazily (f : func) (h : nat) (l : func)
    (m m' : machine) :
  WF m -> isDispatching m = false ->
  m' = (subscribe (VFun f) m).2 \/
  (subscriptions m !! h = Some (true, l) /\ m' = (unsubscribe h m).2) ->
  WF m' /\ isDispatching m' = false /\
  currentListeners m' = currentListeners m /\
  nextListeners m' <> currentListeners m' /\
  (nextListeners m = currentListeners m ->
   length (arrays m') = S (length (arrays m)) /\
   nextListeners m' = length (arrays m) /\
   deref m' (currentListeners m') = nextList m) /\
  (nextListeners m <> currentListeners m ->
   length (arrays m') = length (arrays m) /\
   nextListeners m' = nextListeners m).
Proof.
  intros Hwf Hidle Hm'.
  assert (Hlt : nextListeners m < length (arrays m)) by apply Hwf.
  assert (Hshape : exists g s, m' = mutateNext g (set_subscriptions s m) /\ WF m').
  { destruct Hm' as [-> | [Hsub ->]].
    - destruct (subscribe_edit f m Hwf Hidle) as (m1 & Hs & _ & _ & _ & _ & Hwf1 & _).
      rewrite Hs. cbn [snd]. rewrite (subscribe_idle f m Hidle) in Hs.
      injection Hs as <-. eauto.
    - destruct (unsubscribe_edit h l m Hwf Hidle Hsub)
        as (m2 & i & Hu & _ & _ & _ & _ & _ & _ & Hwf2 & _).
      rewrite Hu. cbn [snd].
      destruct (unsubscribe_idle h l m Hidle Hsub) as (g & Hg & _).
      rewrite Hg in Hu. injection Hu as <-. eauto. }
  destruct Hshape as (g & s & -> & Hwf').
  pose proof (mutate_fields g (set_subscriptions s m))
    as (_ & _ & Hcur & Hflag & _).
  pose proof (mutate_allocation g (set_subscriptions s m) Hlt)
    as (_ & Hne & Hcopy & Hplace).
  cbn [currentListeners isDispatching set_subscriptions] in Hcur, Hflag.
  split; [exact Hwf'|]. split; [congruence|]. split; [exact Hcur|].
  split; [exact Hne|]. split.
  - intros Heq. destruct (Hcopy Heq) as [Hlen Hnext].
    split; [exact Hlen|]. split; [exact Hnext|].
    rewrite Hcur. unfold nextList. rewrite Heq. unfold deref.
    pose proof (mutate_current g (set_subscriptions s m) Hlt) as Hsame.
    cbn [currentListeners arrays set_subscriptions] in Hsame.
    rewrite Hsame. reflexivity.
  - exact Hplace.
Qed.

Lemma Scenes_afterL2_WF : WF Scenes.afterL2.
Proof. wf_by_computation. Qed.

(** After a dispatch the first edit copies the array (two arrays become
    three); the edit that follows writes in place. *)
Lemma listener_array_copied_lazily_witness :
  WF Scenes.afterL2 /\ isDispatching Scenes.afterL2 = false /\
  subscriptions Scenes.afterL2 !! 0 = Some (true, FUser 2) /\
  nextListeners Scenes.afterL2 = currentListeners Scenes.afterL2 /\
  length (arrays Scenes.afterL2) = 2 /\
  length (arrays (subscribe (VFun (FUser 1)) Scenes.afterL2).2) = 3 /\
  length (arrays (unsubscribe 0 (subscribe (VFun (FUser 1)) Scenes.afterL2).2).2) = 3.
Proof.
  split; [exact Scenes_afterL2_WF|]. split; [reflexivity|].
  split; [reflexivity|]. split; [reflexivity|]. split; [reflexivity|].
  destruct (listener_array_copied_lazily (FUser 1) 0 (FUser 2) Scenes.afterL2
              (subscribe (VFun (FUser 1)) Scenes.afterL2).2
              Scenes_afterL2_WF eq_refl (or_introl eq_refl))
    as (Hwf1 & Hidle1 & _ & Hne1 & Hcopy & _).
  destruct (Hcopy eq_refl) as (Hlen1 & _).
  split; [exact Hlen1|].
  destruct (listener_array_copied_lazily (FUser 1) 0 (FUser 2)
              (subscribe (VFun (FUser 1)) Scenes.afterL2).2
              (unsubscribe 0 (subscribe (VFun (FUser 1)) Scenes.afterL2).2).2
              Hwf1 Hidle1 (or_intror (conj eq_refl eq_refl)))
    as (_ & _ & _ & _ & _ & Hplace).
  destruct (Hplace Hne1) as (Hlen2 & _).
  rewrite Hlen2. exact Hlen1.
Defined.
